(** * NutriKazBot: the message scheduler, the stage resolver and enrolment

  A shallow embedding of the scheduling core of the bot:
  - [get_current_stage]          (app/handlers/common.py),
  - [send_scheduled_broadcasts]  (app/database/crud_admin.py), the
    body of the once-a-minute loop of run.py,
  - [send_broadcast_now], [add_message_schedule] and the recipient
    queries (app/database/crud_admin.py),
  - [add_user]                   (app/database/crud_user.py),
  - [schedule_lead_magnet_messages] (app/handlers/lead_magnet.py).

  Conventions.
  - A wall-clock instant of the zone Asia/Almaty is an integer number of
    microseconds counted from Python's ordinal day 0.  Aware datetimes
    that share one tzinfo are compared and shifted on their wall-clock
    fields, so [<=] and [+] on [Z] are the source's comparisons and
    [timedelta] additions.
  - A table is the list of its rows in scan order; a query without
    ORDER BY returns rows in that order and LIMIT 1 keeps the first.
  - The code runs in a monad that threads the SQLAlchemy session, the
    committed database, the trace of observable events and a budget of
    database round trips, and that can raise. *)

From Stdlib Require Import ZArith List String Ascii Bool Lia.
Import ListNotations.
Open Scope Z_scope.

(* ================================================================== *)
(** * Wall-clock time                                                   *)
(* ================================================================== *)

Module Clock.

Definition is_leap (y : Z) : bool :=
  ((y mod 4 =? 0) && negb (y mod 100 =? 0)) || (y mod 400 =? 0).

Definition days_before_year (y : Z) : Z :=
  let y1 := y - 1 in y1 * 365 + y1 / 4 - y1 / 100 + y1 / 400.

Definition days_before_month (y m : Z) : Z :=
  nth (Z.to_nat m) [-1; 0; 31; 59; 90; 120; 151; 181; 212; 243; 273; 304; 334] 0
  + (if (2 <? m) && is_leap y then 1 else 0).

Definition ymd2ord (y m d : Z) : Z :=
  days_before_year y + days_before_month y m + d.

Definition second : Z := 1000000.
Definition minute : Z := 60 * second.
Definition hour : Z := 60 * minute.
Definition day : Z := 24 * hour.

(** [datetime(y, m, d, h, mi, tzinfo=ALMATY_TZ)] *)
Definition datetime (y m d h mi : Z) : Z :=
  ymd2ord y m d * day + h * hour + mi * minute.

(** [timedelta(days=d, minutes=m)] *)
Definition timedelta (days minutes : Z) : Z := days * day + minutes * minute.

End Clock.

(* ================================================================== *)
(** * The stage resolver (app/handlers/common.py)                       *)
(* ================================================================== *)

(** The three windows tested by [get_current_stage], in the order of the
    [if]/[elif] chain: stage identifier, start (inclusive), end (exclusive). *)
Definition stage_windows : list (string * Z * Z) :=
  [ ("stage1"%string, Clock.datetime 2025 10 29 0 0, Clock.datetime 2025 11 7 0 0);
    ("stage2"%string, Clock.datetime 2025 11 7 0 0, Clock.datetime 2025 11 13 0 0);
    ("stage3"%string, Clock.datetime 2025 11 14 0 0, Clock.datetime 2025 11 18 0 0) ].

(** [get_current_stage], with [now = datetime.now(ALMATY_TZ)] as its
    argument.  A Python function that falls off its last [elif] returns
    [None]. *)
Definition get_current_stage (now : Z) : option string :=
  if (Clock.datetime 2025 10 29 0 0 <=? now) && (now <? Clock.datetime 2025 11 7 0 0)
  then Some "stage1"%string
  else if (Clock.datetime 2025 11 7 0 0 <=? now) && (now <? Clock.datetime 2025 11 13 0 0)
  then Some "stage2"%string
  else if (Clock.datetime 2025 11 14 0 0 <=? now) && (now <? Clock.datetime 2025 11 18 0 0)
  then Some "stage3"%string
  else None.

(** An instant lies in the half-open window [[start, stop)]. *)
Definition in_window (w : string * Z * Z) (t : Z) : Prop :=
  let '(_, start, stop) := w in start <= t < stop.

Definition window_stage (w : string * Z * Z) : string := fst (fst w).

(* ================================================================== *)
(** * The tables (app/database/models.py)                               *)
(* ================================================================== *)

(** Every table inherits the audit columns [created] and [updated] of
    [Base].  A nullable column is an [option]. *)

Module LeadSource.
Record t := mk {
    id : Z;
    name : string;
    description : option string;
    created : Z;
    updated : Z }.
End LeadSource.

Module User.
Record t := mk {
    id : Z;                        (* primary key *)
    user_id : Z;                   (* Telegram id, unique, not null *)
    username : option string;
    first_name : option string;
    last_name : option string;
    phone : option string;
    lead_source_id : option Z;     (* the segment, nullable *)
    registered_at : Z;
    created : Z;
    updated : Z }.
End User.

Module MessageSchedule.
Record t := mk {
    id : Z;
    user_id : Z;                   (* foreign key to user.id *)
    message_text : string;
    send_time : Z;
    sent : bool;
    created : Z;
    updated : Z }.

Definition set_sent (v : bool) (m : t) : t :=
    mk (id m) (user_id m) (message_text m) (send_time m) v (created m) (updated m).
End MessageSchedule.

Module Broadcast.
Record t := mk {
    id : Z;
    title : string;
    content : string;
    file_path : option string;
    file_type : option string;
    created_at : Z;
    scheduled_at : option Z;
    is_sent : bool;
    status : option string;
    file_id : option string;
    sent_count : Z;
    target_lead_id : option Z;     (* the segment filter, null = everybody *)
    created : Z;
    updated : Z }.

Definition set_status (s : option string) (b : t) : t :=
  mk (id b) (title b) (content b) (file_path b) (file_type b) (created_at b)
     (scheduled_at b) (is_sent b) s (file_id b) (sent_count b)
     (target_lead_id b) (created b) (updated b).

(** [SET is_sent = true, status = 'sent', sent_count = :total, updated = :now] *)
Definition finalize (total now : Z) (b : t) : t :=
  mk (id b) (title b) (content b) (file_path b) (file_type b) (created_at b)
     (scheduled_at b) true (Some "sent"%string) (file_id b) total
     (target_lead_id b) (created b) now.
End Broadcast.

(** The database: its four tables. *)
Record Store := mkStore {
  lead_source : list LeadSource.t;
  user : list User.t;
  message_schedule : list MessageSchedule.t;
  broadcast : list Broadcast.t }.

Definition with_user (us : list User.t) (db : Store) : Store :=
  mkStore (lead_source db) us (message_schedule db) (broadcast db).
Definition with_message_schedule (ms : list MessageSchedule.t) (db : Store) : Store :=
  mkStore (lead_source db) (user db) ms (broadcast db).
Definition with_broadcast (bs : list Broadcast.t) (db : Store) : Store :=
  mkStore (lead_source db) (user db) (message_schedule db) bs.

(** The next value of an autoincrement primary key.  The sequence of the
    database never hands out a key twice, also not the key of a deleted
    row; here the next key is one more than the largest key in the table,
    which is new to the table as well.  The statements below use that the
    key is new, never its value. *)
Definition next_id (ids : list Z) : Z := 1 + fold_right Z.max 0 ids.

(* ================================================================== *)
(** * SQL statements and queries of the dispatcher                      *)
(* ================================================================== *)

(** The three textual UPDATE statements of [send_scheduled_broadcasts]. *)
Inductive Stmt :=
| MarkScheduleSent (id : Z)
    (* UPDATE message_schedule SET sent = true WHERE id = :id *)
| MarkBroadcastSending (id : Z)
    (* UPDATE broadcast SET status = 'sending' WHERE id = :id *)
| MarkBroadcastSent (id total now : Z).
    (* UPDATE broadcast SET is_sent = true, status = 'sent',
       sent_count = :total, updated = :now WHERE id = :id *)

(** [UPDATE ... SET ... WHERE p]: the rows that satisfy [p] are rewritten.
    A table is held as the list of its rows; SQL fixes no order of the rows
    of a query without ORDER BY, and the database may return a rewritten
    row at another place of a later scan.  The list keeps it in place, and
    the statements about a table after an UPDATE speak of its rows by
    their keys, by membership or by their number. *)
Definition update_where {A} (p : A -> bool) (f : A -> A) (rows : list A) : list A :=
  map (fun r => if p r then f r else r) rows.

Definition apply_stmt (s : Stmt) (db : Store) : Store :=
  match s with
  | MarkScheduleSent i =>
      with_message_schedule
        (update_where (fun m => MessageSchedule.id m =? i)
                      (MessageSchedule.set_sent true) (message_schedule db)) db
  | MarkBroadcastSending i =>
      with_broadcast
        (update_where (fun b => Broadcast.id b =? i)
                      (Broadcast.set_status (Some "sending"%string)) (broadcast db)) db
  | MarkBroadcastSent i total now =>
      with_broadcast
        (update_where (fun b => Broadcast.id b =? i)
                      (Broadcast.finalize total now) (broadcast db)) db
  end.

(** A row of [query_personal]: [ms.id, ms.message_text, u.user_id as tg_id]. *)
Module PersonalRow.
Record t := mk { id : Z; message_text : string; tg_id : Z }.
End PersonalRow.

(** A row of [query_broadcast]: [id, title, content, file_id, file_type].
    The segment filter [target_lead_id] is not among the selected columns. *)
Module BroadcastRow.
Record t := mk {
    id : Z; title : string; content : string;
    file_id : option string; file_type : option string }.

Definition of_broadcast (b : Broadcast.t) : t :=
    mk (Broadcast.id b) (Broadcast.title b) (Broadcast.content b)
       (Broadcast.file_id b) (Broadcast.file_type b).
End BroadcastRow.

(** [WHERE ms.send_time <= :now AND ms.sent = false] *)
Definition personal_due (now : Z) (m : MessageSchedule.t) : bool :=
  (MessageSchedule.send_time m <=? now) && negb (MessageSchedule.sent m).

(** [FROM message_schedule ms JOIN "user" u ON u.id = ms.user_id WHERE ...] *)
Definition query_personal (now : Z) (db : Store) : list PersonalRow.t :=
  flat_map (fun m =>
    if personal_due now m then
      flat_map (fun u =>
        if User.id u =? MessageSchedule.user_id m
        then [PersonalRow.mk (MessageSchedule.id m)
                (MessageSchedule.message_text m) (User.user_id u)]
        else []) (user db)
    else []) (message_schedule db).

(** [WHERE scheduled_at <= :now AND (status IS NULL OR status = 'pending')
     AND is_sent = false]; a comparison with NULL selects nothing. *)
Definition broadcast_due (now : Z) (b : Broadcast.t) : bool :=
  match Broadcast.scheduled_at b with
  | Some t => t <=? now
  | None => false
  end
  && match Broadcast.status b with
     | None => true
     | Some s => String.eqb s "pending"
     end
  && negb (Broadcast.is_sent b).

(** [... LIMIT 1] then [fetchone()] *)
Definition query_broadcast (now : Z) (db : Store) : option BroadcastRow.t :=
  option_map BroadcastRow.of_broadcast (find (broadcast_due now) (broadcast db)).

(** [SELECT user_id FROM "user" WHERE user_id IS NOT NULL]; the column is
    declared NOT NULL, so every row qualifies. *)
Definition users_query (db : Store) : list Z :=
  map User.user_id (user db).

(* ================================================================== *)
(** * The outside world: the Telegram client and the trace              *)
(* ================================================================== *)

(** The calls on the aiogram [Bot] made by the modelled code. *)
Inductive Call :=
| send_message (chat_id : Z) (text : string)
| send_photo (chat_id : Z) (photo : option string)
| send_document (chat_id : Z) (document : option string) (caption : option string)
| send_video (chat_id : Z) (video : option string).

Definition chat_of (c : Call) : Z :=
  match c with
  | send_message i _ | send_photo i _ | send_document i _ _ | send_video i _ => i
  end.

(** A call returns, or raises an exception whose [str] is [msg]. *)
Inductive Outcome := Delivered | Failed (msg : string).

(** Which unit of work a delivery attempt belongs to (a label of the
    trace only; the code does not branch on it). *)
Inductive Origin := Personal (schedule_id : Z) | Mass (broadcast_id : Z).

Inductive Level := Info | Warning | Error.

Inductive Event :=
| EvSend (o : Origin) (c : Call) (r : Outcome)   (* a delivery attempt *)
| EvExec (s : Stmt)                              (* an UPDATE sent to the database *)
| EvCommit (persisted : Store)                   (* a commit and what it made durable *)
| EvRollback
| EvLog (l : Level).

(** The Telegram side: the outcome of a call may depend on everything
    that happened before it. *)
Definition Bot := list Event -> Call -> Outcome.

(* ================================================================== *)
(** * The monad                                                         *)
(* ================================================================== *)

Inductive Exn :=
| TelegramError (msg : string)
| StoreError
| MultipleResultsFound.

(** [str(e)] *)
Definition exn_str (e : Exn) : string :=
  match e with
  | TelegramError msg => msg
  | StoreError => "database error"
  | MultipleResultsFound => "Multiple rows were found when one or none was required"
  end.

Inductive Result (A : Type) := Ok (a : A) | Raise (e : Exn).
Arguments Ok {A} a.
Arguments Raise {A} e.

(** [session]: the database as the open transaction sees it;
    [durable]: the database as last committed;
    [db_budget]: [None] when the database never fails, [Some n] when it
    fails from its [n+1]-th round trip on. *)
Record World := mkWorld {
  session : Store;
  durable : Store;
  trace : list Event;
  db_budget : option nat }.

Definition M (A : Type) : Type := World -> Result A * World.

Definition ret {A} (a : A) : M A := fun w => (Ok a, w).

Definition bind {A B} (m : M A) (k : A -> M B) : M B :=
  fun w => match m w with
           | (Ok a, w') => k a w'
           | (Raise e, w') => (Raise e, w')
           end.

Declare Scope monad_scope.
Delimit Scope monad_scope with monad.
Notation "x <- m ;; k" := (bind m (fun x => k))
  (at level 100, m at next level, right associativity) : monad_scope.
Notation "m ;; k" := (bind m (fun _ => k))
  (at level 100, right associativity) : monad_scope.
Open Scope monad_scope.

Definition raise {A} (e : Exn) : M A := fun w => (Raise e, w).

(** [try: body  except Exception as e: handler(e)] *)
Definition try_except {A} (body : M A) (handler : Exn -> M A) : M A :=
  fun w => match body w with
           | (Ok a, w') => (Ok a, w')
           | (Raise e, w') => handler e w'
           end.

(** [for x in xs: body(x)] *)
Fixpoint for_each {A} (xs : list A) (body : A -> M unit) : M unit :=
  match xs with
  | [] => ret tt
  | x :: rest => body x ;; for_each rest body
  end.

(** A [for] loop that updates one local variable. *)
Fixpoint for_fold {A S} (xs : list A) (s : S) (body : S -> A -> M S) : M S :=
  match xs with
  | [] => ret s
  | x :: rest => s' <- body s x ;; for_fold rest s' body
  end.

Definition emit (e : Event) : M unit :=
  fun w => (Ok tt, mkWorld (session w) (durable w) (trace w ++ [e]) (db_budget w)).

Definition log (l : Level) : M unit := emit (EvLog l).

(** One round trip to the database. *)
Definition round_trip : M unit :=
  fun w => match db_budget w with
           | None => (Ok tt, w)
           | Some O => (Raise StoreError, w)
           | Some (S n) => (Ok tt, mkWorld (session w) (durable w) (trace w) (Some n))
           end.

(** [await session.execute(select ...)] *)
Definition execute_query {A} (q : Store -> A) : M A :=
  round_trip ;; fun w => (Ok (q (session w)), w).

(** [await session.execute(text("UPDATE ..."), params)] *)
Definition execute_update (s : Stmt) : M unit :=
  round_trip ;;
  (fun w => (Ok tt, mkWorld (apply_stmt s (session w)) (durable w) (trace w) (db_budget w))) ;;
  emit (EvExec s).

(** [session.add(row)]: the row is pending in the session. *)
Definition session_update (f : Store -> Store) : M unit :=
  fun w => (Ok tt, mkWorld (f (session w)) (durable w) (trace w) (db_budget w)).

(** [await session.commit()] *)
Definition commit : M unit :=
  round_trip ;;
  (fun w => (Ok tt, mkWorld (session w) (session w)
                            (trace w ++ [EvCommit (session w)]) (db_budget w))).

(** [await session.rollback()] *)
Definition rollback : M unit :=
  fun w => (Ok tt, mkWorld (durable w) (durable w) (trace w ++ [EvRollback]) (db_budget w)).

(** [str.lower] on a text held as UTF-8 bytes.  Three kinds of character
    have a lower-case form that holds an ASCII letter: the capital letters
    A to Z; the Kelvin sign U+212A (bytes E2 84 AA), whose lower-case form
    is [k]; and the capital I with a dot U+0130 (bytes C4 B0), whose
    lower-case form is [i] followed by the combining dot U+0307 (bytes CC
    87).  Every other character is kept as it is: its lower-case form is a
    character outside ASCII again, and the code only looks for an ASCII
    word in the result. *)
Definition lower_ascii (c : ascii) : ascii :=
  let n := nat_of_ascii c in
  if ((65 <=? n) && (n <=? 90))%nat then ascii_of_nat (n + 32) else c.

Definition byte_is (n : nat) (c : ascii) : bool := (nat_of_ascii c =? n)%nat.

Fixpoint lower (s : string) : string :=
  match s with
  | EmptyString => EmptyString
  | String c rest =>
      match rest with
      | String c2 rest2 =>
          if byte_is 196 c && byte_is 176 c2
          then String "i" (String (ascii_of_nat 204) (String (ascii_of_nat 135)
                                                            (lower rest2)))
          else
            match rest2 with
            | String c3 rest3 =>
                if byte_is 226 c && byte_is 132 c2 && byte_is 170 c3
                then String "k" (lower rest3)
                else String (lower_ascii c) (lower rest)
            | EmptyString => String (lower_ascii c) (lower rest)
            end
      | EmptyString => String (lower_ascii c) EmptyString
      end
  end.

(** [needle in hay] *)
Fixpoint contains (needle hay : string) : bool :=
  if String.prefix needle hay then true
  else match hay with
       | EmptyString => false
       | String _ rest => contains needle rest
       end.

(** ["blocked" in str(e).lower()]: the recipient is unreachable. *)
Definition blocked (e : Exn) : bool := contains "blocked" (lower (exn_str e)).

Section WithEnv.

(** The environment: the Telegram side, and the clock of the database
    server ([func.now()], the default of the timestamp columns), which
    may also depend on what happened before. *)
Variable bot : Bot.
Variable db_now : list Event -> Z.

(** [await bot.send_...(...)], labelled with the unit of work. *)
Definition bot_call (o : Origin) (c : Call) : M unit :=
  fun w =>
    let r := bot (trace w) c in
    let w' := mkWorld (session w) (durable w) (trace w ++ [EvSend o c r]) (db_budget w) in
    match r with
    | Delivered => (Ok tt, w')
    | Failed msg => (Raise (TelegramError msg), w')
    end.

(** Python truthiness of a nullable string. *)
Definition truthy (s : option string) : bool :=
  match s with
  | Some v => negb (String.eqb v EmptyString)
  | None => false
  end.

(* ================================================================ *)
(** ** The dispatcher tick (crud_admin.py, send_scheduled_broadcasts) *)
(* ================================================================ *)

(** Part 1 of the tick: the loop over the due personal rows. *)
Definition personal_sweep (rows : list PersonalRow.t) : M unit :=
  for_each rows (fun row =>
    try_except
      (bot_call (Personal (PersonalRow.id row))
                (send_message (PersonalRow.tg_id row) (PersonalRow.message_text row)) ;;
       log Info)
      (fun e => if blocked e then log Warning else log Error) ;;
    execute_update (MarkScheduleSent (PersonalRow.id row))).

(** One iteration of the loop over the recipients of a broadcast. *)
Definition broadcast_attempt (b : BroadcastRow.t) (total : Z) (user_id : Z) : M Z :=
  try_except
    ((if truthy (BroadcastRow.file_id b) && truthy (BroadcastRow.file_type b)
      then bot_call (Mass (BroadcastRow.id b))
             (send_document user_id (BroadcastRow.file_id b) (Some (BroadcastRow.content b)))
      else bot_call (Mass (BroadcastRow.id b))
             (send_message user_id
                (if String.eqb (BroadcastRow.content b) EmptyString
                 then BroadcastRow.title b else BroadcastRow.content b))) ;;
     ret (total + 1))
    (fun e => (if negb (blocked e) then log Error else ret tt) ;; ret total).

(** Part 2 of the tick, for the selected broadcast. *)
Definition broadcast_sweep (now : Z) (b : BroadcastRow.t) : M unit :=
  log Info ;;
  execute_update (MarkBroadcastSending (BroadcastRow.id b)) ;;
  commit ;;
  users <- execute_query users_query ;;
  total <- for_fold users 0 (broadcast_attempt b) ;;
  execute_update (MarkBroadcastSent (BroadcastRow.id b) total now) ;;
  log Info.

(** [send_scheduled_broadcasts(session, bot)], with
    [now = datetime.now(ZoneInfo("Asia/Almaty")).replace(tzinfo=None)]. *)
Definition send_scheduled_broadcasts (now : Z) : M unit :=
  log Info ;;
  rows <- execute_query (query_personal now) ;;
  personal_sweep rows ;;
  broadcast <- execute_query (query_broadcast now) ;;
  match broadcast with
  | Some b => broadcast_sweep now b
  | None => ret tt
  end ;;
  if match rows with [] => false | _ => true end
     || match broadcast with Some _ => true | None => false end
  then commit
  else ret tt.

(** Successive ticks of the loop of run.py, one per element of [nows]. *)
Fixpoint run_ticks (nows : list Z) : M unit :=
  match nows with
  | [] => ret tt
  | now :: later => send_scheduled_broadcasts now ;; run_ticks later
  end.

(* ================================================================ *)
(** ** Immediate broadcasts (crud_admin.py, send_broadcast_now)       *)
(* ================================================================ *)

(** [select(User).options(joinedload(User.lead_source))].  The query has
    no ORDER BY: the rows come in an order of the database's choosing,
    here the order of the list. *)
Definition get_all_users (db : Store) : list User.t := user db.

(** [select(User).join(LeadSource).where(LeadSource.id == lead_source_id)] *)
Definition get_users_by_lead_source (lead_source_id : Z) (db : Store) : list User.t :=
  flat_map (fun u =>
    flat_map (fun l =>
      if match User.lead_source_id u with
         | Some i => i =? LeadSource.id l
         | None => false
         end && (LeadSource.id l =? lead_source_id)
      then [u] else []) (lead_source db)) (user db).

(** [await session.get(Broadcast, broadcast_id)] *)
Definition get_broadcast (broadcast_id : Z) (db : Store) : option Broadcast.t :=
  find (fun b => Broadcast.id b =? broadcast_id) (broadcast db).

(** The ORM writes [status], [is_sent] and [sent_count]; the flush also
    fires [onupdate=func.now()] of the column [updated]. *)
Definition orm_mark_sent (broadcast_id sent_count : Z) : M unit :=
  fun w =>
    session_update (fun db =>
      with_broadcast
        (update_where (fun b => Broadcast.id b =? broadcast_id)
           (Broadcast.finalize sent_count (db_now (trace w))) (broadcast db)) db) w.

Definition immediate_attempt (b : Broadcast.t) (sent_count : Z) (u : User.t) : M Z :=
  try_except
    (match Broadcast.file_type b with
     | Some ft =>
         if String.eqb ft "text"
         then bot_call (Mass (Broadcast.id b)) (send_message (User.user_id u) (Broadcast.content b))
         else if String.eqb ft "image"
         then bot_call (Mass (Broadcast.id b)) (send_photo (User.user_id u) (Broadcast.file_id b))
         else if String.eqb ft "file"
         then bot_call (Mass (Broadcast.id b)) (send_document (User.user_id u) (Broadcast.file_id b) None)
         else if String.eqb ft "video"
         then bot_call (Mass (Broadcast.id b)) (send_video (User.user_id u) (Broadcast.file_id b))
         else ret tt
     | None => ret tt
     end ;;
     log Info ;;
     ret (sent_count + 1))
    (fun e => log Error ;; ret sent_count).

Definition send_broadcast_now (broadcast_id : Z) : M unit :=
  found <- execute_query (get_broadcast broadcast_id) ;;
  match found with
  | None => ret tt
  | Some b =>
      users <- match Broadcast.target_lead_id b with
               | Some lead => if lead =? 0
                              then execute_query get_all_users
                              else execute_query (get_users_by_lead_source lead)
               | None => execute_query get_all_users
               end ;;
      sent_count <- for_fold users 0 (immediate_attempt b) ;;
      orm_mark_sent broadcast_id sent_count ;;
      commit ;;
      orm_mark_sent broadcast_id sent_count ;;
      commit ;;
      log Info
  end.

(* ================================================================ *)
(** ** Contacts (crud_user.py)                                        *)
(* ================================================================ *)

(** [result.scalar_one_or_none()] *)
Definition scalar_one_or_none {A} (rows : list A) : M (option A) :=
  match rows with
  | [] => ret None
  | [r] => ret (Some r)
  | _ => raise MultipleResultsFound
  end.

(** [select(User).where(User.user_id == user_id)] *)
Definition select_user (user_id : Z) (db : Store) : list User.t :=
  filter (fun u => User.user_id u =? user_id) (user db).

Definition get_user_by_id (user_id : Z) : M (option User.t) :=
  rows <- execute_query (select_user user_id) ;;
  scalar_one_or_none rows.

(** [session.add(User(...))]: the key is the next one of the sequence,
    the timestamps take their server default.  The INSERT is the one of a
    call whose arguments the schema takes (a Telegram id within BIGINT,
    texts within their columns, a lead source that exists or none); C10
    below is about the calls that find the row and insert nothing. *)
Definition add_user (user_id : Z) (username first_name last_name phone : option string)
    (lead_source_id : option Z) : M User.t :=
  rows <- execute_query (select_user user_id) ;;
  found <- scalar_one_or_none rows ;;
  match found with
  | Some u => ret u
  | None =>
      fun w =>
        let t := db_now (trace w) in
        let new_user :=
          User.mk (next_id (map User.id (user (session w)))) user_id username
                  first_name last_name phone lead_source_id t t t in
        (session_update (fun db => with_user (user db ++ [new_user]) db) ;;
         commit ;;
         round_trip ;;                 (* session.refresh(new_user) *)
         ret new_user) w
  end.

(* ================================================================ *)
(** ** Personal schedule entries (crud_admin.py, add_message_schedule) *)
(* ================================================================ *)

(** [json.dumps({"text": .., "file_id": .., "file_type": ..},
    ensure_ascii=False)], a function of the standard library. *)
Variable json_dumps : string -> string -> string -> string.

(** [add_message_schedule(...)].  The column [user_id] is a foreign key to
    [user.id]: the flush of a row for a key that no contact has fails with
    an IntegrityError, a database error, and inserts nothing. *)
Definition add_message_schedule (user_id : Z) (message_text : string)
    (scheduled_at : Z) (file_id file_type : option string) : M MessageSchedule.t :=
  let send_time := scheduled_at in      (* .replace(tzinfo=None) *)
  let payload :=
    match file_id, file_type with
    | Some f, Some k =>
        if negb (String.eqb f EmptyString) && negb (String.eqb k EmptyString)
        then json_dumps message_text f k else message_text
    | _, _ => message_text
    end in
  fun w =>
    let t := db_now (trace w) in
    let schedule :=
      MessageSchedule.mk (next_id (map MessageSchedule.id (message_schedule (session w))))
                         user_id payload send_time false t t in
    (session_update (fun db =>
       with_message_schedule (message_schedule db ++ [schedule]) db) ;;
     (if existsb (fun u => User.id u =? user_id) (user (session w))
      then commit
      else round_trip ;; raise StoreError) ;;
     round_trip ;;                     (* session.refresh(schedule) *)
     ret schedule) w.

(* ================================================================ *)
(** ** Enrolment in the lead-magnet funnel (handlers/lead_magnet.py)  *)
(* ================================================================ *)

(** The bodies of the three HTML messages of [LEAD_MAGNET_TEXTS]. *)
Variables welcome_text reminder_text feedback_thanks_text : string.

Definition LEAD_MAGNET_TEXTS : list (string * string) :=
  [ ("welcome"%string, welcome_text);
    ("reminder"%string, reminder_text);
    ("feedback_thanks"%string, feedback_thanks_text) ].

(** [d.get(key, default)] *)
Fixpoint dict_get (d : list (string * string)) (key default : string) : string :=
  match d with
  | [] => default
  | (k, v) :: rest => if String.eqb k key then v else dict_get rest key default
  end.

(** [schedule_lead_magnet_messages(session, user, state)], with
    [now = datetime.now(ALMATY_TZ)].  It returns [None] on both paths. *)
Definition schedule_lead_magnet_messages (now : Z) (u : User.t) : M unit :=
  try_except
    (let lesson_time := now + Clock.timedelta 0 1 in
     let reminder_time := now + Clock.timedelta 2 0 in
     let reminders := [ (lesson_time, "welcome"%string);
                        (reminder_time, "reminder"%string) ] in
     for_each reminders (fun '(scheduled_at, text_key) =>
       if scheduled_at >? now
       then
         let text := dict_get LEAD_MAGNET_TEXTS text_key
                       ("[ОШИБКА: нет текста " ++ text_key ++ "]")%string in
         add_message_schedule (User.id u) text scheduled_at None None ;; ret tt
       else ret tt) ;;
     commit ;;
     log Info)
    (fun e => rollback ;; log Error).

End WithEnv.

(* ================================================================== *)
(** * Vocabulary of the statements                                      *)
(* ================================================================== *)

(** What a run of the dispatcher is expected to leave in the trace and in
    the store, as pure functions; the lemmas below relate them to the
    monadic code. *)

Definition origin_eqb (a b : Origin) : bool :=
  match a, b with
  | Personal i, Personal j => i =? j
  | Mass i, Mass j => i =? j
  | _, _ => false
  end.

(** The number of delivery attempts made for one unit of work. *)
Fixpoint attempts (o : Origin) (evs : list Event) : nat :=
  match evs with
  | [] => O
  | EvSend o' _ _ :: rest =>
      if origin_eqb o o' then S (attempts o rest) else attempts o rest
  | _ :: rest => attempts o rest
  end.

(** Attempts of a unit of work that were delivered, that failed with a
    "blocked" (recipient unreachable) error, that failed otherwise. *)
Fixpoint deliveries (o : Origin) (evs : list Event) : nat :=
  match evs with
  | [] => O
  | EvSend o' _ Delivered :: rest =>
      if origin_eqb o o' then S (deliveries o rest) else deliveries o rest
  | _ :: rest => deliveries o rest
  end.

Fixpoint unreachable (o : Origin) (evs : list Event) : nat :=
  match evs with
  | [] => O
  | EvSend o' _ (Failed msg) :: rest =>
      if origin_eqb o o' && blocked (TelegramError msg)
      then S (unreachable o rest) else unreachable o rest
  | _ :: rest => unreachable o rest
  end.

Fixpoint other_failures (o : Origin) (evs : list Event) : nat :=
  match evs with
  | [] => O
  | EvSend o' _ (Failed msg) :: rest =>
      if origin_eqb o o' && negb (blocked (TelegramError msg))
      then S (other_failures o rest) else other_failures o rest
  | _ :: rest => other_failures o rest
  end.

Definition is_send (e : Event) : bool :=
  match e with EvSend _ _ _ => true | _ => false end.

Definition is_mass_send (e : Event) : bool :=
  match e with EvSend (Mass _) _ _ => true | _ => false end.

(** An event that writes to the database. *)
Definition is_write (e : Event) : bool :=
  match e with EvExec _ | EvCommit _ => true | _ => false end.

(** The recipients of the delivery attempts of a broadcast, in order. *)
Fixpoint recipients (o : Origin) (evs : list Event) : list Z :=
  match evs with
  | [] => []
  | EvSend o' c _ :: rest =>
      if origin_eqb o o' then chat_of c :: recipients o rest else recipients o rest
  | _ :: rest => recipients o rest
  end.

Definition outcome_level (r : Outcome) : Level :=
  match r with
  | Delivered => Info
  | Failed msg => if blocked (TelegramError msg) then Warning else Error
  end.

Definition personal_call (row : PersonalRow.t) : Call :=
  send_message (PersonalRow.tg_id row) (PersonalRow.message_text row).

(** The three events of one iteration of the personal loop. *)
Definition personal_group (bot : Bot) (t : list Event) (row : PersonalRow.t) : list Event :=
  let r := bot t (personal_call row) in
  [ EvSend (Personal (PersonalRow.id row)) (personal_call row) r;
    EvLog (outcome_level r);
    EvExec (MarkScheduleSent (PersonalRow.id row)) ].

Fixpoint personal_events (bot : Bot) (rows : list PersonalRow.t) (t : list Event)
    : list Event :=
  match rows with
  | [] => []
  | row :: rest =>
      personal_group bot t row ++ personal_events bot rest (t ++ personal_group bot t row)
  end.

Definition sweep_store (rows : list PersonalRow.t) (db : Store) : Store :=
  fold_left (fun acc row => apply_stmt (MarkScheduleSent (PersonalRow.id row)) acc) rows db.

Definition mass_call (b : BroadcastRow.t) (user_id : Z) : Call :=
  if truthy (BroadcastRow.file_id b) && truthy (BroadcastRow.file_type b)
  then send_document user_id (BroadcastRow.file_id b) (Some (BroadcastRow.content b))
  else send_message user_id
         (if String.eqb (BroadcastRow.content b) EmptyString
          then BroadcastRow.title b else BroadcastRow.content b).

(** The events of one iteration of the loop over the recipients. *)
Definition mass_group (bot : Bot) (b : BroadcastRow.t) (t : list Event) (user_id : Z)
    : list Event :=
  let r := bot t (mass_call b user_id) in
  EvSend (Mass (BroadcastRow.id b)) (mass_call b user_id) r ::
  match r with
  | Delivered => []
  | Failed msg => if negb (blocked (TelegramError msg)) then [EvLog Error] else []
  end.

Fixpoint mass_events (bot : Bot) (b : BroadcastRow.t) (users : list Z) (t : list Event)
    : list Event :=
  match users with
  | [] => []
  | u :: rest => mass_group bot b t u ++ mass_events bot b rest (t ++ mass_group bot b t u)
  end.

(** A personal entry is marked sent in every row that carries its key. *)
Definition all_sent (i : Z) (db : Store) : Prop :=
  forall m, In m (message_schedule db) -> MessageSchedule.id m = i ->
            MessageSchedule.sent m = true.

(** The primary keys of a table are pairwise distinct. *)
Definition schedule_keys_ok (db : Store) : Prop :=
  NoDup (map MessageSchedule.id (message_schedule db)).
Definition user_keys_ok (db : Store) : Prop :=
  NoDup (map User.id (user db)).
Definition broadcast_keys_ok (db : Store) : Prop :=
  NoDup (map Broadcast.id (broadcast db)).

(** The events appended to the trace by a computation started in [w]. *)
Definition new_events (w w' : World) : list Event :=
  skipn (List.length (trace w)) (trace w').

(** The personal row list marks the entry [m]. *)
Definition marked (rows : list PersonalRow.t) (m : MessageSchedule.t) : bool :=
  existsb (fun row => MessageSchedule.id m =? PersonalRow.id row) rows.

(** The events of a tick started with session store [s] and trace [t]:
    the personal part; for a selected job [b], the head up to the commit
    of 'sending', the delivery attempts, and the tail from the final
    UPDATE on. *)
Definition tick_personal (bot : Bot) (now : Z) (s : Store) (t : list Event) : list Event :=
  EvLog Info :: personal_events bot (query_personal now s) (t ++ [EvLog Info]).

Definition sending_store (now : Z) (s : Store) (b : BroadcastRow.t) : Store :=
  apply_stmt (MarkBroadcastSending (BroadcastRow.id b))
             (sweep_store (query_personal now s) s).

Definition tick_head (bot : Bot) (now : Z) (s : Store) (t : list Event)
    (b : BroadcastRow.t) : list Event :=
  tick_personal bot now s t ++
  [ EvLog Info; EvExec (MarkBroadcastSending (BroadcastRow.id b));
    EvCommit (sending_store now s b) ].

Definition tick_mass (bot : Bot) (now : Z) (s : Store) (t : list Event)
    (b : BroadcastRow.t) : list Event :=
  mass_events bot b (users_query s) (t ++ tick_head bot now s t b).

Definition tick_total (bot : Bot) (now : Z) (s : Store) (t : list Event)
    (b : BroadcastRow.t) : Z :=
  Z.of_nat (deliveries (Mass (BroadcastRow.id b)) (tick_mass bot now s t b)).

Definition sent_store (bot : Bot) (now : Z) (s : Store) (t : list Event)
    (b : BroadcastRow.t) : Store :=
  apply_stmt (MarkBroadcastSent (BroadcastRow.id b) (tick_total bot now s t b) now)
             (sending_store now s b).

Definition tick_tail (bot : Bot) (now : Z) (s : Store) (t : list Event)
    (b : BroadcastRow.t) : list Event :=
  [ EvExec (MarkBroadcastSent (BroadcastRow.id b) (tick_total bot now s t b) now);
    EvLog Info;
    EvCommit (sent_store bot now s t b) ].

(** The claim that the broadcast query prefers the earliest due job:
    no due row of the table is due before the selected one. *)
Definition earliest_due_first (now : Z) (db : Store) : Prop :=
  forall job other due_job due_other,
    find (broadcast_due now) (broadcast db) = Some job ->
    In other (broadcast db) -> broadcast_due now other = true ->
    Broadcast.scheduled_at job = Some due_job ->
    Broadcast.scheduled_at other = Some due_other ->
    due_job <= due_other.

(** An event that neither writes to the database nor calls Telegram. *)
Definition is_quiet (e : Event) : bool := negb (is_write e) && negb (is_send e).

(** The session store, the committed store and the new events at the end
    of a tick started with session [s], committed store [d] and trace [t]. *)
Definition tick_session (bot : Bot) (now : Z) (s : Store) (t : list Event) : Store :=
  match query_broadcast now s with
  | Some b => sent_store bot now s t b
  | None => sweep_store (query_personal now s) s
  end.

Definition tick_durable (bot : Bot) (now : Z) (s d : Store) (t : list Event) : Store :=
  match query_broadcast now s, query_personal now s with
  | None, [] => d
  | _, _ => tick_session bot now s t
  end.

Definition tick_events (bot : Bot) (now : Z) (s : Store) (t : list Event) : list Event :=
  match query_broadcast now s with
  | Some b => tick_head bot now s t b ++ tick_mass bot now s t b ++ tick_tail bot now s t b
  | None =>
      match query_personal now s with
      | [] => tick_personal bot now s t
      | _ :: _ => tick_personal bot now s t
                    ++ [EvCommit (sweep_store (query_personal now s) s)]
      end
  end.

(** The rows of the broadcast table that carry the key [i]. *)
Definition rows_of (i : Z) (db : Store) : list Broadcast.t :=
  filter (fun x => Broadcast.id x =? i) (broadcast db).

(** An event that leaves the broadcast table and the committed database
    alone. *)
Definition spares_broadcast (e : Event) : bool :=
  match e with
  | EvExec (MarkBroadcastSending _) | EvExec (MarkBroadcastSent _ _ _) | EvCommit _ => false
  | _ => true
  end.

(** The rows that the join of [query_personal] yields for one entry. *)
Definition joined (db : Store) (m : MessageSchedule.t) : list PersonalRow.t :=
  flat_map (fun u =>
    if User.id u =? MessageSchedule.user_id m
    then [PersonalRow.mk (MessageSchedule.id m)
            (MessageSchedule.message_text m) (User.user_id u)]
    else []) (user db).

(** The personal rows of a tick that belong to the entry with key [i]. *)
Definition rows_with (i : Z) (rows : list PersonalRow.t) : list PersonalRow.t :=
  filter (fun row => PersonalRow.id row =? i) rows.

(** The due times of the rows that a computation added to the committed
    table message_schedule. *)
Definition added_due_times (w w' : World) : list Z :=
  map MessageSchedule.send_time
      (skipn (List.length (message_schedule (durable w)))
             (message_schedule (durable w'))).

(** The [except] branch of the enrolment ran. *)
Definition enrolment_failed (w w' : World) : Prop :=
  In EvRollback (new_events w w').

(** The claim that an enrolment is all or nothing and that its failure is
    reported: after a failure no entry has been added to the committed
    table and the caller does not get the result of a success. *)
Definition all_or_nothing_and_reported (r : Result unit) (w w' : World) : Prop :=
  enrolment_failed w w' ->
  message_schedule (durable w') = message_schedule (durable w) /\ r <> Ok tt.

(* ================================================================== *)
(** * Concrete stores used by the examples                              *)
(* ================================================================== *)

Module Fixtures.

Definition t0 : Z := Clock.datetime 2025 11 5 9 0.

Definition challenge : LeadSource.t := LeadSource.mk 1 "challenge" None 0 0.
Definition webinar : LeadSource.t := LeadSource.mk 2 "webinar" None 0 0.

(** Three contacts: two in the segment "challenge", one in "webinar". *)
Definition alice : User.t := User.mk 1 1001 (Some "alice"%string) None None None (Some 1) 0 0 0.
Definition boris : User.t := User.mk 2 1002 (Some "boris"%string) None None None (Some 1) 0 0 0.
Definition clara : User.t := User.mk 3 1003 (Some "clara"%string) None None None (Some 2) 0 0 0.

(** The Telegram side: contact 1002 has blocked the bot. *)
Definition bot : Bot :=
  fun _ c => if chat_of c =? 1002
             then Failed "Forbidden: bot was blocked by the user"
             else Delivered.

Definition db_now : list Event -> Z := fun _ => t0.

Definition reminder : MessageSchedule.t :=
  MessageSchedule.mk 1 2 "hello" (t0 - Clock.minute) false 0 0.

(** A text broadcast for the segment "challenge", due at [t0]. *)
Definition job : Broadcast.t :=
  Broadcast.mk 1 "news" "text of the news" None (Some "text"%string) 0 (Some t0)
               false (Some "pending"%string) None 0 (Some 1) 0 0.

(** A second job, listed after [job] but due one hour earlier. *)
Definition early_job : Broadcast.t :=
  Broadcast.mk 2 "early" "earlier text" None (Some "text"%string) 0
               (Some (t0 - Clock.hour))
               false (Some "pending"%string) None 0 None 0 0.

Definition fresh (db : Store) : World := mkWorld db db [] None.

Definition db_personal : Store :=
  mkStore [challenge; webinar] [alice; boris; clara] [reminder] [].

Definition db_job : Store :=
  mkStore [challenge; webinar] [alice; boris; clara] [] [job].

Definition db_two_jobs : Store :=
  mkStore [challenge; webinar] [alice; boris; clara] [] [job; early_job].

(** The same store with a database that fails at its third round trip. *)
Definition flaky (db : Store) : World := mkWorld db db [] (Some 2%nat).

Definition no_json : string -> string -> string -> string := fun _ _ _ => EmptyString.

Definition db_idle : Store :=
  mkStore [challenge; webinar] [alice; boris; clara]
          [MessageSchedule.set_sent true reminder]
          [Broadcast.finalize 2 t0 job].

End Fixtures.
Import Fixtures.

(* ================================================================== *)
(** * Further code of the repository                                    *)
(* ================================================================== *)

From Stdlib Require Import Sorted Permutation.

(* ------------------------------------------------------------------ *)
(** ** Pagination and name validation (app/utils/paginator.py)          *)
(* ------------------------------------------------------------------ *)

(** A bound of Python's [items[start:stop]]: a negative bound counts from
    the end of the list, and every bound is clamped to the list. *)
Definition slice_bound (len i : Z) : Z :=
  if i <? 0 then Z.max 0 (i + len) else Z.min i len.

(** [items[start:stop]] *)
Definition slice {A} (items : list A) (start stop : Z) : list A :=
  let len := Z.of_nat (List.length items) in
  let lo := slice_bound len start in
  let hi := slice_bound len stop in
  firstn (Z.to_nat (hi - lo)) (skipn (Z.to_nat lo) items).

(** The dictionary returned by [paginate]. *)
Module Page.
Record t (A : Type) := mk {
  items : list A;
  page : Z;
  pages : Z;
  has_next : bool;
  has_prev : bool }.
Arguments mk {A} _ _ _ _ _.
Arguments items {A} _.
Arguments page {A} _.
Arguments pages {A} _.
Arguments has_next {A} _.
Arguments has_prev {A} _.
End Page.

(** [paginate(items, page, per_page)]; [None] stands for the
    ZeroDivisionError of [// per_page].  Python's [//] is the floor
    division, as is [/] on [Z]. *)
Definition paginate {A} (items : list A) (page per_page : Z) : option (Page.t A) :=
  if per_page =? 0 then None
  else
    let total_pages := (Z.of_nat (List.length items) + per_page - 1) / per_page in
    let start := (page - 1) * per_page in
    let stop := start + per_page in
    Some (Page.mk (slice items start stop) page total_pages
                  (page <? total_pages) (1 <? page)).

(** A name is the list of its Unicode code points.  The character class
    [[a-zA-Zа-яА-ЯёЁ0-9_-]]. *)
Definition lead_name_char (c : Z) : bool :=
  ((97 <=? c) && (c <=? 122)) || ((65 <=? c) && (c <=? 90))
  || ((1072 <=? c) && (c <=? 1103)) || ((1040 <=? c) && (c <=? 1071))
  || (c =? 1105) || (c =? 1025)
  || ((48 <=? c) && (c <=? 57)) || (c =? 95) || (c =? 45).

(** [re.match(r"^[...]+$", name)]: one or more characters of the class up
    to the end of the string; without re.MULTILINE, [$] also matches just
    before a line feed that ends the string. *)
Fixpoint lead_name_match (name : list Z) : bool :=
  match name with
  | [] => false
  | c :: rest =>
      lead_name_char c &&
      match rest with
      | [] => true
      | [10] => true
      | _ => lead_name_match rest
      end
  end.

(** [validate_lead_name(name)] *)
Definition validate_lead_name (name : list Z) : bool :=
  (3 <=? Z.of_nat (List.length name)) && (Z.of_nat (List.length name) <=? 50)
  && lead_name_match name.

(* ------------------------------------------------------------------ *)
(** ** The scheduler loop (run.py, scheduled_broadcast)                 *)
(* ------------------------------------------------------------------ *)

(** [now.replace(second=0, microsecond=0) + timedelta(minutes=1)] *)
Definition next_check (now : Z) : Z :=
  now - now mod Clock.minute + Clock.timedelta 0 1.

(** [(next_check - now).total_seconds()], in microseconds. *)
Definition sleep_time (now : Z) : Z := next_check now - now.

(** [async with async_session_maker() as session]: a new session sees the
    committed database; leaving the block closes the session, which drops
    what it had not committed, also when the block raises. *)
Definition open_session : M unit :=
  fun w => (Ok tt, mkWorld (durable w) (durable w) (trace w) (db_budget w)).

Definition with_session {A} (body : M A) : M A :=
  open_session ;;
  fun w => let '(r, w') := body w in
           (r, mkWorld (durable w') (durable w') (trace w') (db_budget w')).

(** One iteration of the [while True] loop, once its sleep is over:
    [try: async with ... : await send_scheduled_broadcasts(session, bot)
     except Exception as e: logger.error(...)]. *)
Definition scheduled_broadcast_iteration (bot : Bot) (now : Z) : M unit :=
  try_except (with_session (send_scheduled_broadcasts bot now))
             (fun e => log Error).

(* ------------------------------------------------------------------ *)
(** ** Read-only helpers of crud_user.py                                *)
(* ------------------------------------------------------------------ *)

Module CrudUser.

(** [select(User.registered_at).where(User.user_id == tg_user_id)] *)
Definition get_user_registered_at (tg_user_id : Z) : M (option Z) :=
  rows <- execute_query (fun db =>
            map User.registered_at
                (filter (fun u => User.user_id u =? tg_user_id) (user db))) ;;
  scalar_one_or_none rows.

(** [select(MessageSchedule.message_text)
     .where(MessageSchedule.user_id == tg_user_id)] *)
Definition get_message_text (tg_user_id : Z) : M (option string) :=
  rows <- execute_query (fun db =>
            map MessageSchedule.message_text
                (filter (fun m => MessageSchedule.user_id m =? tg_user_id)
                        (message_schedule db))) ;;
  scalar_one_or_none rows.

(** [select(User).where(User.lead_source_id == lead_source_id)] *)
Definition get_users_by_lead_source (lead_source_id : Z) (db : Store) : list User.t :=
  filter (fun u => match User.lead_source_id u with
                   | Some i => i =? lead_source_id
                   | None => false
                   end) (user db).

End CrudUser.

(* ------------------------------------------------------------------ *)
(** ** The other helpers of crud_admin.py                               *)
(* ------------------------------------------------------------------ *)

Definition with_lead_source (ls : list LeadSource.t) (db : Store) : Store :=
  mkStore ls (user db) (message_schedule db) (broadcast db).

(** [await session.execute(update(...) | delete(...))] *)
Definition execute_dml (f : Store -> Store) : M unit :=
  round_trip ;; session_update f.

(** [delete(LeadSource).where(LeadSource.id == lead_id)], with the
    [ondelete="SET NULL"] of [user.lead_source_id] and of
    [broadcast.target_lead_id]. *)
Definition references (lead_id : Z) (ref : option Z) : bool :=
  match ref with
  | Some i => i =? lead_id
  | None => false
  end.

Definition clear_user_lead (u : User.t) : User.t :=
  User.mk (User.id u) (User.user_id u) (User.username u) (User.first_name u)
          (User.last_name u) (User.phone u) None (User.registered_at u)
          (User.created u) (User.updated u).

Definition clear_broadcast_target (b : Broadcast.t) : Broadcast.t :=
  Broadcast.mk (Broadcast.id b) (Broadcast.title b) (Broadcast.content b)
    (Broadcast.file_path b) (Broadcast.file_type b) (Broadcast.created_at b)
    (Broadcast.scheduled_at b) (Broadcast.is_sent b) (Broadcast.status b)
    (Broadcast.file_id b) (Broadcast.sent_count b) None
    (Broadcast.created b) (Broadcast.updated b).

Definition delete_lead_rows (lead_id : Z) (db : Store) : Store :=
  if existsb (fun l => LeadSource.id l =? lead_id) (lead_source db)
  then mkStore
         (filter (fun l => negb (LeadSource.id l =? lead_id)) (lead_source db))
         (update_where (fun u => references lead_id (User.lead_source_id u))
                       clear_user_lead (user db))
         (message_schedule db)
         (update_where (fun b => references lead_id (Broadcast.target_lead_id b))
                       clear_broadcast_target (broadcast db))
  else db.

(** [delete(User).where(User.user_id == user_tg_id)], with the
    [ondelete="CASCADE"] of [message_schedule.user_id]. *)
Definition delete_user_rows (user_tg_id : Z) (db : Store) : Store :=
  let gone := map User.id (filter (fun u => User.user_id u =? user_tg_id) (user db)) in
  mkStore (lead_source db)
          (filter (fun u => negb (User.user_id u =? user_tg_id)) (user db))
          (filter (fun m => negb (existsb (fun i => MessageSchedule.user_id m =? i) gone))
                  (message_schedule db))
          (broadcast db).

(** [ORDER BY message_schedule.send_time]; rows with equal times keep their
    scan order. *)
Fixpoint insert_by_send_time (m : MessageSchedule.t) (sorted : list MessageSchedule.t)
    : list MessageSchedule.t :=
  match sorted with
  | [] => [m]
  | x :: rest =>
      if MessageSchedule.send_time m <? MessageSchedule.send_time x
      then m :: x :: rest
      else x :: insert_by_send_time m rest
  end.

Definition order_by_send_time (rows : list MessageSchedule.t) : list MessageSchedule.t :=
  fold_left (fun acc m => insert_by_send_time m acc) rows [].

(** [session.get(LeadSource, ident)]; a null key loads nothing. *)
Definition get_lead_source (ident : option Z) (db : Store) : option LeadSource.t :=
  match ident with
  | Some i => find (fun l => LeadSource.id l =? i) (lead_source db)
  | None => None
  end.

(** The length in characters of a text held as UTF-8 bytes: the bytes
    [10xxxxxx] continue a character. *)
Definition utf8_length (s : string) : nat :=
  List.length
    (filter (fun c => negb ((128 <=? nat_of_ascii c) && (nat_of_ascii c <? 192))%nat)
            (list_ascii_of_string s)).

Definition fits (n : nat) (s : string) : bool := (utf8_length s <=? n)%nat.

Definition is_continuation (c : ascii) : bool :=
  ((128 <=? nat_of_ascii c) && (nat_of_ascii c <? 192))%nat.

(** The first [n] characters of a text, and what follows them. *)
Fixpoint utf8_take (n : nat) (s : string) : string :=
  match s with
  | EmptyString => EmptyString
  | String c rest =>
      if is_continuation c then String c (utf8_take n rest)
      else match n with
           | O => EmptyString
           | S m => String c (utf8_take m rest)
           end
  end.

Fixpoint utf8_drop (n : nat) (s : string) : string :=
  match s with
  | EmptyString => EmptyString
  | String c rest =>
      if is_continuation c then utf8_drop n rest
      else match n with
           | O => s
           | S m => utf8_drop m rest
           end
  end.

(** What a column [String(n)] stores for a text: the text itself when it
    has at most [n] characters; its first [n] characters when the excess
    consists of blanks only, which PostgreSQL cuts off without a word; and
    nothing, the INSERT failing with a database error, when the excess
    holds any other character. *)
Definition column_text (n : nat) (s : string) : option string :=
  if forallb (byte_is 32) (list_ascii_of_string (utf8_drop n s))
  then Some (utf8_take n s) else None.

(** The values of a BIGINT column or parameter; the database driver
    refuses any other integer. *)
Definition in_bigint (z : Z) : Prop := - 2 ^ 63 <= z < 2 ^ 63.

(** The foreign key of a nullable reference to lead_source.id. *)
Definition lead_exists (ref : option Z) (db : Store) : bool :=
  match ref with
  | Some i => existsb (fun l => LeadSource.id l =? i) (lead_source db)
  | None => true
  end.

Section Crud.

Variable db_now : list Event -> Z.

(** [create_empty_lead_source(session, name)].  The column [name] is a
    unique [String(50)]: the flush fails with a database error when the
    column does not take the name, or when the name it would store is in
    use.  The row returned is the row as the refresh reads it back, with
    the stored name. *)
Definition create_empty_lead_source (name : string) : M LeadSource.t :=
  fun w =>
    let t := db_now (trace w) in
    let stored := column_text 50 name in
    let lead := LeadSource.mk (next_id (map LeadSource.id (lead_source (session w))))
                              (match stored with Some v => v | None => name end)
                              None t t in
    let taken := existsb (fun l => String.eqb (LeadSource.name l) (LeadSource.name lead))
                         (lead_source (session w)) in
    (session_update (fun db => with_lead_source (lead_source db ++ [lead]) db) ;;
     (match stored with
      | Some _ => if taken then round_trip ;; raise StoreError else commit
      | None => round_trip ;; raise StoreError
      end) ;;
     round_trip ;;                       (* session.refresh(lead) *)
     ret lead) w.

Definition get_lead_sources : M (list LeadSource.t) :=
  execute_query lead_source.

Definition delete_lead_source (lead_id : Z) : M unit :=
  execute_dml (delete_lead_rows lead_id) ;; commit.

Definition delete_user (user_tg_id : Z) : M unit :=
  execute_dml (delete_user_rows user_tg_id) ;; commit.

Definition get_pending_messages : M (list MessageSchedule.t) :=
  execute_query (fun db =>
    order_by_send_time
      (filter (fun m => negb (MessageSchedule.sent m)) (message_schedule db))).

(** [update(MessageSchedule).where(id == message_id).values(sent=True)];
    the statement also fires [onupdate=func.now()] of [updated]. *)
Definition mark_message_as_sent (message_id : Z) : M unit :=
  (fun w =>
     execute_dml (fun db =>
       with_message_schedule
         (update_where (fun m => MessageSchedule.id m =? message_id)
            (fun m => MessageSchedule.mk (MessageSchedule.id m) (MessageSchedule.user_id m)
                        (MessageSchedule.message_text m) (MessageSchedule.send_time m)
                        true (MessageSchedule.created m) (db_now (trace w)))
            (message_schedule db)) db) w) ;;
  commit.

Definition delete_message_schedule (message_id : Z) : M unit :=
  execute_dml (fun db =>
    with_message_schedule
      (filter (fun m => negb (MessageSchedule.id m =? message_id)) (message_schedule db))
      db) ;;
  commit.

(** [add_broadcast(...)]; [created_at] is [datetime.now()] of the bot's
    process.  The column [title] is a [String(100)] and [target_lead_id]
    is a foreign key: the flush of a row that breaks either fails with a
    database error.  The row returned is the row as the refresh reads it
    back, with the stored title. *)
Definition add_broadcast (created_at : Z) (title content : string)
    (file_id file_type : option string) (scheduled_at : option Z)
    (lead_source_id : option Z) : M Broadcast.t :=
  fun w =>
    let t := db_now (trace w) in
    let stored := column_text 100 title in
    let b := Broadcast.mk (next_id (map Broadcast.id (broadcast (session w))))
               (match stored with Some v => v | None => title end)
               content None file_type created_at scheduled_at false
               (Some "pending"%string) file_id 0 lead_source_id t t in
    (session_update (fun db => with_broadcast (broadcast db ++ [b]) db) ;;
     (match stored with
      | Some _ => if lead_exists lead_source_id (session w)
                  then commit else round_trip ;; raise StoreError
      | None => round_trip ;; raise StoreError
      end) ;;
     round_trip ;;                       (* session.refresh(broadcast) *)
     ret b) w.

Definition get_unsent_broadcasts : M (list Broadcast.t) :=
  execute_query (fun db => filter (fun b => negb (Broadcast.is_sent b)) (broadcast db)).

(** [update(Broadcast).where(id == broadcast_id).values(is_sent=True)] *)
Definition mark_broadcast_as_sent (broadcast_id : Z) : M unit :=
  (fun w =>
     execute_dml (fun db =>
       with_broadcast
         (update_where (fun b => Broadcast.id b =? broadcast_id)
            (fun b => Broadcast.mk (Broadcast.id b) (Broadcast.title b) (Broadcast.content b)
                        (Broadcast.file_path b) (Broadcast.file_type b)
                        (Broadcast.created_at b) (Broadcast.scheduled_at b) true
                        (Broadcast.status b) (Broadcast.file_id b) (Broadcast.sent_count b)
                        (Broadcast.target_lead_id b) (Broadcast.created b)
                        (db_now (trace w)))
            (broadcast db)) db) w) ;;
  commit.

Definition delete_broadcast (broadcast_id : Z) : M unit :=
  execute_dml (fun db =>
    with_broadcast
      (filter (fun b => negb (Broadcast.id b =? broadcast_id)) (broadcast db)) db) ;;
  commit.

(** [select(LeadSource).where(LeadSource.name == name)] *)
Definition select_lead_source (name : string) (db : Store) : list LeadSource.t :=
  filter (fun l => String.eqb (LeadSource.name l) name) (lead_source db).

Definition get_lead_source_by_name (name : string) : M (option LeadSource.t) :=
  rows <- execute_query (select_lead_source name) ;;
  scalar_one_or_none rows.

Definition get_lead_source_id_by_name (name : string) : M (option Z) :=
  rows <- execute_query (fun db => map LeadSource.id (select_lead_source name db)) ;;
  scalar_one_or_none rows.

(** [update(User).where(User.user_id == user_id)
     .values(lead_source_id=lead_source.id)], with [onupdate] of [updated]. *)
Definition set_user_lead (lead_id now : Z) (u : User.t) : User.t :=
  User.mk (User.id u) (User.user_id u) (User.username u) (User.first_name u)
          (User.last_name u) (User.phone u) (Some lead_id) (User.registered_at u)
          (User.created u) now.

(** [assign_user_to_lead_source(session, user_id, lead_source_name)], the
    second definition of that name in crud_admin.py, which is the one the
    module exports.  The UPDATE is the one of a call whose [user_id] is
    within BIGINT. *)
Definition assign_user_to_lead_source (user_id : Z) (lead_source_name : string) : M bool :=
  ident <- get_lead_source_id_by_name lead_source_name ;;
  found <- execute_query (get_lead_source ident) ;;
  match found with
  | None => log Error ;; ret false
  | Some lead =>
      rowcount <- (fun w =>
        (execute_dml (fun db =>
           with_user
             (update_where (fun u => User.user_id u =? user_id)
                           (set_user_lead (LeadSource.id lead) (db_now (trace w)))
                           (user db)) db) ;;
         ret (List.length (filter (fun u => User.user_id u =? user_id)
                                  (user (session w))))) w) ;;
      commit ;;
      if (0 <? rowcount)%nat
      then log Info ;; ret true
      else log Error ;; ret false
  end.

End Crud.

(* ------------------------------------------------------------------ *)
(** ** Vocabulary of the further statements                             *)
(* ------------------------------------------------------------------ *)

(** A broadcast row that the query of the dispatcher cannot select: it is
    flagged sent, or it has no scheduled time, or its status is neither
    null nor 'pending' (for instance 'sending' or 'sent'). *)
Definition settled (x : Broadcast.t) : Prop :=
  Broadcast.is_sent x = true \/
  Broadcast.scheduled_at x = None \/
  (exists st, Broadcast.status x = Some st /\ st <> "pending"%string).

(** What a tick may do to a row of message_schedule and of broadcast. *)
Definition same_or_marked (m m' : MessageSchedule.t) : Prop :=
  m' = m \/ m' = MessageSchedule.set_sent true m.

Definition same_or_finalized (b b' : Broadcast.t) : Prop :=
  b' = b \/ exists total now, b' = Broadcast.finalize total now b.

(** Every reference to a lead source points to a row of lead_source. *)
Definition lead_refs_ok (db : Store) : Prop :=
  (forall u i, In u (user db) -> User.lead_source_id u = Some i ->
               exists l, In l (lead_source db) /\ LeadSource.id l = i) /\
  (forall b i, In b (broadcast db) -> Broadcast.target_lead_id b = Some i ->
               exists l, In l (lead_source db) /\ LeadSource.id l = i).

(** Every entry of message_schedule belongs to a row of user. *)
Definition schedule_refs_ok (db : Store) : Prop :=
  forall m, In m (message_schedule db) ->
            exists u, In u (user db) /\ User.id u = MessageSchedule.user_id m.

(** The content kinds for which [send_broadcast_now] calls Telegram. *)
Definition known_kind (b : Broadcast.t) : bool :=
  match Broadcast.file_type b with
  | Some ft => String.eqb ft "text" || String.eqb ft "image"
               || String.eqb ft "file" || String.eqb ft "video"
  | None => false
  end.

(** The contacts that [send_broadcast_now] iterates over. *)
Definition immediate_audience (b : Broadcast.t) (db : Store) : list User.t :=
  match Broadcast.target_lead_id b with
  | Some lead => if lead =? 0 then get_all_users db else get_users_by_lead_source lead db
  | None => get_all_users db
  end.

(** Failed delivery attempts of a unit of work. *)
Definition failures (o : Origin) (evs : list Event) : nat :=
  (unreachable o evs + other_failures o evs)%nat.

(** Every delivery attempt of a stretch of the trace goes to one of the
    listed chats. *)
Definition sends_within (chats : list Z) (evs : list Event) : Prop :=
  Forall (fun e => match e with
                   | EvSend _ c _ => In (chat_of c) chats
                   | _ => True
                   end) evs.

Module MoreFixtures.

(** A job that an interrupted sweep left in status 'sending'. *)
Definition stuck_job : Broadcast.t :=
  Broadcast.set_status (Some "sending"%string) job.

Definition db_stuck : Store :=
  mkStore [challenge; webinar] [alice; boris; clara] [] [stuck_job].

(** A name of fifty characters. *)
Definition fifty : string := "aaaaaaaaaaaaaaaaaaaaaaaaaaaaaaaaaaaaaaaaaaaaaaaaaa".

End MoreFixtures.
Import MoreFixtures.

(* ================================================================== *)
(** * The stage resolver                                                *)
(* ================================================================== *)

Lemma get_current_stage_window (now : Z) (w : string * Z * Z) :
  In w stage_windows -> in_window w now ->
  get_current_stage now = Some (window_stage w).
Proof.
  unfold stage_windows, get_current_stage.
  intros [<- | [<- | [<- | []]]]; cbn [in_window window_stage fst]; intros [Hlo Hhi];
    change (Clock.datetime 2025 10 29 0 0) with 63897379200000000 in *;
    change (Clock.datetime 2025 11 7 0 0) with 63898156800000000 in *;
    change (Clock.datetime 2025 11 13 0 0) with 63898675200000000 in *;
    change (Clock.datetime 2025 11 14 0 0) with 63898761600000000 in *;
    change (Clock.datetime 2025 11 18 0 0) with 63899107200000000 in *;
    repeat match goal with
           | |- context [?a <=? ?b] => destruct (Z.leb_spec a b); try lia
           | |- context [?a <? ?b] => destruct (Z.ltb_spec a b); try lia
           end; reflexivity.
Qed.

Lemma get_current_stage_inv (now : Z) (s : string) :
  get_current_stage now = Some s ->
  exists w, In w stage_windows /\ in_window w now /\ window_stage w = s.
Proof.
  unfold get_current_stage, stage_windows.
  repeat match goal with
         | |- context [if ?c then _ else _] => destruct c eqn:?
         end; intros E; inversion E; subst;
    repeat match goal with
           | H : _ && _ = true |- _ => apply andb_prop in H as [? ?]
           end.
  - eexists; split; [left; reflexivity |].
    cbn. split; [lia | reflexivity].
  - eexists; split; [right; left; reflexivity |].
    cbn. split; [lia | reflexivity].
  - eexists; split; [right; right; left; reflexivity |].
    cbn. split; [lia | reflexivity].
Qed.

(** C6. [get_current_stage] is a function of the instant alone.  An
    instant in one of the three half-open windows resolves to the stage of
    that window, so two instants of one window resolve to the same stage;
    an instant in no window resolves to the empty result [None]; and a
    stage is only ever returned for an instant of its own window. *)
Theorem C6_stage_resolver :
  (forall t w, In w stage_windows -> in_window w t ->
               get_current_stage t = Some (window_stage w)) /\
  (forall t1 t2 w, In w stage_windows -> in_window w t1 -> in_window w t2 ->
                   get_current_stage t1 = get_current_stage t2) /\
  (forall t, (forall w, In w stage_windows -> ~ in_window w t) ->
             get_current_stage t = None) /\
  (forall t s, get_current_stage t = Some s ->
               exists w, In w stage_windows /\ in_window w t /\ window_stage w = s).
Proof.
  split; [exact get_current_stage_window |].
  split.
  { intros t1 t2 w Hw H1 H2.
    rewrite (get_current_stage_window t1 w Hw H1).
    symmetry. exact (get_current_stage_window t2 w Hw H2). }
  split; [| exact get_current_stage_inv].
  intros t Hnone.
  destruct (get_current_stage t) as [s |] eqn:E; [| reflexivity].
  destruct (get_current_stage_inv t s E) as (w & Hw & Hin & _).
  exfalso. exact (Hnone w Hw Hin).
Qed.

Lemma C6_stage_resolver_witness :
  get_current_stage (Clock.datetime 2025 11 1 12 0)
  = get_current_stage (Clock.datetime 2025 11 6 23 59)
  /\ get_current_stage (Clock.datetime 2025 11 13 12 0) = None.
Proof.
  split.
  - apply (proj1 (proj2 C6_stage_resolver) _ _
             ("stage1"%string, Clock.datetime 2025 10 29 0 0, Clock.datetime 2025 11 7 0 0)).
    + left; reflexivity.
    + vm_compute. split; [discriminate | reflexivity].
    + vm_compute. split; [discriminate | reflexivity].
  - apply (proj1 (proj2 (proj2 C6_stage_resolver))).
    intros w [<- | [<- | [<- | []]]]; vm_compute; intros [Hlo Hhi];
      first [ apply Hlo; reflexivity | discriminate Hhi ].
Defined.

(* ================================================================== *)
(** * Counting events                                                   *)
(* ================================================================== *)

Lemma origin_eqb_eq (a b : Origin) : origin_eqb a b = true <-> a = b.
Proof.
  destruct a, b; cbn; rewrite ?Z.eqb_eq; split; intros H;
    try discriminate; try inversion H; subst; reflexivity.
Qed.

Lemma origin_eqb_refl (a : Origin) : origin_eqb a a = true.
Proof. now apply origin_eqb_eq. Qed.

Ltac count_app :=
  let l1 := fresh "l" in
  let e := fresh "e" in
  let IH := fresh "IH" in
  intros ? l1 ?; induction l1 as [| e l1 IH]; [reflexivity |];
  destruct e as [? ? [|]| | | |]; cbn [app attempts deliveries unreachable other_failures];
  rewrite ?IH; try reflexivity;
  match goal with |- context [if ?c then _ else _] => destruct c end;
  reflexivity.

Lemma attempts_app : forall o l1 l2,
  attempts o (l1 ++ l2) = (attempts o l1 + attempts o l2)%nat.
Proof. count_app. Qed.

Lemma deliveries_app : forall o l1 l2,
  deliveries o (l1 ++ l2) = (deliveries o l1 + deliveries o l2)%nat.
Proof. count_app. Qed.

Lemma unreachable_app : forall o l1 l2,
  unreachable o (l1 ++ l2) = (unreachable o l1 + unreachable o l2)%nat.
Proof. count_app. Qed.

Lemma other_failures_app : forall o l1 l2,
  other_failures o (l1 ++ l2) = (other_failures o l1 + other_failures o l2)%nat.
Proof. count_app. Qed.

Lemma recipients_app (o : Origin) (l1 l2 : list Event) :
  recipients o (l1 ++ l2) = recipients o l1 ++ recipients o l2.
Proof.
  induction l1 as [| e l1 IH]; [reflexivity |].
  destruct e as [o' c r | | | |]; cbn; rewrite ?IH; try reflexivity.
  now destruct (origin_eqb o o').
Qed.

(** Every attempt is a delivery, an unreachable recipient or another
    failure. *)
Lemma attempts_split (o : Origin) (evs : list Event) :
  attempts o evs = (deliveries o evs + unreachable o evs + other_failures o evs)%nat.
Proof.
  induction evs as [| e evs IH]; [reflexivity |].
  destruct e as [o' c [| msg] | | | |];
    cbn [attempts deliveries unreachable other_failures]; try exact IH.
  - destruct (origin_eqb o o'); lia.
  - destruct (origin_eqb o o'), (blocked (TelegramError msg)); cbn [andb negb]; lia.
Qed.

Lemma new_events_app (s d : Store) (t evs : list Event) (b : option nat) (w : World) :
  trace w = t -> new_events w (mkWorld s d (t ++ evs) b) = evs.
Proof.
  intros <-. unfold new_events. cbn [trace].
  rewrite skipn_app, skipn_all, Nat.sub_diag. reflexivity.
Qed.

Lemma attempts_recipients (o : Origin) (evs : list Event) :
  attempts o evs = List.length (recipients o evs).
Proof.
  induction evs as [| e evs IH]; [reflexivity |].
  destruct e as [o' c r | | | |]; cbn; try exact IH.
  destruct (origin_eqb o o'); cbn; now rewrite IH.
Qed.

(** A stretch of the trace without delivery attempts for [o]. *)
Lemma no_attempts_counts (o : Origin) (evs : list Event) :
  attempts o evs = O ->
  deliveries o evs = O /\ unreachable o evs = O /\ other_failures o evs = O /\
  recipients o evs = [].
Proof.
  intros H. pose proof (attempts_split o evs) as Hs.
  repeat split; try lia.
  rewrite attempts_recipients in H. now destruct (recipients o evs).
Qed.

(** The personal loop makes no attempt for a broadcast and leaves the
    broadcast table and the committed database alone. *)
Lemma personal_events_mass (bot : Bot) (i : Z) (rows : list PersonalRow.t) (t : list Event) :
  attempts (Mass i) (personal_events bot rows t) = O /\
  forallb spares_broadcast (personal_events bot rows t) = true.
Proof.
  revert t. induction rows as [| row rest IH]; intros t; [now split |].
  cbn [personal_events]. rewrite attempts_app, forallb_app.
  destruct (IH (t ++ personal_group bot t row)) as [-> ->]. now split.
Qed.

(** The loop over the recipients makes one attempt per listed contact,
    in order, and writes nothing. *)
Lemma mass_events_recipients (bot : Bot) (b : BroadcastRow.t) (users : list Z)
    (t : list Event) :
  recipients (Mass (BroadcastRow.id b)) (mass_events bot b users t) = users /\
  forallb (fun e => negb (is_write e)) (mass_events bot b users t) = true /\
  (forall j, attempts (Personal j) (mass_events bot b users t) = O).
Proof.
  revert t. induction users as [| u rest IH]; intros t; [now repeat split |].
  cbn [mass_events]. rewrite recipients_app, forallb_app.
  destruct (IH (t ++ mass_group bot b t u)) as (-> & -> & Hp).
  unfold mass_group.
  assert (Hc : chat_of (mass_call b u) = u)
    by (unfold mass_call; now destruct (truthy _ && truthy _)).
  repeat split.
  - cbn [recipients app origin_eqb]. rewrite Z.eqb_refl, Hc.
    destruct (bot t (mass_call b u)) as [| msg]; [reflexivity |].
    now destruct (negb (blocked (TelegramError msg))).
  - destruct (bot t (mass_call b u)) as [| msg]; [reflexivity |].
    now destruct (negb (blocked (TelegramError msg))).
  - intros j. rewrite attempts_app, Hp.
    destruct (bot t (mass_call b u)) as [| msg]; [reflexivity |].
    now destruct (negb (blocked (TelegramError msg))).
Qed.

(* ================================================================== *)
(** * What the UPDATE statements do to the tables                       *)
(* ================================================================== *)

Lemma sweep_store_tables (rows : list PersonalRow.t) (db : Store) :
  lead_source (sweep_store rows db) = lead_source db /\
  user (sweep_store rows db) = user db /\
  broadcast (sweep_store rows db) = broadcast db /\
  message_schedule (sweep_store rows db)
  = map (fun m => if marked rows m then MessageSchedule.set_sent true m else m)
        (message_schedule db).
Proof.
  revert db. induction rows as [| row rest IH]; intros db.
  - cbn. repeat split. now rewrite map_id.
  - unfold sweep_store in *. cbn [fold_left].
    destruct (IH (apply_stmt (MarkScheduleSent (PersonalRow.id row)) db))
      as (Hl & Hu & Hb & Hm).
    rewrite Hl, Hu, Hb, Hm. cbn. repeat split.
    unfold update_where. rewrite map_map. apply map_ext. intros m.
    unfold marked. cbn [existsb].
    destruct (MessageSchedule.id m =? PersonalRow.id row) eqn:E; cbn.
    + destruct (existsb _ rest); reflexivity.
    + reflexivity.
Qed.

Lemma sweep_store_nil (db : Store) : sweep_store [] db = db.
Proof. reflexivity. Qed.

Lemma query_broadcast_sweep (now : Z) (rows : list PersonalRow.t) (db : Store) :
  query_broadcast now (sweep_store rows db) = query_broadcast now db.
Proof.
  unfold query_broadcast.
  now destruct (sweep_store_tables rows db) as (_ & _ & -> & _).
Qed.

Lemma broadcast_due_spec (now : Z) (b : Broadcast.t) :
  broadcast_due now b = true <->
  (exists due, Broadcast.scheduled_at b = Some due /\ due <= now) /\
  (Broadcast.status b = None \/ Broadcast.status b = Some "pending"%string) /\
  Broadcast.is_sent b = false.
Proof.
  unfold broadcast_due. rewrite !andb_true_iff, negb_true_iff.
  split.
  - intros [[Hd Hs] Hi]. repeat split; [| | exact Hi].
    + destruct (Broadcast.scheduled_at b) as [due |]; [| discriminate].
      exists due. split; [reflexivity | lia].
    + destruct (Broadcast.status b) as [st |]; [| now left].
      right. apply String.eqb_eq in Hs. now subst.
  - intros [[due [Hd Hle]] [Hs Hi]]. rewrite Hd. repeat split; [lia | | exact Hi].
    destruct Hs as [-> | ->]; reflexivity.
Qed.

(** [LIMIT 1] keeps the first due row of the table. *)
Lemma query_broadcast_first (now : Z) (db : Store) (row : BroadcastRow.t) :
  query_broadcast now db = Some row ->
  exists before job after,
    broadcast db = before ++ job :: after /\
    BroadcastRow.of_broadcast job = row /\
    broadcast_due now job = true /\
    Forall (fun b => broadcast_due now b = false) before.
Proof.
  unfold query_broadcast.
  induction (broadcast db) as [| b rest IH]; cbn; [discriminate |].
  destruct (broadcast_due now b) eqn:E.
  - intros [= <-]. exists [], b, rest. repeat split; [exact E | constructor].
  - intros H. destruct (IH H) as (before & job & after & -> & Hrow & Hdue & Hnot).
    exists (b :: before), job, after. repeat split; try assumption.
    now constructor.
Qed.

Lemma query_broadcast_none (now : Z) (db : Store) :
  query_broadcast now db = None <->
  Forall (fun b => broadcast_due now b = false) (broadcast db).
Proof.
  unfold query_broadcast.
  induction (broadcast db) as [| b rest IH]; cbn.
  - split; [constructor | reflexivity].
  - destruct (broadcast_due now b) eqn:E; cbn.
    + split; [discriminate |]. intros H. inversion H; congruence.
    + rewrite IH. split; [now constructor |]. intros H. now inversion H.
Qed.

Lemma finalize_set_status (total now : Z) (st : option string) (b : Broadcast.t) :
  Broadcast.finalize total now (Broadcast.set_status st b) = Broadcast.finalize total now b.
Proof. reflexivity. Qed.

Lemma sent_store_tables (bot : Bot) (now : Z) (s : Store) (t : list Event)
    (b : BroadcastRow.t) :
  lead_source (sent_store bot now s t b) = lead_source s /\
  user (sent_store bot now s t b) = user s /\
  message_schedule (sent_store bot now s t b)
  = message_schedule (sweep_store (query_personal now s) s) /\
  broadcast (sent_store bot now s t b)
  = update_where (fun x => Broadcast.id x =? BroadcastRow.id b)
      (Broadcast.finalize (tick_total bot now s t b) now) (broadcast s).
Proof.
  unfold sent_store, sending_store.
  destruct (sweep_store_tables (query_personal now s) s) as (Hl & Hu & Hb & _).
  cbn. rewrite Hl, Hu, Hb. repeat split.
  unfold update_where. rewrite map_map. apply map_ext. intros x.
  destruct (Broadcast.id x =? BroadcastRow.id b) eqn:E; cbn [Broadcast.set_status Broadcast.id];
    now rewrite E.
Qed.

Lemma find_hd_filter {A} (p : A -> bool) (l : list A) :
  find p l = hd_error (filter p l).
Proof.
  induction l as [| x l IH]; [reflexivity |].
  cbn. now destruct (p x).
Qed.

Lemma get_broadcast_rows_of (i : Z) (db : Store) :
  get_broadcast i db = hd_error (rows_of i db).
Proof. apply find_hd_filter. Qed.

(** With distinct keys, the row found under a key is the row listed. *)
Lemma get_broadcast_listed (db : Store) (before after : list Broadcast.t)
    (job : Broadcast.t) :
  broadcast_keys_ok db ->
  broadcast db = before ++ job :: after ->
  get_broadcast (Broadcast.id job) db = Some job.
Proof.
  unfold broadcast_keys_ok, get_broadcast. intros Hk Hsplit.
  rewrite Hsplit in *. clear Hsplit.
  induction before as [| x before IH]; cbn [app map find] in *.
  - now rewrite Z.eqb_refl.
  - apply NoDup_cons_iff in Hk as [Hnotin Hrest].
    destruct (Broadcast.id x =? Broadcast.id job) eqn:E; [| now apply IH].
    apply Z.eqb_eq in E. exfalso. apply Hnotin. rewrite E.
    rewrite map_app. apply in_or_app. right. now left.
Qed.

(** An UPDATE by key that keeps the key, seen through a lookup by key. *)
Lemma find_update_where (i j : Z) (f : Broadcast.t -> Broadcast.t)
    (rows : list Broadcast.t) :
  (forall x, Broadcast.id (f x) = Broadcast.id x) ->
  find (fun x => Broadcast.id x =? i)
       (update_where (fun x => Broadcast.id x =? j) f rows)
  = if i =? j then option_map f (find (fun x => Broadcast.id x =? i) rows)
    else find (fun x => Broadcast.id x =? i) rows.
Proof.
  intros Hf. induction rows as [| x rows IH]; cbn.
  - now destruct (i =? j).
  - destruct (Broadcast.id x =? j) eqn:Ej.
    + rewrite Hf. destruct (Broadcast.id x =? i) eqn:Ei.
      * apply Z.eqb_eq in Ej, Ei. subst. now rewrite Z.eqb_refl.
      * exact IH.
    + destruct (Broadcast.id x =? i) eqn:Ei; [| exact IH].
      apply Z.eqb_eq in Ei. subst i. now rewrite Ej.
Qed.

Lemma filter_update_where_other (i j : Z) (f : Broadcast.t -> Broadcast.t)
    (rows : list Broadcast.t) :
  (forall x, Broadcast.id (f x) = Broadcast.id x) -> i <> j ->
  filter (fun x => Broadcast.id x =? i)
         (update_where (fun x => Broadcast.id x =? j) f rows)
  = filter (fun x => Broadcast.id x =? i) rows.
Proof.
  intros Hf Hne. unfold update_where.
  induction rows as [| x rows IH]; [reflexivity |].
  cbn. destruct (Broadcast.id x =? j) eqn:Ej.
  - rewrite Hf. apply Z.eqb_eq in Ej.
    replace (Broadcast.id x =? i) with false by (symmetry; apply Z.eqb_neq; lia).
    exact IH.
  - now rewrite IH.
Qed.

(* ================================================================== *)
(** * Running the dispatcher on a database that does not fail           *)
(* ================================================================== *)

Section Runs.

Variable bot : Bot.

Lemma personal_sweep_run rows s d t :
  personal_sweep bot rows (mkWorld s d t None)
  = (Ok tt, mkWorld (sweep_store rows s) d (t ++ personal_events bot rows t) None).
Proof.
  revert s t. induction rows as [| row rest IH]; intros s t.
  - cbn. unfold ret. now rewrite app_nil_r.
  - cbn [personal_sweep for_each personal_events sweep_store fold_left].
    fold (personal_sweep bot rest).
    unfold bind at 1. unfold bind at 1. unfold try_except, bind at 1.
    unfold bot_call; cbn [trace session durable db_budget].
    unfold personal_group. fold (personal_call row).
    destruct (bot t (personal_call row)) as [| msg]; cbn;
      [| destruct (contains "blocked" (lower msg)); cbn ];
      rewrite IH; unfold sweep_store; cbn;
      rewrite <- !app_assoc; reflexivity.
Qed.

Lemma broadcast_attempt_run b total u w :
  broadcast_attempt bot b total u w
  = (Ok (total + Z.of_nat (deliveries (Mass (BroadcastRow.id b))
                             (mass_group bot b (trace w) u))),
     mkWorld (session w) (durable w)
             (trace w ++ mass_group bot b (trace w) u) (db_budget w)).
Proof.
  unfold broadcast_attempt, mass_group.
  replace (if truthy (BroadcastRow.file_id b) && truthy (BroadcastRow.file_type b)
           then bot_call bot (Mass (BroadcastRow.id b))
                  (send_document u (BroadcastRow.file_id b)
                     (Some (BroadcastRow.content b)))
           else bot_call bot (Mass (BroadcastRow.id b))
                  (send_message u
                     (if String.eqb (BroadcastRow.content b) EmptyString
                      then BroadcastRow.title b else BroadcastRow.content b)))
    with (bot_call bot (Mass (BroadcastRow.id b)) (mass_call b u))
    by (unfold mass_call; now destruct (truthy _ && truthy _)).
  unfold try_except, bind, bot_call, ret.
  destruct (bot (trace w) (mass_call b u)) as [| msg]; cbn [deliveries origin_eqb].
  - rewrite Z.eqb_refl. cbn. reflexivity.
  - destruct (negb (blocked (TelegramError msg))); cbn;
      rewrite Z.add_0_r, <- ?app_assoc; reflexivity.
Qed.

Lemma for_fold_mass_run b users total w :
  for_fold users total (broadcast_attempt bot b) w
  = (Ok (total + Z.of_nat (deliveries (Mass (BroadcastRow.id b))
                             (mass_events bot b users (trace w)))),
     mkWorld (session w) (durable w)
             (trace w ++ mass_events bot b users (trace w)) (db_budget w)).
Proof.
  revert total w. induction users as [| u rest IH]; intros total w.
  - cbn. unfold ret. rewrite app_nil_r, Z.add_0_r. now destruct w.
  - cbn [for_fold mass_events].
    unfold bind at 1. rewrite broadcast_attempt_run, IH.
    cbn [trace session durable db_budget].
    rewrite deliveries_app, Nat2Z.inj_add, <- app_assoc.
    f_equal. f_equal. lia.
Qed.

Lemma broadcast_sweep_run now b s d t :
  broadcast_sweep bot now b (mkWorld s d t None) =
  let i := BroadcastRow.id b in
  let s2 := apply_stmt (MarkBroadcastSending i) s in
  let head := [EvLog Info; EvExec (MarkBroadcastSending i); EvCommit s2] in
  let mass := mass_events bot b (users_query s) (t ++ head) in
  let total := Z.of_nat (deliveries (Mass i) mass) in
  (Ok tt, mkWorld (apply_stmt (MarkBroadcastSent i total now) s2) s2
                  (t ++ head ++ mass ++ [EvExec (MarkBroadcastSent i total now); EvLog Info])
                  None).
Proof.
  cbv zeta. unfold broadcast_sweep.
  unfold bind at 1. unfold log at 1, emit at 1.
  unfold bind at 1. unfold execute_update at 1, bind at 1, round_trip at 1.
  cbn [db_budget session durable trace].
  unfold bind at 1, emit at 1. cbn [db_budget session durable trace].
  unfold bind at 1. unfold commit at 1, bind at 1, round_trip at 1.
  cbn [db_budget session durable trace].
  unfold bind at 1. unfold execute_query at 1, bind at 1, round_trip at 1.
  cbn [db_budget session durable trace].
  unfold bind at 1. rewrite for_fold_mass_run.
  cbn [db_budget session durable trace]. rewrite Z.add_0_l.
  unfold bind at 1. unfold execute_update at 1, bind at 1, round_trip at 1.
  cbn [db_budget session durable trace].
  unfold bind at 1, emit at 1. cbn [db_budget session durable trace].
  unfold log, emit. cbn [db_budget session durable trace].
  replace (users_query (apply_stmt (MarkBroadcastSending (BroadcastRow.id b)) s))
    with (users_query s) by reflexivity.
  rewrite <- !app_assoc. cbn [app]. reflexivity.
Qed.

(** The whole tick, on a database that does not fail. *)
Lemma tick_run now s d t :
  send_scheduled_broadcasts bot now (mkWorld s d t None) =
  match query_broadcast now s with
  | Some b =>
      (Ok tt, mkWorld (sent_store bot now s t b) (sent_store bot now s t b)
                (t ++ tick_head bot now s t b ++ tick_mass bot now s t b
                   ++ tick_tail bot now s t b) None)
  | None =>
      match query_personal now s with
      | [] => (Ok tt, mkWorld s d (t ++ tick_personal bot now s t) None)
      | _ :: _ =>
          let s1 := sweep_store (query_personal now s) s in
          (Ok tt, mkWorld s1 s1 (t ++ tick_personal bot now s t ++ [EvCommit s1]) None)
      end
  end.
Proof.
  cbv zeta. unfold send_scheduled_broadcasts.
  unfold bind at 1. unfold log at 1, emit at 1.
  unfold bind at 1. unfold execute_query at 1, bind at 1, round_trip at 1.
  cbn [db_budget session durable trace].
  unfold bind at 1. rewrite personal_sweep_run.
  unfold bind at 1. unfold execute_query at 1, bind at 1, round_trip at 1.
  cbn [db_budget session durable trace].
  rewrite query_broadcast_sweep.
  destruct (query_broadcast now s) as [b |] eqn:Eb.
  - unfold bind at 1. rewrite broadcast_sweep_run. cbv zeta.
    rewrite orb_true_r. unfold commit, bind, round_trip.
    cbn [db_budget session durable trace].
    replace (users_query (sweep_store (query_personal now s) s))
      with (users_query s)
      by (unfold users_query;
          now destruct (sweep_store_tables (query_personal now s) s) as (_ & -> & _)).
    unfold sent_store, tick_tail, tick_total, tick_mass, tick_head, sending_store,
      tick_personal.
    rewrite <- !app_assoc. cbn [app]. rewrite <- ?app_assoc. cbn [app]. reflexivity.
  - unfold bind at 1, ret at 1. rewrite orb_false_r.
    unfold tick_personal.
    destruct (query_personal now s) as [| row rest] eqn:Er.
    + unfold ret. cbn. rewrite <- app_assoc. reflexivity.
    + unfold commit, bind, round_trip. cbn [db_budget session durable trace].
      rewrite <- !app_assoc. cbn [app]. reflexivity.
Qed.

Lemma tick_run_pure now s d t :
  send_scheduled_broadcasts bot now (mkWorld s d t None)
  = (Ok tt, mkWorld (tick_session bot now s t) (tick_durable bot now s d t)
                    (t ++ tick_events bot now s t) None).
Proof.
  rewrite tick_run. unfold tick_session, tick_durable, tick_events, tick_session.
  destruct (query_broadcast now s) as [b |]; [reflexivity |].
  destruct (query_personal now s); reflexivity.
Qed.

Lemma tick_session_tables now s t :
  lead_source (tick_session bot now s t) = lead_source s /\
  user (tick_session bot now s t) = user s /\
  message_schedule (tick_session bot now s t)
  = map (fun m => if marked (query_personal now s) m
                  then MessageSchedule.set_sent true m else m) (message_schedule s) /\
  broadcast (tick_session bot now s t)
  = match query_broadcast now s with
    | Some b => update_where (fun x => Broadcast.id x =? BroadcastRow.id b)
                  (Broadcast.finalize (tick_total bot now s t b) now) (broadcast s)
    | None => broadcast s
    end.
Proof.
  unfold tick_session.
  destruct (sweep_store_tables (query_personal now s) s) as (Hl & Hu & Hb & Hm).
  destruct (query_broadcast now s) as [b |].
  - destruct (sent_store_tables bot now s t b) as (Hl' & Hu' & Hm' & Hb').
    rewrite Hl', Hu', Hm', Hb', Hm. auto.
  - auto.
Qed.

Lemma tick_durable_cases now s d t :
  tick_durable bot now s d t = d \/ tick_durable bot now s d t = tick_session bot now s t.
Proof.
  unfold tick_durable.
  destruct (query_broadcast now s); [now right |].
  destruct (query_personal now s); [now left | now right].
Qed.

(** Reasoning along successive ticks: a property of the stores that every
    tick preserves, and a property of the traced events that every tick
    establishes, hold after any number of ticks. *)
Lemma run_ticks_invariant (P : Store -> Prop) (Q : list Event -> Prop) :
  (forall now s t, P s -> P (tick_session bot now s t)) ->
  (forall now s t, P s -> Q (tick_events bot now s t)) ->
  Q [] -> (forall a b, Q a -> Q b -> Q (a ++ b)) ->
  forall nows s d t, P s -> P d ->
  exists s' d' evs,
    run_ticks bot nows (mkWorld s d t None) = (Ok tt, mkWorld s' d' (t ++ evs) None) /\
    P s' /\ P d' /\ Q evs.
Proof.
  intros Hstep Hev Hnil Happ nows.
  induction nows as [| now later IH]; intros s d t Hs Hd.
  - exists s, d, []. cbn. unfold ret. rewrite app_nil_r. auto.
  - cbn [run_ticks]. unfold bind. rewrite tick_run_pure.
    assert (Hs' : P (tick_session bot now s t)) by now apply Hstep.
    assert (Hd' : P (tick_durable bot now s d t))
      by (destruct (tick_durable_cases now s d t) as [-> | ->]; assumption).
    destruct (IH _ _ (t ++ tick_events bot now s t) Hs' Hd')
      as (s' & d' & evs & Hrun & Ps' & Pd' & Qevs).
    exists s', d', (tick_events bot now s t ++ evs).
    rewrite Hrun, app_assoc. repeat split; try assumption.
    apply Happ; [now apply Hev | assumption].
Qed.

(** The rows of a key whose rows are all flagged sent are out of reach of
    every later tick. *)
Lemma tick_session_rows_of (i : Z) now s t :
  Forall (fun x => Broadcast.is_sent x = true) (rows_of i s) ->
  rows_of i (tick_session bot now s t) = rows_of i s.
Proof.
  intros Hsent. unfold rows_of at 1.
  destruct (tick_session_tables now s t) as (_ & _ & _ & ->).
  destruct (query_broadcast now s) as [b |] eqn:Eb; [| reflexivity].
  apply filter_update_where_other; [reflexivity |].
  intros ->.
  destruct (query_broadcast_first now s b Eb) as (before & job & after & Hsplit & Hrow & Hdue & _).
  apply broadcast_due_spec in Hdue as (_ & _ & Hunsent).
  rewrite Forall_forall in Hsent.
  assert (Hin : In job (rows_of (BroadcastRow.id b) s)).
  { unfold rows_of. apply filter_In. split.
    - rewrite Hsplit. apply in_elt.
    - rewrite <- Hrow. cbn. apply Z.eqb_refl. }
  apply Hsent in Hin. congruence.
Qed.

Lemma run_ticks_frozen (i : Z) nows s d t :
  Forall (fun x => Broadcast.is_sent x = true) (rows_of i s) ->
  rows_of i d = rows_of i s ->
  rows_of i (session (snd (run_ticks bot nows (mkWorld s d t None)))) = rows_of i s /\
  rows_of i (durable (snd (run_ticks bot nows (mkWorld s d t None)))) = rows_of i s.
Proof.
  intros Hsent Hd.
  destruct (run_ticks_invariant
              (fun st => rows_of i st = rows_of i s) (fun _ => True)) with
    (nows := nows) (s := s) (d := d) (t := t)
    as (s' & d' & evs & -> & Hs' & Hd' & _); auto.
  intros now s0 t0 H0. rewrite <- H0. apply tick_session_rows_of. now rewrite H0.
Qed.

(** A tick that finds nothing due, whatever the state of the database
    connection: the stores are untouched and only log lines are traced. *)
Lemma tick_idle now w :
  query_personal now (session w) = [] ->
  query_broadcast now (session w) = None ->
  session (snd (send_scheduled_broadcasts bot now w)) = session w /\
  durable (snd (send_scheduled_broadcasts bot now w)) = durable w /\
  trace (snd (send_scheduled_broadcasts bot now w)) = trace w ++ [EvLog Info].
Proof.
  destruct w as [s d t budget]. cbn [session durable trace]. intros Hp Hb.
  unfold send_scheduled_broadcasts, bind, log, emit, execute_query, bind, round_trip.
  cbn [db_budget session durable trace].
  destruct budget as [[| [| n]] |]; cbn [db_budget session durable trace fst snd];
    rewrite ?Hp; cbn; rewrite ?Hb; cbn; auto.
Qed.

End Runs.

(* ================================================================== *)
(** * C7: a tick without due work                                       *)
(* ================================================================== *)

(** C7. When a tick finds no due personal entry and no due broadcast job
    it writes nothing, and so does a second tick on the same store: after
    each of the two runs the session and the committed database, hence
    every row of message_schedule and of broadcast, are exactly what they
    were, and the two runs trace nothing but a log line. *)
Theorem C7_idle_tick_is_noop (bot : Bot) (now1 now2 : Z) (w : World) :
  query_personal now1 (session w) = [] ->
  query_broadcast now1 (session w) = None ->
  query_personal now2 (session w) = [] ->
  query_broadcast now2 (session w) = None ->
  let w1 := snd (send_scheduled_broadcasts bot now1 w) in
  let w2 := snd (send_scheduled_broadcasts bot now2 w1) in
  (session w1 = session w /\ durable w1 = durable w) /\
  (session w2 = session w1 /\ durable w2 = durable w1) /\
  forallb is_quiet (new_events w w2) = true.
Proof.
  intros Hp1 Hb1 Hp2 Hb2 w1 w2.
  destruct (tick_idle bot now1 w Hp1 Hb1) as (Hs1 & Hd1 & Ht1).
  fold w1 in Hs1, Hd1, Ht1.
  assert (Hp2' : query_personal now2 (session w1) = []) by now rewrite Hs1.
  assert (Hb2' : query_broadcast now2 (session w1) = None) by now rewrite Hs1.
  destruct (tick_idle bot now2 w1 Hp2' Hb2') as (Hs2 & Hd2 & Ht2).
  fold w2 in Hs2, Hd2, Ht2.
  repeat split; try assumption.
  unfold new_events. rewrite Ht2, Ht1, <- app_assoc.
  rewrite skipn_app, skipn_all, Nat.sub_diag. reflexivity.
Qed.

Lemma C7_idle_tick_is_noop_witness :
  let w1 := snd (send_scheduled_broadcasts bot t0 (fresh db_idle)) in
  let w2 := snd (send_scheduled_broadcasts bot (t0 + Clock.minute) w1) in
  (session w1 = db_idle /\ durable w1 = db_idle) /\
  (session w2 = session w1 /\ durable w2 = durable w1) /\
  forallb is_quiet (new_events (fresh db_idle) w2) = true.
Proof.
  apply (C7_idle_tick_is_noop bot t0 (t0 + Clock.minute) (fresh db_idle));
    reflexivity.
Defined.

(* ================================================================== *)
(** * C3: which broadcast job a tick selects                            *)
(* ================================================================== *)

(** C3, as stated, fails: of two due jobs the query takes the first row
    of the table, here the one that is due an hour after the other. *)
Lemma C3_counterexample_first_row_not_earliest :
  ~ earliest_due_first t0 db_two_jobs.
Proof.
  intros H.
  specialize (H job early_job t0 (t0 - Clock.hour)).
  cbv in H.
  apply H; auto.
Qed.

(** The scan order decides among due jobs: after the tick the job listed
    first is sent and the job that was due an hour earlier is still
    pending. *)
Example first_row_is_sent_before_earlier_job :
  map (fun x => (Broadcast.id x, Broadcast.status x))
      (broadcast (durable (snd (send_scheduled_broadcasts bot t0 (fresh db_two_jobs)))))
  = [(1, Some "sent"%string); (2, Some "pending"%string)].
Proof. reflexivity. Qed.

(** C3, amended. A tick selects at most one broadcast job.  The selected
    job is the first row of the table, in scan order, that is due
    (scheduled at or before now, status null or 'pending', not sent),
    whatever the due times of the due rows after it; the tick rewrites the
    rows with the key of that job and no other row of the table.  When no
    row is due the table is left as it was. *)
Theorem C3_broadcast_selection (bot : Bot) (now : Z) (s : Store) (t : list Event) :
  let w' := snd (send_scheduled_broadcasts bot now (mkWorld s s t None)) in
  match query_broadcast now s with
  | Some b =>
      exists before job after total,
        broadcast s = before ++ job :: after /\
        BroadcastRow.of_broadcast job = b /\
        ((exists due, Broadcast.scheduled_at job = Some due /\ due <= now) /\
         (Broadcast.status job = None \/ Broadcast.status job = Some "pending"%string) /\
         Broadcast.is_sent job = false) /\
        Forall (fun x => broadcast_due now x = false) before /\
        broadcast (durable w')
        = map (fun x => if Broadcast.id x =? Broadcast.id job
                        then Broadcast.finalize total now x else x) (broadcast s)
  | None =>
      Forall (fun x => broadcast_due now x = false) (broadcast s) /\
      broadcast (session w') = broadcast s /\
      broadcast (durable w') = broadcast s
  end.
Proof.
  cbv zeta. rewrite tick_run.
  destruct (query_broadcast now s) as [b |] eqn:Eb.
  - destruct (query_broadcast_first now s b Eb)
      as (before & job & after & Hsplit & Hrow & Hdue & Hnot).
    exists before, job, after, (tick_total bot now s t b).
    repeat split; try assumption; try (apply broadcast_due_spec in Hdue; apply Hdue).
    cbn [snd durable].
    destruct (sent_store_tables bot now s t b) as (_ & _ & _ & ->).
    subst b. reflexivity.
  - split; [now apply query_broadcast_none |].
    destruct (query_personal now s) as [| row rest] eqn:Er; cbn [snd session durable].
    + split; reflexivity.
    + now destruct (sweep_store_tables (row :: rest) s) as (_ & _ & -> & _).
Qed.

(* ================================================================== *)
(** * C5: the counter of a broadcast                                    *)
(* ================================================================== *)

(** The events of a tick that selected [b], counted for that job, are the
    events of its loop over the recipients. *)
Lemma tick_events_mass (bot : Bot) (now : Z) (s : Store) (t : list Event)
    (b : BroadcastRow.t) :
  query_broadcast now s = Some b ->
  let o := Mass (BroadcastRow.id b) in
  let evs := tick_events bot now s t in
  recipients o evs = users_query s /\
  deliveries o evs = deliveries o (tick_mass bot now s t b) /\
  unreachable o evs = unreachable o (tick_mass bot now s t b) /\
  other_failures o evs = other_failures o (tick_mass bot now s t b).
Proof.
  intros Hb. cbv zeta. unfold tick_events. rewrite Hb.
  rewrite !recipients_app, !deliveries_app, !unreachable_app, !other_failures_app.
  assert (Hhead : attempts (Mass (BroadcastRow.id b)) (tick_head bot now s t b) = O).
  { unfold tick_head, tick_personal. rewrite attempts_app. cbn [attempts].
    now destruct (personal_events_mass bot (BroadcastRow.id b)
                    (query_personal now s) (t ++ [EvLog Info])) as [-> _]. }
  destruct (no_attempts_counts _ _ Hhead) as (-> & -> & -> & ->).
  destruct (mass_events_recipients bot b (users_query s) (t ++ tick_head bot now s t b))
    as (Hr & _ & _).
  unfold tick_mass at 1. rewrite Hr. unfold tick_tail. cbn.
  rewrite app_nil_r, !Nat.add_0_r. auto.
Qed.

(** C5. In a tick that sweeps a broadcast over the [n] contacts of the
    user table, when [k] attempts fail because the recipient is unreachable
    (the error text mentions "blocked") and every other attempt succeeds,
    the job is left committed with [sent_count = n - k], [status = 'sent']
    and [is_sent = true]. *)
Theorem C5_sent_count_excludes_unreachable (bot : Bot) (now : Z) (s : Store)
    (t : list Event) (b : BroadcastRow.t) (k : nat) :
  query_broadcast now s = Some b ->
  let w := mkWorld s s t None in
  let w' := snd (send_scheduled_broadcasts bot now w) in
  let o := Mass (BroadcastRow.id b) in
  let n := List.length (user s) in
  unreachable o (new_events w w') = k ->
  other_failures o (new_events w w') = O ->
  fst (send_scheduled_broadcasts bot now w) = Ok tt /\
  attempts o (new_events w w') = n /\
  (exists job, In job (broadcast (durable w')) /\ Broadcast.id job = BroadcastRow.id b) /\
  (forall job, In job (broadcast (durable w')) ->
     Broadcast.id job = BroadcastRow.id b ->
     Broadcast.sent_count job = Z.of_nat n - Z.of_nat k /\
     Broadcast.status job = Some "sent"%string /\
     Broadcast.is_sent job = true).
Proof.
  intros Hb. cbv zeta. rewrite tick_run_pure. cbn [fst snd durable].
  rewrite (new_events_app _ _ t) by reflexivity.
  destruct (tick_events_mass bot now s t b Hb) as (Hr & Hd & Hu & Ho).
  rewrite Hu, Ho. intros Hk Hzero.
  assert (Hn : attempts (Mass (BroadcastRow.id b)) (tick_events bot now s t)
               = List.length (user s)).
  { rewrite attempts_recipients, Hr. unfold users_query. apply length_map. }
  assert (Htotal : tick_total bot now s t b
                   = Z.of_nat (List.length (user s)) - Z.of_nat k).
  { unfold tick_total. rewrite <- Hd.
    pose proof (attempts_split (Mass (BroadcastRow.id b)) (tick_events bot now s t)) as Hs.
    rewrite Hn, Hu, Ho, Hk, Hzero in Hs. lia. }
  assert (Hdur : tick_durable bot now s s t = tick_session bot now s t).
  { unfold tick_durable. now rewrite Hb. }
  rewrite Hdur.
  destruct (tick_session_tables bot now s t) as (_ & _ & _ & Hbt).
  rewrite Hb in Hbt. rewrite Hbt.
  split; [reflexivity |]. split; [exact Hn |]. split.
  - destruct (query_broadcast_first now s b Hb) as (before & job & after & Hsplit & Hrow & _).
    exists (Broadcast.finalize (tick_total bot now s t b) now job).
    split; [| now rewrite <- Hrow].
    unfold update_where. apply in_map_iff. exists job. split.
    + rewrite <- Hrow. cbn. now rewrite Z.eqb_refl.
    + rewrite Hsplit. apply in_elt.
  - intros job Hin Hid.
    unfold update_where in Hin. apply in_map_iff in Hin as (x & Hx & _).
    destruct (Broadcast.id x =? BroadcastRow.id b) eqn:E; subst job.
    + cbn. auto.
    + apply Z.eqb_neq in E. contradiction.
Qed.

(** The end-to-end example of the specification: three contacts, one of
    whom has blocked the bot. *)
Lemma C5_sent_count_excludes_unreachable_witness :
  attempts (Mass 1)
    (new_events (fresh db_job) (snd (send_scheduled_broadcasts bot t0 (fresh db_job))))
  = 3%nat /\
  exists j,
    In j (broadcast (durable (snd (send_scheduled_broadcasts bot t0 (fresh db_job))))) /\
    Broadcast.sent_count j = 2 /\
    Broadcast.status j = Some "sent"%string /\ Broadcast.is_sent j = true.
Proof.
  destruct (C5_sent_count_excludes_unreachable bot t0 db_job []
              (BroadcastRow.of_broadcast job) 1%nat eq_refl eq_refl eq_refl)
    as (_ & Hn & (j & Hin & Hid) & Hall).
  split; [exact Hn |].
  exists j. split; [exact Hin |]. exact (Hall j Hin Hid).
Defined.

(* ================================================================== *)
(** * C4: the life cycle of a broadcast job                             *)
(* ================================================================== *)

(** C4. For the job [b] that a tick selects, with [job] its row:
    - the tick traces, in this order, events [head] that neither attempt a
      delivery of the job nor write to the broadcast table nor commit, the
      UPDATE to 'sending' and its commit, the delivery attempts [mass], one
      per contact and without any write among them, and only then the one
      UPDATE that sets status 'sent', is_sent and sent_count, followed by
      the closing commit;
    - the status of the row is null or 'pending' before the tick, with
      is_sent false; in the database committed before the first attempt
      the stored row reads status 'sending', still with is_sent false and
      the counter it had, every other column being unchanged; in the
      database committed at the end it reads status 'sent', is_sent true
      and sent_count the number of delivered attempts, written by that one
      UPDATE;
    - whatever ticks follow, the row stays what the final UPDATE made it:
      its status stays 'sent' and its sent_count stays that number. *)
Theorem C4_broadcast_lifecycle (bot : Bot) (now : Z) (s : Store) (t : list Event)
    (b : BroadcastRow.t) :
  broadcast_keys_ok s ->
  query_broadcast now s = Some b ->
  let i := BroadcastRow.id b in
  let w1 := snd (send_scheduled_broadcasts bot now (mkWorld s s t None)) in
  exists job head mass total s_sending s_sent,
    send_scheduled_broadcasts bot now (mkWorld s s t None)
    = (Ok tt,
       mkWorld s_sent s_sent
         (t ++ head
            ++ [EvExec (MarkBroadcastSending i); EvCommit s_sending]
            ++ mass
            ++ [EvExec (MarkBroadcastSent i total now); EvLog Info; EvCommit s_sent])
         None) /\
    (attempts (Mass i) head = O /\ forallb spares_broadcast head = true) /\
    (recipients (Mass i) mass = users_query s /\
     forallb (fun e => negb (is_write e)) mass = true) /\
    (get_broadcast i s = Some job /\
     (Broadcast.status job = None \/ Broadcast.status job = Some "pending"%string) /\
     Broadcast.is_sent job = false) /\
    (exists row,
       get_broadcast i s_sending = Some row /\
       Broadcast.status row = Some "sending"%string /\
       Broadcast.is_sent row = false /\
       Broadcast.sent_count row = Broadcast.sent_count job /\
       row = Broadcast.set_status (Some "sending"%string) job) /\
    total = Z.of_nat (deliveries (Mass i) mass) /\
    (exists row,
       get_broadcast i s_sent = Some row /\
       Broadcast.status row = Some "sent"%string /\
       Broadcast.is_sent row = true /\
       Broadcast.sent_count row = total /\
       row = Broadcast.finalize total now job) /\
    forall nows,
      let w2 := snd (run_ticks bot nows w1) in
      get_broadcast i (session w2) = Some (Broadcast.finalize total now job) /\
      get_broadcast i (durable w2) = Some (Broadcast.finalize total now job) /\
      (exists row,
         get_broadcast i (durable w2) = Some row /\
         Broadcast.status row = Some "sent"%string /\
         Broadcast.is_sent row = true /\
         Broadcast.sent_count row = total).
Proof.
  intros Hkeys Hb. cbv zeta.
  destruct (query_broadcast_first now s b Hb)
    as (before & job & after & Hsplit & Hrow & Hdue & _).
  assert (Hid : Broadcast.id job = BroadcastRow.id b) by now rewrite <- Hrow.
  pose proof (get_broadcast_listed s before after job Hkeys Hsplit) as Hget.
  rewrite Hid in Hget.
  destruct (sweep_store_tables (query_personal now s) s) as (_ & _ & Hbs & _).
  assert (Hsending : get_broadcast (BroadcastRow.id b) (sending_store now s b)
                     = Some (Broadcast.set_status (Some "sending"%string) job)).
  { unfold get_broadcast, sending_store. cbn [apply_stmt broadcast with_broadcast].
    rewrite find_update_where by reflexivity.
    rewrite Z.eqb_refl, Hbs. unfold get_broadcast in Hget. now rewrite Hget. }
  assert (Hsent : get_broadcast (BroadcastRow.id b) (sent_store bot now s t b)
                  = Some (Broadcast.finalize (tick_total bot now s t b) now job)).
  { unfold get_broadcast.
    destruct (sent_store_tables bot now s t b) as (_ & _ & _ & ->).
    rewrite find_update_where by reflexivity.
    rewrite Z.eqb_refl. unfold get_broadcast in Hget. now rewrite Hget. }
  exists job, (tick_personal bot now s t ++ [EvLog Info]), (tick_mass bot now s t b),
    (tick_total bot now s t b), (sending_store now s b), (sent_store bot now s t b).
  rewrite tick_run, Hb.
  split; [| split; [| split; [| split; [| split; [| split; [| split]]]]]].
  - unfold tick_head, tick_tail. rewrite <- !app_assoc. reflexivity.
  - unfold tick_personal. rewrite attempts_app, forallb_app. cbn.
    destruct (personal_events_mass bot (BroadcastRow.id b) (query_personal now s)
                (t ++ [EvLog Info])) as [-> ->]. now split.
  - destruct (mass_events_recipients bot b (users_query s)
                (t ++ tick_head bot now s t b)) as (Hr & Hw & _).
    split; assumption.
  - split; [exact Hget |]. apply broadcast_due_spec in Hdue. split; apply Hdue.
  - exists (Broadcast.set_status (Some "sending"%string) job).
    split; [exact Hsending |]. split; [reflexivity |]. split; [| split; reflexivity].
    apply broadcast_due_spec in Hdue. apply Hdue.
  - reflexivity.
  - exists (Broadcast.finalize (tick_total bot now s t b) now job).
    split; [exact Hsent |]. repeat split.
  - intros nows. cbn [snd].
    set (t1 := t ++ _).
    assert (Hrows : Forall (fun x => Broadcast.is_sent x = true)
                      (rows_of (BroadcastRow.id b) (sent_store bot now s t b))).
    { unfold rows_of.
      destruct (sent_store_tables bot now s t b) as (_ & _ & _ & ->).
      apply Forall_forall. intros x Hx. apply filter_In in Hx as [Hx Hxi].
      unfold update_where in Hx. apply in_map_iff in Hx as (y & <- & _).
      destruct (Broadcast.id y =? BroadcastRow.id b) eqn:E; [reflexivity |].
      congruence. }
    destruct (run_ticks_frozen bot (BroadcastRow.id b) nows
                (sent_store bot now s t b) (sent_store bot now s t b) t1 Hrows eq_refl)
      as [Hs2 Hd2].
    rewrite !get_broadcast_rows_of, Hs2, Hd2, <- get_broadcast_rows_of.
    split; [exact Hsent |]. split; [exact Hsent |].
    exists (Broadcast.finalize (tick_total bot now s t b) now job).
    split; [exact Hsent |]. repeat split.
Qed.

Lemma C4_broadcast_lifecycle_witness :
  exists job head mass total s_sending s_sent,
    send_scheduled_broadcasts bot t0 (mkWorld db_job db_job [] None)
    = (Ok tt,
       mkWorld s_sent s_sent
         ([] ++ head
            ++ [EvExec (MarkBroadcastSending 1); EvCommit s_sending]
            ++ mass
            ++ [EvExec (MarkBroadcastSent 1 total t0); EvLog Info; EvCommit s_sent])
         None) /\
    (attempts (Mass 1) head = O /\ forallb spares_broadcast head = true) /\
    (recipients (Mass 1) mass = [1001; 1002; 1003] /\
     forallb (fun e => negb (is_write e)) mass = true) /\
    (get_broadcast 1 db_job = Some job /\
     (Broadcast.status job = None \/ Broadcast.status job = Some "pending"%string) /\
     Broadcast.is_sent job = false) /\
    (exists row,
       get_broadcast 1 s_sending = Some row /\
       Broadcast.status row = Some "sending"%string /\
       Broadcast.is_sent row = false /\
       Broadcast.sent_count row = Broadcast.sent_count job /\
       row = Broadcast.set_status (Some "sending"%string) job) /\
    total = Z.of_nat (deliveries (Mass 1) mass) /\
    (exists row,
       get_broadcast 1 s_sent = Some row /\
       Broadcast.status row = Some "sent"%string /\
       Broadcast.is_sent row = true /\
       Broadcast.sent_count row = total /\
       row = Broadcast.finalize total t0 job) /\
    forall nows,
      let w2 := snd (run_ticks bot nows
                  (snd (send_scheduled_broadcasts bot t0 (mkWorld db_job db_job [] None)))) in
      get_broadcast 1 (session w2) = Some (Broadcast.finalize total t0 job) /\
      get_broadcast 1 (durable w2) = Some (Broadcast.finalize total t0 job) /\
      (exists row,
         get_broadcast 1 (durable w2) = Some row /\
         Broadcast.status row = Some "sent"%string /\
         Broadcast.is_sent row = true /\
         Broadcast.sent_count row = total).
Proof.
  apply (C4_broadcast_lifecycle bot t0 db_job [] (BroadcastRow.of_broadcast job)).
  - unfold broadcast_keys_ok. cbn. repeat constructor. intros [].
  - reflexivity.
Defined.

(* ================================================================== *)
(** * C2: personal entries                                              *)
(* ================================================================== *)

Lemma query_personal_flat (now : Z) (db : Store) :
  query_personal now db
  = flat_map (fun m => if personal_due now m then joined db m else [])
             (message_schedule db).
Proof. reflexivity. Qed.

Lemma joined_ids (db : Store) (m : MessageSchedule.t) (row : PersonalRow.t) :
  In row (joined db m) -> PersonalRow.id row = MessageSchedule.id m.
Proof.
  unfold joined. intros H. apply in_flat_map in H as (u & _ & Hu).
  destruct (User.id u =? MessageSchedule.user_id m); [| contradiction].
  destruct Hu as [<- | []]. reflexivity.
Qed.

(** With distinct user keys, the join finds the one owner of an entry. *)
Lemma joined_owner (db : Store) (m : MessageSchedule.t) (u : User.t) :
  user_keys_ok db -> In u (user db) -> User.id u = MessageSchedule.user_id m ->
  joined db m = [PersonalRow.mk (MessageSchedule.id m)
                   (MessageSchedule.message_text m) (User.user_id u)].
Proof.
  unfold user_keys_ok, joined.
  induction (user db) as [| x us IH]; intros Hk Hin Hid; [contradiction |].
  cbn [map] in Hk. apply NoDup_cons_iff in Hk as [Hnotin Hrest].
  cbn [flat_map].
  destruct Hin as [-> | Hin].
  - rewrite Hid, Z.eqb_refl. cbn [app]. f_equal.
    assert (Hnone : forall us', (forall y, In y us' -> User.id y <> User.id u) ->
      flat_map (fun u0 =>
        if User.id u0 =? MessageSchedule.user_id m
        then [PersonalRow.mk (MessageSchedule.id m)
                (MessageSchedule.message_text m) (User.user_id u0)]
        else []) us' = []).
    { induction us' as [| y us' IH']; intros Hne; [reflexivity |].
      cbn [flat_map].
      replace (User.id y =? MessageSchedule.user_id m) with false.
      - apply IH'. intros z Hz. apply Hne. now right.
      - symmetry. apply Z.eqb_neq. rewrite <- Hid. apply Hne. now left. }
    apply Hnone. intros y Hy Heq. apply Hnotin. rewrite <- Heq. now apply in_map.
  - replace (User.id x =? MessageSchedule.user_id m) with false.
    + now apply IH.
    + symmetry. apply Z.eqb_neq. rewrite <- Hid. intros Heq.
      apply Hnotin. rewrite Heq. now apply in_map.
Qed.

Lemma rows_with_app (i : Z) (r1 r2 : list PersonalRow.t) :
  rows_with i (r1 ++ r2) = rows_with i r1 ++ rows_with i r2.
Proof. apply filter_app. Qed.

(** The rows produced for entries with other keys. *)
Lemma rows_with_others (i now : Z) (db : Store) (ms : list MessageSchedule.t) :
  (forall m, In m ms -> personal_due now m = true -> MessageSchedule.id m <> i) ->
  rows_with i (flat_map (fun m => if personal_due now m then joined db m else []) ms) = [].
Proof.
  intros Hne. induction ms as [| m ms IH]; [reflexivity |].
  cbn [flat_map]. rewrite rows_with_app, IH by (intros; apply Hne; [now right | assumption]).
  rewrite app_nil_r.
  destruct (personal_due now m) eqn:Ed; [| reflexivity].
  unfold rows_with.
  assert (Hall : forall row, In row (joined db m) -> (PersonalRow.id row =? i) = false).
  { intros row Hrow. apply Z.eqb_neq. rewrite (joined_ids db m row Hrow).
    apply Hne; [now left | exact Ed]. }
  induction (joined db m) as [| row rows IHr]; [reflexivity |].
  cbn. rewrite Hall by now left. apply IHr. intros; apply Hall. now right.
Qed.

(** A due entry with its owner yields exactly one personal row. *)
Lemma query_personal_entry (now : Z) (db : Store) (e : MessageSchedule.t) (u : User.t) :
  schedule_keys_ok db -> user_keys_ok db ->
  In e (message_schedule db) ->
  In u (user db) -> User.id u = MessageSchedule.user_id e ->
  personal_due now e = true ->
  exists r1 r2,
    query_personal now db
    = r1 ++ PersonalRow.mk (MessageSchedule.id e) (MessageSchedule.message_text e)
              (User.user_id u) :: r2 /\
    rows_with (MessageSchedule.id e) r1 = [] /\
    rows_with (MessageSchedule.id e) r2 = [].
Proof.
  intros Hsk Huk He Hu Hfk Hdue.
  rewrite query_personal_flat.
  destruct (in_split _ _ He) as (ms1 & ms2 & Hsplit).
  unfold schedule_keys_ok in Hsk. rewrite Hsplit in *.
  rewrite map_app in Hsk. cbn [map] in Hsk.
  pose proof (NoDup_remove_2 _ _ _ Hsk) as Hnotin.
  rewrite flat_map_app. cbn [flat_map]. rewrite Hdue.
  rewrite (joined_owner db e u Huk Hu Hfk). cbn [app].
  eexists _, _. split; [reflexivity |]. split.
  - apply rows_with_others. intros m Hm _ Heq. apply Hnotin.
    apply in_or_app. left. rewrite <- Heq. now apply in_map.
  - apply rows_with_others. intros m Hm _ Heq. apply Hnotin.
    apply in_or_app. right. rewrite <- Heq. now apply in_map.
Qed.

(** No personal row is produced for an entry that is marked sent. *)
Lemma query_personal_sent (now i : Z) (db : Store) :
  all_sent i db -> rows_with i (query_personal now db) = [].
Proof.
  intros Hsent. rewrite query_personal_flat.
  apply rows_with_others. intros m Hm Hdue Hid.
  unfold personal_due in Hdue. apply andb_prop in Hdue as [_ Hunsent].
  rewrite (Hsent m Hm Hid) in Hunsent. discriminate.
Qed.

Lemma personal_events_app (bot : Bot) (r1 r2 : list PersonalRow.t) (t : list Event) :
  personal_events bot (r1 ++ r2) t
  = personal_events bot r1 t ++ personal_events bot r2 (t ++ personal_events bot r1 t).
Proof.
  revert t. induction r1 as [| row r1 IH]; intros t.
  - cbn. now rewrite app_nil_r.
  - cbn [app personal_events]. rewrite IH, <- !app_assoc. reflexivity.
Qed.

(** One delivery attempt per personal row. *)
Lemma personal_events_attempts (bot : Bot) (i : Z) (rows : list PersonalRow.t)
    (t : list Event) :
  attempts (Personal i) (personal_events bot rows t) = List.length (rows_with i rows).
Proof.
  revert t. induction rows as [| row rows IH]; intros t; [reflexivity |].
  cbn [personal_events rows_with filter]. rewrite attempts_app, IH.
  unfold personal_group. cbn [attempts origin_eqb].
  rewrite (Z.eqb_sym i). fold (rows_with i rows).
  now destruct (PersonalRow.id row =? i).
Qed.

Lemma tick_events_personal (bot : Bot) (now i : Z) (s : Store) (t : list Event) :
  attempts (Personal i) (tick_events bot now s t)
  = List.length (rows_with i (query_personal now s)).
Proof.
  unfold tick_events, tick_head, tick_tail, tick_mass, tick_personal.
  destruct (query_broadcast now s) as [b |].
  - rewrite !attempts_app. cbn [attempts].
    rewrite personal_events_attempts.
    destruct (mass_events_recipients bot b (users_query s)
      (t ++ (EvLog Info :: personal_events bot (query_personal now s) (t ++ [EvLog Info])) ++
         [EvLog Info; EvExec (MarkBroadcastSending (BroadcastRow.id b));
          EvCommit (sending_store now s b)])) as (_ & _ & ->).
    lia.
  - destruct (query_personal now s) as [| row rows] eqn:Er.
    + reflexivity.
    + rewrite attempts_app. cbn [attempts]. rewrite personal_events_attempts. cbn. lia.
Qed.

Lemma marked_rows_with (rows : list PersonalRow.t) (m : MessageSchedule.t) :
  marked rows m = negb (Nat.eqb (List.length (rows_with (MessageSchedule.id m) rows)) 0).
Proof.
  induction rows as [| row rows IH]; [reflexivity |].
  unfold marked in *. cbn [existsb rows_with filter].
  rewrite (Z.eqb_sym (MessageSchedule.id m)).
  destruct (PersonalRow.id row =? MessageSchedule.id m); [reflexivity | exact IH].
Qed.

(** A tick keeps an entry that is marked sent marked sent. *)
Lemma tick_session_all_sent (bot : Bot) (now i : Z) (s : Store) (t : list Event) :
  all_sent i s -> all_sent i (tick_session bot now s t).
Proof.
  intros Hsent m Hm Hid.
  destruct (tick_session_tables bot now s t) as (_ & _ & Hms & _).
  rewrite Hms in Hm. apply in_map_iff in Hm as (m0 & <- & Hm0).
  destruct (marked (query_personal now s) m0); [reflexivity |].
  now apply Hsent.
Qed.

Lemma tick_events_prefix (bot : Bot) (now : Z) (s : Store) (t : list Event) :
  exists rest, tick_events bot now s t = tick_personal bot now s t ++ rest.
Proof.
  unfold tick_events, tick_head.
  destruct (query_broadcast now s) as [b |].
  - eexists. rewrite <- app_assoc. reflexivity.
  - destruct (query_personal now s); eexists; [now rewrite app_nil_r | reflexivity].
Qed.

(** After any number of later ticks an entry that is marked sent has not
    been attempted again and is still marked sent. *)
Lemma run_ticks_never_again (bot : Bot) (i : Z) (nows : list Z) (s d : Store)
    (t : list Event) :
  all_sent i s -> all_sent i d ->
  let w := mkWorld s d t None in
  let w' := snd (run_ticks bot nows w) in
  attempts (Personal i) (new_events w w') = O /\
  all_sent i (session w') /\ all_sent i (durable w').
Proof.
  intros Hs Hd. cbv zeta.
  destruct (run_ticks_invariant bot (all_sent i)
              (fun evs => attempts (Personal i) evs = O)) with
    (nows := nows) (s := s) (d := d) (t := t)
    as (s' & d' & evs & -> & Hs' & Hd' & Hevs); auto.
  - intros now s0 t0 H0. now apply tick_session_all_sent.
  - intros now s0 t0 H0. rewrite tick_events_personal, query_personal_sent; auto.
  - intros a b Ha Hb. rewrite attempts_app. lia.
  - cbn [snd session durable]. rewrite (new_events_app _ _ t) by reflexivity. auto.
Qed.

(** C2. Let [e] be a personal entry that is due and unsent at the start
    of a tick, with its owner [u].  The tick makes exactly one delivery
    attempt for it, and whatever the outcome [r] of that attempt (delivered,
    recipient unreachable, or any other error) the next database statement
    is the UPDATE that sets sent = true for the entry; the tick ends with
    the entry committed as sent; and in any later ticks the entry is not
    attempted again and stays sent. *)
Theorem C2_personal_entry_sent_once (bot : Bot) (now : Z) (s : Store) (t : list Event)
    (e : MessageSchedule.t) (u : User.t) :
  schedule_keys_ok s -> user_keys_ok s ->
  In e (message_schedule s) ->
  In u (user s) -> User.id u = MessageSchedule.user_id e ->
  MessageSchedule.send_time e <= now -> MessageSchedule.sent e = false ->
  let i := MessageSchedule.id e in
  let w := mkWorld s s t None in
  let w1 := snd (send_scheduled_broadcasts bot now w) in
  fst (send_scheduled_broadcasts bot now w) = Ok tt /\
  (exists before r after,
     new_events w w1
     = before
       ++ [ EvSend (Personal i)
              (send_message (User.user_id u) (MessageSchedule.message_text e)) r;
            EvLog (outcome_level r);
            EvExec (MarkScheduleSent i) ]
       ++ after) /\
  attempts (Personal i) (new_events w w1) = 1%nat /\
  (In (MessageSchedule.set_sent true e) (message_schedule (durable w1)) /\
   all_sent i (durable w1)) /\
  forall nows,
    let w2 := snd (run_ticks bot nows w1) in
    attempts (Personal i) (new_events w1 w2) = O /\ all_sent i (durable w2).
Proof.
  intros Hsk Huk He Hu Hfk Htime Hunsent. cbv zeta.
  assert (Hdue : personal_due now e = true).
  { unfold personal_due. rewrite Hunsent. cbn. rewrite andb_true_r. lia. }
  destruct (query_personal_entry now s e u Hsk Huk He Hu Hfk Hdue)
    as (r1 & r2 & Hrows & Hr1 & Hr2).
  assert (Hlen : List.length (rows_with (MessageSchedule.id e) (query_personal now s)) = 1%nat).
  { rewrite Hrows, rows_with_app, Hr1. cbn [app rows_with filter PersonalRow.id].
    rewrite Z.eqb_refl. fold (rows_with (MessageSchedule.id e) r2). now rewrite Hr2. }
  assert (Hmark : forall m, MessageSchedule.id m = MessageSchedule.id e ->
                            marked (query_personal now s) m = true).
  { intros m Hm. now rewrite marked_rows_with, Hm, Hlen. }
  assert (Hdur : tick_durable bot now s s t = tick_session bot now s t).
  { unfold tick_durable. destruct (query_broadcast now s); [reflexivity |].
    rewrite Hrows. now destruct r1. }
  assert (Hall : all_sent (MessageSchedule.id e) (tick_session bot now s t)).
  { intros m Hm Hid.
    destruct (tick_session_tables bot now s t) as (_ & _ & Hms & _).
    rewrite Hms in Hm. apply in_map_iff in Hm as (m0 & Hm0 & _).
    destruct (marked (query_personal now s) m0) eqn:Em; subst m; [reflexivity |].
    cbn in Hid. rewrite Hmark in Em by exact Hid. discriminate. }
  rewrite tick_run_pure. cbn [fst snd]. rewrite Hdur.
  rewrite (new_events_app _ _ t) by reflexivity.
  split; [reflexivity |]. split; [| split; [| split]].
  - destruct (tick_events_prefix bot now s t) as (rest & ->).
    unfold tick_personal. rewrite Hrows.
    change (r1 ++ ?row :: r2) with (r1 ++ [row] ++ r2).
    rewrite personal_events_app. cbn [app personal_events].
    set (t' := (t ++ [EvLog Info]) ++ personal_events bot r1 (t ++ [EvLog Info])).
    unfold personal_group at 1. unfold personal_call. cbn [PersonalRow.tg_id PersonalRow.message_text PersonalRow.id].
    eexists (EvLog Info :: personal_events bot r1 (t ++ [EvLog Info])), _, _.
    cbn [app]. rewrite <- !app_assoc. cbn [app]. reflexivity.
  - now rewrite tick_events_personal.
  - split; [| exact Hall]. cbn [durable].
    destruct (tick_session_tables bot now s t) as (_ & _ & -> & _).
    apply in_map_iff. exists e. split; [| exact He].
    now rewrite Hmark.
  - intros nows.
    destruct (run_ticks_never_again bot (MessageSchedule.id e) nows
                (tick_session bot now s t) (tick_session bot now s t)
                (t ++ tick_events bot now s t) Hall Hall) as (Hnone & _ & Hd2).
    split; assumption.
Qed.

Lemma C2_personal_entry_sent_once_witness :
  let w := fresh db_personal in
  let w1 := snd (send_scheduled_broadcasts bot t0 w) in
  attempts (Personal 1) (new_events w w1) = 1%nat /\
  In (MessageSchedule.set_sent true reminder) (message_schedule (durable w1)) /\
  attempts (Personal 1)
    (new_events w1 (snd (run_ticks bot [t0 + Clock.minute; t0 + Clock.hour] w1))) = O.
Proof.
  pose proof (C2_personal_entry_sent_once bot t0 db_personal [] reminder boris) as H.
  cbv zeta in H.
  destruct H as (_ & _ & Honce & (Hin & _) & Hlater).
  - unfold schedule_keys_ok. cbn. repeat constructor. intros [].
  - unfold user_keys_ok. cbn. repeat constructor; cbn; intuition discriminate.
  - left. reflexivity.
  - right. left. reflexivity.
  - reflexivity.
  - vm_compute. discriminate.
  - reflexivity.
  - split; [exact Honce |]. split; [exact Hin |].
    exact (proj1 (Hlater [t0 + Clock.minute; t0 + Clock.hour])).
Defined.

(* ================================================================== *)
(** * C1: the recipients of a scheduled broadcast                       *)
(* ================================================================== *)

(** Whatever the segment filter of the selected job, the tick attempts a
    delivery to every contact of the user table, in table order. *)
Lemma scheduled_broadcast_reaches_everybody (bot : Bot) (now : Z) (s d : Store)
    (t : list Event) (b : BroadcastRow.t) :
  query_broadcast now s = Some b ->
  let w := mkWorld s d t None in
  recipients (Mass (BroadcastRow.id b))
             (new_events w (snd (send_scheduled_broadcasts bot now w)))
  = map User.user_id (user s).
Proof.
  intros Hb. cbv zeta. rewrite tick_run_pure. cbn [snd].
  rewrite (new_events_app _ _ t) by reflexivity.
  now destruct (tick_events_mass bot now s t b Hb) as (-> & _).
Qed.

(** The query behind an immediate broadcast keeps to the segment. *)
Lemma get_users_by_lead_source_segment (lead : Z) (db : Store) (u : User.t) :
  In u (get_users_by_lead_source lead db) ->
  In u (user db) /\ User.lead_source_id u = Some lead.
Proof.
  unfold get_users_by_lead_source. intros H.
  apply in_flat_map in H as (x & Hx & H).
  apply in_flat_map in H as (l & _ & H).
  destruct (User.lead_source_id x) as [i |] eqn:Ei; cbn in H; [| contradiction].
  destruct (i =? LeadSource.id l) eqn:E1; cbn in H; [| contradiction].
  destruct (LeadSource.id l =? lead) eqn:E2; [| contradiction].
  destruct H as [<- | []]. apply Z.eqb_eq in E1, E2. split; [exact Hx | congruence].
Qed.

(** One iteration of the loop of [send_broadcast_now] attempts, at most,
    a delivery to the contact of that iteration. *)
Lemma immediate_attempt_run (bot : Bot) (b : Broadcast.t) (c : Z) (u : User.t) (w : World) :
  exists c' evs,
    immediate_attempt bot b c u w
    = (Ok c', mkWorld (session w) (durable w) (trace w ++ evs) (db_budget w)) /\
    forall x, In x (recipients (Mass (Broadcast.id b)) evs) -> x = User.user_id u.
Proof.
  unfold immediate_attempt, try_except, bind, log, emit, ret.
  destruct (Broadcast.file_type b) as [ft |].
  - repeat match goal with
           | |- context [if String.eqb ft ?k then _ else _] => destruct (String.eqb ft k)
           end;
      unfold bot_call;
      try match goal with
          | |- context [bot (trace w) ?call] => destruct (bot (trace w) call)
          end;
      cbn [session durable trace db_budget];
      eexists _, _; rewrite <- ?app_assoc;
      (split; [reflexivity |]);
      cbn; rewrite ?Z.eqb_refl; cbn; intuition.
  - eexists _, _. cbn [session durable trace db_budget].
    split; [reflexivity |]. cbn. intuition.
Qed.

Lemma immediate_loop_run (bot : Bot) (b : Broadcast.t) (users : list User.t) (c : Z)
    (w : World) :
  exists c' evs,
    for_fold users c (immediate_attempt bot b) w
    = (Ok c', mkWorld (session w) (durable w) (trace w ++ evs) (db_budget w)) /\
    forall x, In x (recipients (Mass (Broadcast.id b)) evs) ->
              In x (map User.user_id users).
Proof.
  revert c w. induction users as [| u rest IH]; intros c w.
  - exists c, []. cbn. unfold ret. rewrite app_nil_r. destruct w. split; [reflexivity |].
    intros x [].
  - cbn [for_fold]. unfold bind.
    destruct (immediate_attempt_run bot b c u w) as (c1 & evs1 & -> & H1).
    destruct (IH c1 (mkWorld (session w) (durable w) (trace w ++ evs1) (db_budget w)))
      as (c2 & evs2 & -> & H2).
    exists c2, (evs1 ++ evs2). cbn [session durable trace db_budget].
    rewrite app_assoc. split; [reflexivity |].
    intros x Hx. rewrite recipients_app in Hx. apply in_app_or in Hx as [Hx | Hx].
    + left. symmetry. now apply H1.
    + right. now apply H2.
Qed.

(** The immediate path keeps to the segment: with a segment filter, every
    contact that [send_broadcast_now] attempts belongs to that segment. *)
Lemma send_broadcast_now_keeps_to_segment (bot : Bot) (db_now : list Event -> Z)
    (i lead : Z) (b : Broadcast.t) (s d : Store) (t : list Event) :
  get_broadcast i s = Some b ->
  Broadcast.target_lead_id b = Some lead -> lead <> 0 ->
  let w := mkWorld s d t None in
  forall x,
    In x (recipients (Mass (Broadcast.id b))
            (new_events w (snd (send_broadcast_now bot db_now i w)))) ->
    exists u, In u (user s) /\ User.user_id u = x /\ User.lead_source_id u = Some lead.
Proof.
  intros Hget Hlead Hnz. cbv zeta.
  unfold send_broadcast_now.
  unfold bind at 1. unfold execute_query at 1, bind at 1, round_trip at 1.
  cbn [db_budget session durable trace]. rewrite Hget, Hlead.
  replace (lead =? 0) with false by (symmetry; now apply Z.eqb_neq).
  unfold bind at 1. unfold execute_query at 1, bind at 1, round_trip at 1.
  cbn [db_budget session durable trace].
  unfold bind at 1.
  destruct (immediate_loop_run bot b (get_users_by_lead_source lead s) 0
              (mkWorld s d t None)) as (c & evs & -> & Hrec).
  cbn [db_budget session durable trace].
  unfold bind, orm_mark_sent, session_update, commit, bind, round_trip, log, emit.
  cbn [db_budget session durable trace snd].
  rewrite <- !app_assoc. rewrite (new_events_app _ _ t) by reflexivity.
  intros x Hx. rewrite recipients_app in Hx. apply in_app_or in Hx as [Hx | Hx].
  - apply Hrec in Hx. apply in_map_iff in Hx as (u & Hu & Hin).
    apply get_users_by_lead_source_segment in Hin as [Hin Hseg].
    exists u. auto.
  - cbn in Hx. contradiction.
Qed.

(** C1, at the failing input.  The job of [db_job] is filtered on segment 1
    ("challenge"); contact 1003 belongs to segment 2.  The tick attempts a
    delivery to all three contacts, 1003 included, while
    [send_broadcast_now] on the same store keeps to the two contacts of the
    segment. *)
Theorem C1_scheduled_broadcast_ignores_segment :
  let w := fresh db_job in
  Broadcast.target_lead_id job = Some 1 /\
  User.lead_source_id clara = Some 2 /\
  recipients (Mass 1) (new_events w (snd (send_scheduled_broadcasts bot t0 w)))
  = [1001; 1002; 1003] /\
  recipients (Mass 1) (new_events w (snd (send_broadcast_now bot db_now 1 w)))
  = [1001; 1002].
Proof. cbv zeta. repeat split; reflexivity. Qed.

(* ================================================================== *)
(** * C10: registering a contact                                        *)
(* ================================================================== *)

Lemma select_user_unique (uid : Z) (db : Store) (u : User.t) :
  NoDup (map User.user_id (user db)) ->
  In u (user db) -> User.user_id u = uid ->
  select_user uid db = [u].
Proof.
  unfold select_user.
  induction (user db) as [| x us IH]; intros Hk Hin Hid; [contradiction |].
  cbn [map] in Hk. apply NoDup_cons_iff in Hk as [Hnotin Hrest].
  cbn [filter]. destruct Hin as [-> | Hin].
  - rewrite Hid, Z.eqb_refl. f_equal.
    assert (Hnone : forall y, In y us -> (User.user_id y =? uid) = false).
    { intros y Hy. apply Z.eqb_neq. intros Heq. apply Hnotin.
      rewrite Hid, <- Heq. now apply in_map. }
    clear - Hnone. induction us as [| y us IH]; [reflexivity |].
    cbn. rewrite Hnone by now left. apply IH. intros; apply Hnone. now right.
  - replace (User.user_id x =? uid) with false; [now apply IH |].
    symmetry. apply Z.eqb_neq. intros Heq. apply Hnotin.
    rewrite Heq, <- Hid. now apply in_map.
Qed.

Lemma add_user_existing (db_now : list Event -> Z) (uid : Z)
    (un fn ln ph : option string) (ls : option Z) (w : World) (u : User.t) :
  select_user uid (session w) = [u] ->
  add_user db_now uid un fn ln ph ls w
  = match db_budget w with
    | Some O => (Raise StoreError, w)
    | Some (S n) => (Ok u, mkWorld (session w) (durable w) (trace w) (Some n))
    | None => (Ok u, w)
    end.
Proof.
  intros Hsel. unfold add_user, bind, execute_query, bind, round_trip.
  destruct (db_budget w) as [[| n] |]; cbn [session]; rewrite ?Hsel; reflexivity.
Qed.

Lemma add_user_fresh (db_now : list Event -> Z) (uid : Z)
    (un fn ln ph : option string) (ls : option Z) (s d : Store) (t : list Event) :
  select_user uid s = [] ->
  let new_user := User.mk (next_id (map User.id (user s))) uid un fn ln ph ls
                          (db_now t) (db_now t) (db_now t) in
  let s' := with_user (user s ++ [new_user]) s in
  add_user db_now uid un fn ln ph ls (mkWorld s d t None)
  = (Ok new_user, mkWorld s' s' (t ++ [EvCommit s']) None).
Proof.
  intros Hsel. cbv zeta.
  unfold add_user, bind, execute_query, bind, round_trip.
  cbn [db_budget session durable trace]. rewrite Hsel. reflexivity.
Qed.

(** C10. Registration is idempotent.  When a row with the given Telegram
    id exists (the column is unique), [add_user] returns that very row, with
    none of its columns replaced by the arguments, and inserts nothing: the
    session, the committed database and the trace are untouched.  And on a
    database that does not fail, a second call with the same id, whatever
    its other arguments, returns what the first call returned and changes
    nothing more. *)
Theorem C10_add_user_idempotent (db_now : list Event -> Z) (uid : Z)
    (un fn ln ph un' fn' ln' ph' : option string) (ls ls' : option Z) :
  (forall w u,
     NoDup (map User.user_id (user (session w))) ->
     In u (user (session w)) -> User.user_id u = uid ->
     let r := add_user db_now uid un fn ln ph ls w in
     (db_budget w <> Some O -> fst r = Ok u) /\
     session (snd r) = session w /\ durable (snd r) = durable w /\
     trace (snd r) = trace w) /\
  (forall s d t,
     let r1 := add_user db_now uid un fn ln ph ls (mkWorld s d t None) in
     add_user db_now uid un' fn' ln' ph' ls' (snd r1) = r1).
Proof.
  split.
  - intros w u Hk Hin Hid. cbv zeta.
    rewrite (add_user_existing db_now uid un fn ln ph ls w u)
      by now apply select_user_unique.
    destruct (db_budget w) as [[| n] |] eqn:Eb; cbn; repeat split; congruence.
  - intros s d t. cbv zeta.
    destruct (select_user uid s) as [| u [| u' rest]] eqn:Esel.
    + rewrite (add_user_fresh db_now uid un fn ln ph ls s d t Esel). cbn [snd].
      set (new_user := User.mk _ _ _ _ _ _ _ _ _ _).
      rewrite add_user_existing with (u := new_user).
      * reflexivity.
      * cbn [session]. unfold select_user in *. cbn [user with_user].
        rewrite filter_app, Esel. cbn. now rewrite Z.eqb_refl.
    + rewrite (add_user_existing db_now uid un fn ln ph ls _ u) by exact Esel.
      cbn [db_budget snd]. now rewrite add_user_existing with (u := u).
    + unfold add_user, bind, execute_query, bind, round_trip.
      cbn [db_budget session durable trace]. rewrite Esel. cbn.
      rewrite Esel. reflexivity.
Qed.

Lemma C10_add_user_idempotent_witness :
  let r := add_user db_now 1001 (Some "renamed"%string) None None
             (Some "+77010000000"%string) (Some 2) (fresh db_job) in
  fst r = Ok alice /\ session (snd r) = db_job /\ durable (snd r) = db_job.
Proof.
  destruct (proj1 (C10_add_user_idempotent db_now 1001 (Some "renamed"%string) None None
                     (Some "+77010000000"%string) None None None None (Some 2) None)
              (fresh db_job) alice) as (Hr & Hs & Hd & _).
  - cbn. repeat constructor; cbn; intuition discriminate.
  - left. reflexivity.
  - reflexivity.
  - cbv zeta. split; [apply Hr; discriminate |]. split; assumption.
Defined.

(* ================================================================== *)
(** * C8 and C9: enrolment in the lead-magnet funnel                    *)
(* ================================================================== *)

Section Enrolment.

Variable db_now : list Event -> Z.
Variable json_dumps : string -> string -> string -> string.
Variables welcome_text reminder_text feedback_thanks_text : string.

Lemma lesson_time_future (now : Z) : (now + Clock.timedelta 0 1 >? now) = true.
Proof.
  change (Clock.timedelta 0 1) with 60000000.
  rewrite Z.gtb_ltb. apply Z.ltb_lt. lia.
Qed.

Lemma reminder_time_future (now : Z) : (now + Clock.timedelta 2 0 >? now) = true.
Proof.
  change (Clock.timedelta 2 0) with 172800000000.
  rewrite Z.gtb_ltb. apply Z.ltb_lt. lia.
Qed.

(** A contact of the table has its key in the table. *)
Lemma owner_exists (u : User.t) (users : list User.t) :
  In u users -> existsb (fun x => User.id x =? User.id u) users = true.
Proof.
  intros Hu. apply existsb_exists. exists u. split; [exact Hu | apply Z.eqb_refl].
Qed.

(** The enrolment of a contact of the table, on a database that does not
    fail. *)
Lemma enrol_run (now : Z) (u : User.t) (s d : Store) (t : list Event) :
  In u (user s) ->
  let first :=
    MessageSchedule.mk (next_id (map MessageSchedule.id (message_schedule s)))
      (User.id u) welcome_text (now + Clock.timedelta 0 1) false (db_now t) (db_now t) in
  let s1 := with_message_schedule (message_schedule s ++ [first]) s in
  let t1 := t ++ [EvCommit s1] in
  let second :=
    MessageSchedule.mk (next_id (map MessageSchedule.id (message_schedule s1)))
      (User.id u) reminder_text (now + Clock.timedelta 2 0) false (db_now t1) (db_now t1) in
  let s2 := with_message_schedule (message_schedule s1 ++ [second]) s1 in
  schedule_lead_magnet_messages db_now json_dumps
    welcome_text reminder_text feedback_thanks_text now u (mkWorld s d t None)
  = (Ok tt, mkWorld s2 s2 (t ++ [EvCommit s1; EvCommit s2; EvCommit s2; EvLog Info]) None).
Proof.
  intros Hu. pose proof (owner_exists u (user s) Hu) as Hex.
  cbv zeta. unfold schedule_lead_magnet_messages.
  cbn [for_each]. rewrite lesson_time_future, reminder_time_future.
  unfold try_except, bind, add_message_schedule, bind, session_update, commit, bind,
    round_trip, log, emit, ret.
  cbn [db_budget session durable trace dict_get LEAD_MAGNET_TEXTS String.eqb Ascii.eqb
       Bool.eqb user with_message_schedule].
  rewrite Hex.
  cbn [db_budget session durable trace user with_message_schedule].
  rewrite Hex.
  cbn [db_budget session durable trace user with_message_schedule].
  rewrite <- !app_assoc. reflexivity.
Qed.

End Enrolment.

(** C8, as stated, fails: the first entry of an enrolment at [t0] is not
    due at [t0]. *)
Lemma C8_counterexample_first_entry_not_due_at_enrolment :
  added_due_times (fresh db_job)
    (snd (schedule_lead_magnet_messages db_now no_json "W" "R" "F" t0 alice (fresh db_job)))
  <> [t0; t0 + Clock.timedelta 2 0].
Proof. vm_compute. discriminate. Qed.

(** C8, amended. Enrolling a contact of the user table at time [now], on
    a database that does not fail, adds exactly two rows to
    message_schedule, both for that contact and unsent: the welcome text
    due at [now] plus one minute and the reminder text due at [now] plus
    two days.  Both due times are strictly after [now], so the guard
    [scheduled_at > now] skips neither. *)
Theorem C8_enrolment_schedules_two_entries (db_now : list Event -> Z)
    (json_dumps : string -> string -> string -> string)
    (welcome_text reminder_text feedback_thanks_text : string)
    (now : Z) (u : User.t) (s : Store) (t : list Event) :
  In u (user s) ->
  let w := mkWorld s s t None in
  let r := schedule_lead_magnet_messages db_now json_dumps
             welcome_text reminder_text feedback_thanks_text now u w in
  fst r = Ok tt /\
  (exists first second,
     message_schedule (durable (snd r)) = message_schedule s ++ [first; second] /\
     (MessageSchedule.user_id first = User.id u /\
      MessageSchedule.send_time first = now + Clock.timedelta 0 1 /\
      MessageSchedule.message_text first = welcome_text /\
      MessageSchedule.sent first = false) /\
     (MessageSchedule.user_id second = User.id u /\
      MessageSchedule.send_time second = now + Clock.timedelta 2 0 /\
      MessageSchedule.message_text second = reminder_text /\
      MessageSchedule.sent second = false)) /\
  added_due_times w (snd r) = [now + Clock.timedelta 0 1; now + Clock.timedelta 2 0] /\
  now < now + Clock.timedelta 0 1 < now + Clock.timedelta 2 0.
Proof.
  intros Hu. cbv zeta. rewrite enrol_run by exact Hu. cbn [fst snd durable].
  split; [reflexivity |]. split; [| split].
  - eexists _, _. split.
    + cbn [message_schedule with_message_schedule]. rewrite <- app_assoc. reflexivity.
    + cbn. auto 10.
  - unfold added_due_times. cbn [durable message_schedule with_message_schedule].
    rewrite <- app_assoc, skipn_app, skipn_all, Nat.sub_diag. reflexivity.
  - change (Clock.timedelta 0 1) with 60000000.
    change (Clock.timedelta 2 0) with 172800000000. lia.
Qed.

Lemma C8_enrolment_schedules_two_entries_witness :
  let w := mkWorld db_job db_job [] None in
  let r := schedule_lead_magnet_messages db_now no_json "W" "R" "F" t0 alice w in
  fst r = Ok tt /\
  added_due_times w (snd r) = [t0 + Clock.timedelta 0 1; t0 + Clock.timedelta 2 0].
Proof.
  assert (Hin : In alice (user db_job)) by (left; reflexivity).
  destruct (C8_enrolment_schedules_two_entries db_now no_json "W" "R" "F" t0 alice
              db_job [] Hin) as (Hr & _ & Hadded & _).
  split; [exact Hr | exact Hadded].
Defined.

(** C9, as stated, fails on the code: when the database fails at the
    second insert, the first entry stays committed and the caller gets the
    result of a success. *)
Lemma failed_enrolment_is_partial_and_unreported :
  let w := flaky db_job in
  let r := schedule_lead_magnet_messages db_now no_json "W" "R" "F" t0 alice w in
  ~ all_or_nothing_and_reported (fst r) w (snd r).
Proof.
  cbv zeta. intros H.
  assert (Hfailed : enrolment_failed (flaky db_job)
            (snd (schedule_lead_magnet_messages db_now no_json "W" "R" "F" t0 alice
                    (flaky db_job)))).
  { unfold enrolment_failed. vm_compute. right. left. reflexivity. }
  destruct (H Hfailed) as [_ Hreported].
  apply Hreported. reflexivity.
Qed.

(** What that run leaves behind: one of the two entries. *)
Example partial_enrolment_persists_first_entry :
  added_due_times (flaky db_job)
    (snd (schedule_lead_magnet_messages db_now no_json "W" "R" "F" t0 alice (flaky db_job)))
  = [t0 + Clock.timedelta 0 1].
Proof. reflexivity. Qed.

Lemma no_owner_exists (u : User.t) (users : list User.t) :
  (forall x, In x users -> User.id x <> User.id u) ->
  existsb (fun x => User.id x =? User.id u) users = false.
Proof.
  intros Hnone. apply not_true_iff_false. intros Hex.
  apply existsb_exists in Hex as (x & Hx & Heq). apply Z.eqb_eq in Heq.
  now apply (Hnone x).
Qed.

Lemma added_none (ms : list MessageSchedule.t) :
  map MessageSchedule.send_time (skipn (List.length ms) ms) = [].
Proof. now rewrite skipn_all. Qed.

Lemma added_one (ms : list MessageSchedule.t) (a : MessageSchedule.t) :
  map MessageSchedule.send_time (skipn (List.length ms) (ms ++ [a]))
  = [MessageSchedule.send_time a].
Proof. now rewrite skipn_app, skipn_all, Nat.sub_diag. Qed.

Lemma added_two (ms : list MessageSchedule.t) (a b : MessageSchedule.t) :
  map MessageSchedule.send_time (skipn (List.length ms) (ms ++ [a; b]))
  = [MessageSchedule.send_time a; MessageSchedule.send_time b].
Proof. now rewrite skipn_app, skipn_all, Nat.sub_diag. Qed.

(** C9. The code does not do what C9 asks for.  An enrolment makes five
    round trips to the database: a commit and a refresh for each of the
    two entries, and a closing commit.  When the database fails at one of
    them (it answers [n < 5] round trips), the enrolment of a contact of
    the table still returns as it does on success, so the caller is not
    told; the failure is caught, the session rolled back and an error
    logged, these being the last two events.  What is committed is not all
    or nothing: no entry when the first commit failed, the first entry
    alone when the failure came before the second commit, both entries
    when it came after.  Likewise, on a database that does not fail, the
    enrolment of a contact that has no row in the user table is refused by
    the foreign key, and this too is caught and returned as a success,
    with nothing committed. *)
Theorem C9_enrolment_failure_is_swallowed (db_now : list Event -> Z)
    (json_dumps : string -> string -> string -> string)
    (welcome_text reminder_text feedback_thanks_text : string)
    (now : Z) (u : User.t) (s : Store) (t : list Event) :
  (forall n : nat,
     In u (user s) -> (n < 5)%nat ->
     let w := mkWorld s s t (Some n) in
     let r := schedule_lead_magnet_messages db_now json_dumps
                welcome_text reminder_text feedback_thanks_text now u w in
     fst r = Ok tt /\
     session (snd r) = durable (snd r) /\
     (exists before, new_events w (snd r) = before ++ [EvRollback; EvLog Error]) /\
     added_due_times w (snd r)
     = match n with
       | O => []
       | 1%nat | 2%nat => [now + Clock.timedelta 0 1]
       | _ => [now + Clock.timedelta 0 1; now + Clock.timedelta 2 0]
       end) /\
  ((forall x, In x (user s) -> User.id x <> User.id u) ->
   let w := mkWorld s s t None in
   let r := schedule_lead_magnet_messages db_now json_dumps
              welcome_text reminder_text feedback_thanks_text now u w in
   fst r = Ok tt /\
   session (snd r) = s /\ durable (snd r) = s /\
   new_events w (snd r) = [EvRollback; EvLog Error]).
Proof.
  split.
  - intros n Hu Hn. pose proof (owner_exists u (user s) Hu) as Hex. cbv zeta.
    unfold schedule_lead_magnet_messages, added_due_times.
    cbn [for_each]. rewrite lesson_time_future, reminder_time_future.
    unfold try_except, bind, add_message_schedule, bind, session_update, commit, bind,
      round_trip, rollback, log, emit, ret, raise.
    cbn [db_budget session durable trace dict_get LEAD_MAGNET_TEXTS String.eqb
         Ascii.eqb Bool.eqb user with_message_schedule].
    rewrite Hex.
    destruct n as [| [| [| [| [| n]]]]]; [| | | | | lia];
      cbn [db_budget session durable trace user with_message_schedule fst snd
           message_schedule];
      rewrite ?Hex;
      cbn [db_budget session durable trace user with_message_schedule fst snd
           message_schedule];
      rewrite <- ?app_assoc; cbn [app];
      rewrite ?(new_events_app _ _ t) by reflexivity;
      (split; [reflexivity |]); (split; [reflexivity |]); split.
    1, 3, 5, 7, 9:
      first [ now exists [] | now eexists [_] | now eexists [_; _]
            | now eexists [_; _; _] | now eexists [_; _; _; _] ].
    + apply added_none.
    + apply added_one.
    + apply added_one.
    + apply added_two.
    + apply added_two.
  - intros Hnone. pose proof (no_owner_exists u (user s) Hnone) as Hex. cbv zeta.
    unfold schedule_lead_magnet_messages.
    cbn [for_each]. rewrite lesson_time_future, reminder_time_future.
    unfold try_except, bind, add_message_schedule, bind, session_update, commit, bind,
      round_trip, rollback, log, emit, ret, raise.
    cbn [db_budget session durable trace dict_get LEAD_MAGNET_TEXTS String.eqb
         Ascii.eqb Bool.eqb user with_message_schedule].
    rewrite Hex.
    cbn [db_budget session durable trace fst snd].
    rewrite <- ?app_assoc; cbn [app].
    rewrite (new_events_app _ _ t) by reflexivity.
    repeat split.
Qed.

Lemma C9_enrolment_failure_is_swallowed_witness :
  let w := flaky db_job in
  let r := schedule_lead_magnet_messages db_now no_json "W" "R" "F" t0 alice w in
  fst r = Ok tt /\
  added_due_times w (snd r) = [t0 + Clock.timedelta 0 1] /\
  exists before, new_events w (snd r) = before ++ [EvRollback; EvLog Error].
Proof.
  assert (Hin : In alice (user db_job)) by (left; reflexivity).
  assert (Hlt : (2 < 5)%nat) by lia.
  destruct (proj1 (C9_enrolment_failure_is_swallowed db_now no_json "W" "R" "F" t0
                     alice db_job []) 2%nat Hin Hlt) as (Hr & _ & Hlog & Hadded).
  split; [exact Hr |]. split; [exact Hadded | exact Hlog].
Defined.

(* ================================================================== *)
(** * Pagination (app/utils/paginator.py)                               *)
(* ================================================================== *)

Lemma firstn_plus {A} (a b : nat) (l : list A) :
  firstn (a + b) l = firstn a l ++ firstn b (skipn a l).
Proof.
  revert l. induction a as [| a IH]; intros l; [reflexivity |].
  destruct l as [| x l]; cbn.
  - now rewrite firstn_nil.
  - now rewrite IH.
Qed.

Lemma firstn_chunks {A} (m n : nat) (l : list A) :
  flat_map (fun k => firstn m (skipn (k * m) l)) (seq 0 n) = firstn (n * m) l.
Proof.
  induction n as [| n IH]; [reflexivity |].
  rewrite seq_S, flat_map_app, IH. cbn [flat_map plus]. rewrite app_nil_r.
  replace (S n * m)%nat with (n * m + m)%nat by lia.
  now rewrite firstn_plus.
Qed.

(** A slice that starts at a non-negative index. *)
Lemma slice_forward {A} (items : list A) (start n : Z) :
  0 <= start -> 0 <= n ->
  slice items start (start + n)
  = firstn (Z.to_nat n) (skipn (Z.to_nat start) items).
Proof.
  intros Hs Hn. unfold slice, slice_bound.
  replace (start <? 0) with false by (symmetry; apply Z.ltb_ge; lia).
  replace (start + n <? 0) with false by (symmetry; apply Z.ltb_ge; lia).
  set (len := Z.of_nat (List.length items)).
  destruct (Z.le_gt_cases start len) as [Hle | Hgt].
  - rewrite (Z.min_l start len) by lia.
    destruct (Z.le_gt_cases (start + n) len) as [Hle2 | Hgt2].
    + rewrite Z.min_l by lia. f_equal. lia.
    + rewrite Z.min_r by lia.
      rewrite !firstn_all2; [reflexivity | |]; rewrite length_skipn; unfold len in *; lia.
  - rewrite !Z.min_r by lia. rewrite Z.sub_diag. cbn [Z.to_nat firstn].
    rewrite (skipn_all2 items) by (unfold len in *; lia).
    now rewrite firstn_nil.
Qed.

Lemma ceil_div_bounds (len per_page : Z) :
  0 < per_page -> 0 <= len ->
  let pages := (len + per_page - 1) / per_page in
  0 <= pages /\ len <= pages * per_page /\ (0 < len -> (pages - 1) * per_page < len).
Proof.
  intros Hpp Hlen. cbv zeta.
  pose proof (Z.div_mod (len + per_page - 1) per_page ltac:(lia)) as Hdm.
  pose proof (Z.mod_pos_bound (len + per_page - 1) per_page Hpp) as Hmod.
  pose proof (Z.div_pos (len + per_page - 1) per_page ltac:(lia) Hpp) as Hpos.
  repeat split; nia.
Qed.

Lemma ceil_div_page (len per_page page : Z) :
  0 < per_page -> 0 <= len ->
  (page <= (len + per_page - 1) / per_page <-> (page - 1) * per_page < len).
Proof.
  intros Hpp Hlen.
  pose proof (Z.div_mod (len + per_page - 1) per_page ltac:(lia)) as Hdm.
  pose proof (Z.mod_pos_bound (len + per_page - 1) per_page Hpp) as Hmod.
  split; intros H; nia.
Qed.

(** The items of a page, empty when [paginate] raises. *)
Lemma paginate_items {A} (items : list A) (page per_page : Z) :
  0 < per_page -> 1 <= page ->
  paginate items page per_page
  = Some (Page.mk
            (firstn (Z.to_nat per_page) (skipn (Z.to_nat ((page - 1) * per_page)) items))
            page ((Z.of_nat (List.length items) + per_page - 1) / per_page)
            (page <? (Z.of_nat (List.length items) + per_page - 1) / per_page)
            (1 <? page)).
Proof.
  intros Hpp Hpage. unfold paginate.
  replace (per_page =? 0) with false by (symmetry; apply Z.eqb_neq; lia).
  rewrite slice_forward by nia. reflexivity.
Qed.

(** X1. The pages 1 to [pages] of [paginate], glued together in order,
    are the list that was paginated: no item is lost and none is shown on
    two pages. *)
Theorem paginate_pages_partition {A} (items : list A) (per_page : Z) :
  0 < per_page ->
  let pages := (Z.of_nat (List.length items) + per_page - 1) / per_page in
  (forall page, option_map Page.pages (paginate items page per_page) = Some pages) /\
  flat_map (fun k => match paginate items (Z.of_nat k + 1) per_page with
                     | Some p => Page.items p
                     | None => []
                     end) (seq 0 (Z.to_nat pages))
  = items.
Proof.
  intros Hpp. cbv zeta. split.
  - intros page. unfold paginate.
    replace (per_page =? 0) with false by (symmetry; apply Z.eqb_neq; lia).
    reflexivity.
  - destruct (ceil_div_bounds (Z.of_nat (List.length items)) per_page Hpp ltac:(lia))
      as (Hpos & Hcover & _).
    rewrite (flat_map_ext _
               (fun k => firstn (Z.to_nat per_page)
                           (skipn (k * Z.to_nat per_page) items))).
    + rewrite firstn_chunks. apply firstn_all2. nia.
    + intros k. rewrite paginate_items by lia. cbn [Page.items].
      do 2 f_equal. nia.
Qed.

Lemma paginate_pages_partition_witness :
  flat_map (fun k => match paginate [1; 2; 3; 4; 5; 6; 7] (Z.of_nat k + 1) 3 with
                     | Some p => Page.items p
                     | None => []
                     end) (seq 0 (Z.to_nat ((Z.of_nat 7 + 3 - 1) / 3)))
  = [1; 2; 3; 4; 5; 6; 7].
Proof.
  exact (proj2 (paginate_pages_partition [1; 2; 3; 4; 5; 6; 7] 3 eq_refl)).
Defined.

(** X2. For a page number from 1 on, a page holds at most [per_page]
    items, exactly [min(per_page, len - (page-1)*per_page)] of them; it is
    non-empty exactly when [page <= pages]; and [has_next] says exactly
    whether the following page is non-empty. *)
Theorem paginate_page_bounds {A} (items : list A) (page per_page : Z) :
  0 < per_page -> 1 <= page ->
  exists p next,
    paginate items page per_page = Some p /\
    paginate items (page + 1) per_page = Some next /\
    Z.of_nat (List.length (Page.items p))
    = Z.min per_page (Z.max 0 (Z.of_nat (List.length items) - (page - 1) * per_page)) /\
    (Page.items p <> [] <-> page <= Page.pages p) /\
    (Page.has_next p = true <-> Page.items next <> []).
Proof.
  intros Hpp Hpage.
  assert (Hlen : forall q, 1 <= q ->
    Z.of_nat (List.length (firstn (Z.to_nat per_page)
                             (skipn (Z.to_nat ((q - 1) * per_page)) items)))
    = Z.min per_page (Z.max 0 (Z.of_nat (List.length items) - (q - 1) * per_page))).
  { intros q Hq. rewrite length_firstn, length_skipn. nia. }
  assert (Hne : forall q, 1 <= q ->
    (firstn (Z.to_nat per_page) (skipn (Z.to_nat ((q - 1) * per_page)) items) <> []
     <-> q <= (Z.of_nat (List.length items) + per_page - 1) / per_page)).
  { intros q Hq. rewrite ceil_div_page by lia.
    specialize (Hlen q Hq).
    destruct (firstn _ _) as [| x l] eqn:E; cbn [List.length] in Hlen.
    - split; [congruence | nia].
    - split; [nia | discriminate]. }
  eexists _, _. rewrite !paginate_items by lia.
  split; [reflexivity |]. split; [reflexivity |]. cbn [Page.items Page.pages Page.has_next].
  split; [now apply Hlen |]. split; [now apply Hne |].
  replace (page + 1 - 1) with page by lia.
  specialize (Hne (page + 1) ltac:(lia)).
  replace (page + 1 - 1) with page in Hne by lia.
  rewrite Hne, Z.ltb_lt. lia.
Qed.

Lemma paginate_page_bounds_witness :
  exists p next,
    paginate [1; 2; 3; 4; 5; 6; 7] 3 3 = Some p /\
    paginate [1; 2; 3; 4; 5; 6; 7] (3 + 1) 3 = Some next /\
    Z.of_nat (List.length (Page.items p))
    = Z.min 3 (Z.max 0 (Z.of_nat 7 - (3 - 1) * 3)) /\
    (Page.items p <> [] <-> 3 <= Page.pages p) /\
    (Page.has_next p = true <-> Page.items next <> []).
Proof.
  apply (paginate_page_bounds [1; 2; 3; 4; 5; 6; 7] 3 3); lia.
Defined.

(** X3. A page number below 1 is not rejected.  Page 0 is empty.  A
    negative page number is read by the slice as an offset from the end of
    the list: when the list is long enough it yields [per_page] items of
    the tail, and [has_prev] is false. *)
Theorem paginate_nonpositive_page {A} (items : list A) (page per_page : Z) :
  0 < per_page -> page <= 0 ->
  exists p,
    paginate items page per_page = Some p /\
    Page.has_prev p = false /\
    (page = 0 -> Page.items p = []) /\
    (page < 0 -> (1 - page) * per_page <= Z.of_nat (List.length items) ->
     Page.items p
     = firstn (Z.to_nat per_page)
         (skipn (Z.to_nat (Z.of_nat (List.length items) - (1 - page) * per_page)) items)
     /\ Z.of_nat (List.length (Page.items p)) = per_page).
Proof.
  intros Hpp Hpage. unfold paginate.
  replace (per_page =? 0) with false by (symmetry; apply Z.eqb_neq; lia).
  eexists. split; [reflexivity |]. cbn [Page.items Page.has_prev].
  split; [apply Z.ltb_ge; lia |]. split.
  - intros ->. unfold slice, slice_bound.
    replace ((0 - 1) * per_page + per_page) with 0 by lia.
    replace ((0 - 1) * per_page <? 0) with true by (symmetry; apply Z.ltb_lt; lia).
    change (0 <? 0) with false. cbv iota.
    match goal with |- firstn ?n _ = [] => replace n with O by lia end.
    reflexivity.
  - intros Hneg Hlong. unfold slice, slice_bound.
    replace ((page - 1) * per_page <? 0) with true by (symmetry; apply Z.ltb_lt; nia).
    replace ((page - 1) * per_page + per_page <? 0) with true
      by (symmetry; apply Z.ltb_lt; nia).
    rewrite !Z.max_r by nia.
    assert (E : firstn
                  (Z.to_nat ((page - 1) * per_page + per_page + Z.of_nat (List.length items)
                             - ((page - 1) * per_page + Z.of_nat (List.length items))))
                  (skipn (Z.to_nat ((page - 1) * per_page + Z.of_nat (List.length items)))
                     items)
                = firstn (Z.to_nat per_page)
                    (skipn (Z.to_nat (Z.of_nat (List.length items)
                                      - (1 - page) * per_page)) items)).
    { f_equal; [f_equal; lia | f_equal; f_equal; lia]. }
    rewrite E. split; [reflexivity |].
    rewrite length_firstn, length_skipn. nia.
Qed.

Lemma paginate_nonpositive_page_witness :
  exists p,
    paginate [1; 2; 3; 4; 5; 6; 7] (-1) 3 = Some p /\ Page.items p = [2; 3; 4].
Proof.
  destruct (paginate_nonpositive_page [1; 2; 3; 4; 5; 6; 7] (-1) 3 eq_refl)
    as (p & Hp & _ & _ & Htail); [discriminate |].
  exists p. split; [exact Hp |].
  destruct Htail as [-> _]; [reflexivity | discriminate | reflexivity].
Defined.

(* ================================================================== *)
(** * Names of lead sources (app/utils/paginator.py)                    *)
(* ================================================================== *)

Lemma lead_name_match_cons (c : Z) (rest : list Z) :
  lead_name_match (c :: rest)
  = lead_name_char c &&
    match rest with
    | [] => true
    | d :: rest' =>
        ((d =? 10) && match rest' with [] => true | _ => false end)
        || lead_name_match rest
    end.
Proof.
  destruct rest as [| d rest']; [reflexivity |].
  cbn [lead_name_match]. f_equal.
  destruct (Z.eqb_spec d 10) as [-> | Hne].
  - destruct rest'; reflexivity.
  - cbn [andb orb].
    destruct d as [| p | p]; try reflexivity.
    do 4 (try (destruct p as [p | p |]; try reflexivity)).
    congruence.
Qed.

Lemma lead_name_match_spec (name : list Z) :
  lead_name_match name = true <->
  exists body, body <> [] /\ forallb lead_name_char body = true /\
               (name = body \/ name = body ++ [10]).
Proof.
  induction name as [| c rest IH].
  - split; [discriminate |].
    intros (body & Hne & _ & [H | H]); [congruence |].
    now destruct body.
  - rewrite lead_name_match_cons. split.
    + intros H. apply andb_prop in H as [Hc H].
      destruct rest as [| d rest'].
      * exists [c]. cbn. rewrite Hc. repeat split; [discriminate | now left].
      * apply orb_prop in H as [H | H].
        -- apply andb_prop in H as [Hd Hnil]. apply Z.eqb_eq in Hd. subst d.
           destruct rest'; [| discriminate].
           exists [c]. cbn. rewrite Hc. repeat split; [discriminate | now right].
        -- apply IH in H as (body & Hne & Hall & Hname).
           exists (c :: body). cbn [forallb]. rewrite Hc, Hall.
           repeat split; [discriminate |].
           destruct Hname as [-> | ->]; [now left | now right].
    + intros (body & Hne & Hall & Hname).
      destruct body as [| c' body']; [congruence |].
      cbn [forallb] in Hall. apply andb_prop in Hall as [Hc Hall].
      assert (Hcc : c = c') by (destruct Hname as [H | H]; now inversion H).
      subst c'. rewrite Hc. cbn [andb].
      destruct rest as [| d rest']; [reflexivity |].
      destruct body' as [| c2 body2].
      * destruct Hname as [H | H]; inversion H. reflexivity.
      * replace (lead_name_match (d :: rest')) with true; [apply orb_true_r |].
        symmetry. apply IH. exists (c2 :: body2).
        repeat split; [discriminate | exact Hall |].
        destruct Hname as [H | H]; inversion H; [now left | now right].
Qed.

(** X4. [validate_lead_name] accepts exactly the names of 3 to 50
    characters that consist of letters (Latin or Russian), digits, [_] and
    [-], and, because [$] also matches before a final line feed, such a
    name followed by one line feed (the line feed counts in the length).
    In particular a blank or any other character anywhere else makes the
    name invalid. *)
Theorem validate_lead_name_spec (name : list Z) :
  validate_lead_name name = true <->
  3 <= Z.of_nat (List.length name) <= 50 /\
  exists body, body <> [] /\ forallb lead_name_char body = true /\
               (name = body \/ name = body ++ [10]).
Proof.
  unfold validate_lead_name.
  rewrite !andb_true_iff, !Z.leb_le, lead_name_match_spec. tauto.
Qed.

Lemma validate_lead_name_spec_witness :
  validate_lead_name [97; 98; 10] = true /\ validate_lead_name [97; 32; 98] = false.
Proof.
  split.
  - apply validate_lead_name_spec. split; [cbn; lia |].
    exists [97; 98]. repeat split; [discriminate | now right].
  - destruct (validate_lead_name [97; 32; 98]) eqn:E; [| reflexivity].
    apply validate_lead_name_spec in E as (_ & body & _ & Hall & [<- | Hname]).
    + discriminate Hall.
    + destruct body as [| a [| b [| c body]]]; inversion Hname.
      destruct body; discriminate.
Defined.

(* ================================================================== *)
(** * The cadence of the scheduler loop (run.py)                        *)
(* ================================================================== *)

(** X5. The loop sleeps until the next minute boundary: the wake-up time
    is a whole minute, it is strictly after now and at most one minute
    away (a full minute when now is itself on a boundary), and no minute
    boundary lies between now and the wake-up time. *)
Theorem next_check_is_next_minute (now : Z) :
  next_check now mod Clock.minute = 0 /\
  0 < sleep_time now <= Clock.minute /\
  (now mod Clock.minute = 0 -> sleep_time now = Clock.minute) /\
  (forall t, now < t < next_check now -> t mod Clock.minute <> 0).
Proof.
  unfold sleep_time, next_check.
  change (Clock.timedelta 0 1) with 60000000.
  change Clock.minute with 60000000.
  pose proof (Z.mod_pos_bound now 60000000 ltac:(lia)) as Hmod.
  pose proof (Z.div_mod now 60000000 ltac:(lia)) as Hdm.
  split; [| split; [| split]].
  - replace (now - now mod 60000000 + 60000000)
      with ((now / 60000000 + 1) * 60000000) by lia.
    apply Z.mod_mul. lia.
  - lia.
  - lia.
  - intros t Ht Hzero.
    pose proof (Z.div_mod t 60000000 ltac:(lia)) as Hdt.
    rewrite Hzero in Hdt. nia.
Qed.

Lemma next_check_is_next_minute_witness :
  sleep_time (Clock.datetime 2025 11 5 9 0) = Clock.minute.
Proof.
  apply (proj1 (proj2 (proj2 (next_check_is_next_minute (Clock.datetime 2025 11 5 9 0))))).
  reflexivity.
Defined.

(* ================================================================== *)
(** * What the dispatcher never does                                    *)
(* ================================================================== *)

Lemma settled_never_due (x : Broadcast.t) :
  settled x -> forall now, broadcast_due now x = false.
Proof.
  intros [Hs | [Hn | (st & Hst & Hne)]] now; unfold broadcast_due.
  - rewrite Hs. cbn. apply andb_false_r.
  - now rewrite Hn.
  - rewrite Hst. replace (String.eqb st "pending") with false.
    + now rewrite andb_false_r.
    + symmetry. now apply String.eqb_neq.
Qed.

Lemma mass_events_other (bot : Bot) (i : Z) (b : BroadcastRow.t) (users : list Z)
    (t : list Event) :
  i <> BroadcastRow.id b -> attempts (Mass i) (mass_events bot b users t) = O.
Proof.
  intros Hne. revert t. induction users as [| u rest IH]; intros t; [reflexivity |].
  cbn [mass_events]. rewrite attempts_app, IH. unfold mass_group.
  cbn [attempts origin_eqb].
  replace (i =? BroadcastRow.id b) with false by (symmetry; now apply Z.eqb_neq).
  destruct (bot t (mass_call b u)) as [| msg]; [reflexivity |].
  now destruct (negb (blocked (TelegramError msg))).
Qed.

(** A tick leaves alone the rows of a key none of whose rows is due. *)
Lemma tick_spares_undue (bot : Bot) (i now : Z) (s : Store) (t : list Event) :
  Forall (fun x => broadcast_due now x = false) (rows_of i s) ->
  rows_of i (tick_session bot now s t) = rows_of i s /\
  attempts (Mass i) (tick_events bot now s t) = O.
Proof.
  intros Hundue.
  assert (Hother : forall b, query_broadcast now s = Some b -> i <> BroadcastRow.id b).
  { intros b Eb ->.
    destruct (query_broadcast_first now s b Eb)
      as (before & job & after & Hsplit & Hrow & Hdue & _).
    rewrite Forall_forall in Hundue.
    assert (Hin : In job (rows_of (BroadcastRow.id b) s)).
    { unfold rows_of. apply filter_In. split.
      - rewrite Hsplit. apply in_elt.
      - rewrite <- Hrow. cbn. apply Z.eqb_refl. }
    apply Hundue in Hin. congruence. }
  split.
  - unfold rows_of at 1.
    destruct (tick_session_tables bot now s t) as (_ & _ & _ & ->).
    destruct (query_broadcast now s) as [b |] eqn:Eb; [| reflexivity].
    apply filter_update_where_other; [reflexivity | now apply Hother].
  - unfold tick_events, tick_head, tick_tail, tick_mass, tick_personal.
    destruct (query_broadcast now s) as [b |] eqn:Eb.
    + rewrite !attempts_app. cbn [attempts].
      rewrite mass_events_other by now apply Hother.
      now destruct (personal_events_mass bot i (query_personal now s) (t ++ [EvLog Info]))
        as [-> _].
    + destruct (query_personal now s) as [| row rows] eqn:Er;
        rewrite ?attempts_app; cbn [attempts]; rewrite <- ?Er;
        now destruct (personal_events_mass bot i (query_personal now s) (t ++ [EvLog Info]))
          as [-> _].
Qed.

Lemma run_ticks_spares_settled (bot : Bot) (i : Z) (nows : list Z)
    (s : Store) (t : list Event) :
  Forall settled (rows_of i s) ->
  let w := mkWorld s s t None in
  let w' := snd (run_ticks bot nows w) in
  fst (run_ticks bot nows w) = Ok tt /\
  rows_of i (session w') = rows_of i s /\
  rows_of i (durable w') = rows_of i s /\
  attempts (Mass i) (new_events w w') = O.
Proof.
  intros Hsettled. cbv zeta.
  assert (Hundue : forall now, Forall (fun x => broadcast_due now x = false) (rows_of i s)).
  { intros now. eapply Forall_impl; [| exact Hsettled].
    intros x Hx. now apply settled_never_due. }
  destruct (run_ticks_invariant bot
              (fun st => rows_of i st = rows_of i s)
              (fun evs => attempts (Mass i) evs = O)) with
    (nows := nows) (s := s) (d := s) (t := t)
    as (s' & d' & evs & -> & Hs' & Hd' & Hevs); auto.
  - intros now s0 t0 H0. rewrite <- H0.
    apply tick_spares_undue. rewrite H0. apply Hundue.
  - intros now s0 t0 H0. apply tick_spares_undue. rewrite H0. apply Hundue.
  - intros a b Ha Hb. rewrite attempts_app. lia.
  - cbn [fst snd session durable].
    rewrite (new_events_app _ _ t) by reflexivity. auto.
Qed.

(** X6. The dispatcher only ever touches due jobs.  A broadcast whose rows
    are flagged sent, or have no scheduled time, or have a status other
    than null and 'pending' (a job left in 'sending' by an interrupted
    sweep, say) gets no delivery attempt and keeps its rows unchanged
    through any number of ticks: it is never resumed, re-sent or
    finalised. *)
Theorem dispatcher_never_touches_settled_job (bot : Bot) (i : Z) (nows : list Z)
    (s : Store) (t : list Event) :
  Forall settled (rows_of i s) ->
  let w := mkWorld s s t None in
  let w' := snd (run_ticks bot nows w) in
  fst (run_ticks bot nows w) = Ok tt /\
  rows_of i (session w') = rows_of i s /\
  rows_of i (durable w') = rows_of i s /\
  attempts (Mass i) (new_events w w') = O.
Proof. exact (run_ticks_spares_settled bot i nows s t). Qed.

Lemma dispatcher_never_touches_settled_job_witness :
  let w := fresh db_stuck in
  let w' := snd (run_ticks bot [t0; t0 + Clock.minute; t0 + Clock.hour] w) in
  rows_of 1 (durable w') = [stuck_job] /\ attempts (Mass 1) (new_events w w') = O.
Proof.
  destruct (dispatcher_never_touches_settled_job bot 1
              [t0; t0 + Clock.minute; t0 + Clock.hour] db_stuck [])
    as (_ & _ & Hd & Hnone).
  - change (rows_of 1 db_stuck) with [stuck_job].
    constructor; [| constructor].
    right. right. exists "sending"%string.
    split; [reflexivity | discriminate].
  - split; [exact Hd | exact Hnone].
Defined.

Lemma Forall2_map_right {A} (R : A -> A -> Prop) (f : A -> A) (l l' : list A) :
  (forall x y, R x y -> R x (f y)) ->
  Forall2 R l l' -> Forall2 R l (map f l').
Proof.
  intros Hf H. induction H; cbn; constructor; auto.
Qed.

Lemma Forall2_refl {A} (R : A -> A -> Prop) (l : list A) :
  (forall x, R x x) -> Forall2 R l l.
Proof. intros H. induction l; constructor; auto. Qed.

(** X7. Through any number of ticks the dispatcher neither adds nor
    removes a row: the tables user and lead_source stay as they are, and
    row by row a personal entry is either unchanged or has had its sent
    flag set, a broadcast is either unchanged or has been finalised (status
    'sent', is_sent, sent_count, updated).  No flag is ever reset and no
    other column is written. *)
Theorem dispatcher_preserves_rows (bot : Bot) (nows : list Z) (s : Store)
    (t : list Event) :
  let r := run_ticks bot nows (mkWorld s s t None) in
  fst r = Ok tt /\
  user (durable (snd r)) = user s /\
  lead_source (durable (snd r)) = lead_source s /\
  Forall2 same_or_marked (message_schedule s) (message_schedule (durable (snd r))) /\
  Forall2 same_or_finalized (broadcast s) (broadcast (durable (snd r))).
Proof.
  cbv zeta.
  set (P := fun st : Store =>
              user st = user s /\ lead_source st = lead_source s /\
              Forall2 same_or_marked (message_schedule s) (message_schedule st) /\
              Forall2 same_or_finalized (broadcast s) (broadcast st)).
  assert (HP : P s).
  { repeat split; apply Forall2_refl; intros x; now left. }
  destruct (run_ticks_invariant bot P (fun _ => True)) with
    (nows := nows) (s := s) (d := s) (t := t)
    as (s' & d' & evs & -> & _ & Hd' & _); auto.
  intros now s0 t0 (Hu & Hl & Hm & Hb).
  destruct (tick_session_tables bot now s0 t0) as (Hl' & Hu' & Hm' & Hb').
  unfold P. rewrite Hl', Hu', Hm', Hb'. repeat split; try assumption.
  - apply Forall2_map_right; [| exact Hm].
    intros x y [-> | ->]; destruct (marked _ _); (now left) || (now right).
  - destruct (query_broadcast now s0) as [b |]; [| exact Hb].
    apply Forall2_map_right; [| exact Hb].
    intros x y Hxy. destruct (Broadcast.id y =? BroadcastRow.id b); [| exact Hxy].
    right. destruct Hxy as [-> | (total & now' & ->)]; eexists _, _; reflexivity.
Qed.

(** X8. Within a tick every delivery attempt for a personal entry comes
    before every delivery attempt of the broadcast: the events of the tick
    split into a first part without any broadcast attempt and a second part
    without any personal attempt. *)
Theorem personal_entries_before_broadcast (bot : Bot) (now : Z) (s d : Store)
    (t : list Event) :
  let w := mkWorld s d t None in
  exists first second,
    new_events w (snd (send_scheduled_broadcasts bot now w)) = first ++ second /\
    (forall j, attempts (Mass j) first = O) /\
    (forall j, attempts (Personal j) second = O).
Proof.
  cbv zeta. rewrite tick_run_pure. cbn [snd].
  rewrite (new_events_app _ _ t) by reflexivity.
  destruct (tick_events_prefix bot now s t) as (rest & Hrest).
  exists (tick_personal bot now s t), rest. split; [exact Hrest |]. split.
  - intros j. unfold tick_personal. cbn [attempts].
    now destruct (personal_events_mass bot j (query_personal now s) (t ++ [EvLog Info]))
      as [-> _].
  - intros j.
    assert (Hall : attempts (Personal j) (tick_events bot now s t)
                   = attempts (Personal j) (tick_personal bot now s t)).
    { rewrite tick_events_personal. unfold tick_personal. cbn [attempts].
      now rewrite personal_events_attempts. }
    rewrite Hrest, attempts_app in Hall. lia.
Qed.

(* ================================================================== *)
(** * Personal entries: scheduling, listing, cancelling                 *)
(* ================================================================== *)

Lemma next_id_fresh (ids : list Z) : ~ In (next_id ids) ids.
Proof.
  assert (Hmax : forall x, In x ids -> x <= fold_right Z.max 0 ids).
  { induction ids as [| y ids IH]; intros x Hx; [contradiction |].
    cbn [fold_right]. destruct Hx as [-> | Hx]; [lia |].
    specialize (IH x Hx). lia. }
  intros Hin. apply Hmax in Hin. unfold next_id in Hin. lia.
Qed.

Lemma add_message_schedule_run (db_now : list Event -> Z)
    (json_dumps : string -> string -> string -> string)
    (user_id : Z) (text : string) (due : Z) (file_id file_type : option string)
    (s d : Store) (t : list Event) :
  existsb (fun u => User.id u =? user_id) (user s) = true ->
  exists e,
    add_message_schedule db_now json_dumps user_id text due file_id file_type
      (mkWorld s d t None)
    = (Ok e,
       mkWorld (with_message_schedule (message_schedule s ++ [e]) s)
               (with_message_schedule (message_schedule s ++ [e]) s)
               (t ++ [EvCommit (with_message_schedule (message_schedule s ++ [e]) s)])
               None) /\
    MessageSchedule.id e = next_id (map MessageSchedule.id (message_schedule s)) /\
    MessageSchedule.user_id e = user_id /\
    MessageSchedule.send_time e = due /\
    MessageSchedule.sent e = false /\
    (file_id = None -> MessageSchedule.message_text e = text).
Proof.
  intros Hfk. unfold add_message_schedule. cbn [session trace]. rewrite Hfk.
  eexists. split; [reflexivity |]. cbn. repeat split.
  intros ->. reflexivity.
Qed.

Lemma personal_events_recipients (bot : Bot) (i : Z) (rows : list PersonalRow.t)
    (t : list Event) :
  recipients (Personal i) (personal_events bot rows t)
  = map PersonalRow.tg_id (rows_with i rows).
Proof.
  revert t. induction rows as [| row rows IH]; intros t; [reflexivity |].
  cbn [personal_events rows_with filter]. rewrite recipients_app, IH.
  unfold personal_group, personal_call. cbn [recipients origin_eqb chat_of].
  rewrite (Z.eqb_sym i). fold (rows_with i rows).
  now destruct (PersonalRow.id row =? i).
Qed.

Lemma tick_events_personal_recipients (bot : Bot) (now i : Z) (s : Store)
    (t : list Event) :
  recipients (Personal i) (tick_events bot now s t)
  = map PersonalRow.tg_id (rows_with i (query_personal now s)).
Proof.
  destruct (tick_events_prefix bot now s t) as (rest & Hrest).
  assert (Hzero : attempts (Personal i) rest = O).
  { pose proof (tick_events_personal bot now i s t) as Hall.
    rewrite Hrest, attempts_app in Hall.
    unfold tick_personal in Hall. cbn [attempts] in Hall.
    rewrite personal_events_attempts in Hall. lia. }
  destruct (no_attempts_counts _ _ Hzero) as (_ & _ & _ & Hnil).
  rewrite Hrest, recipients_app, Hnil, app_nil_r.
  unfold tick_personal. cbn [recipients]. apply personal_events_recipients.
Qed.

(** A tick on a store in which the due entry [e] has its owner. *)
Lemma tick_due_entry (bot : Bot) (now : Z) (s : Store) (t : list Event)
    (e : MessageSchedule.t) (u : User.t) :
  schedule_keys_ok s -> user_keys_ok s ->
  In e (message_schedule s) -> In u (user s) ->
  User.id u = MessageSchedule.user_id e ->
  personal_due now e = true ->
  recipients (Personal (MessageSchedule.id e)) (tick_events bot now s t)
  = [User.user_id u] /\
  tick_durable bot now s s t = tick_session bot now s t /\
  In (MessageSchedule.set_sent true e) (message_schedule (tick_session bot now s t)) /\
  all_sent (MessageSchedule.id e) (tick_session bot now s t).
Proof.
  intros Hsk Huk He Hu Hfk Hdue.
  destruct (query_personal_entry now s e u Hsk Huk He Hu Hfk Hdue)
    as (r1 & r2 & Hrows & Hr1 & Hr2).
  assert (Hwith : rows_with (MessageSchedule.id e) (query_personal now s)
                  = [PersonalRow.mk (MessageSchedule.id e)
                       (MessageSchedule.message_text e) (User.user_id u)]).
  { rewrite Hrows, rows_with_app, Hr1. cbn [app rows_with filter PersonalRow.id].
    rewrite Z.eqb_refl. fold (rows_with (MessageSchedule.id e) r2). now rewrite Hr2. }
  split; [| split; [| split]].
  - now rewrite tick_events_personal_recipients, Hwith.
  - unfold tick_durable. destruct (query_broadcast now s); [reflexivity |].
    rewrite Hrows. now destruct r1.
  - destruct (tick_session_tables bot now s t) as (_ & _ & -> & _).
    apply in_map_iff. exists e. split; [| exact He].
    now rewrite marked_rows_with, Hwith.
  - intros m Hm Hid.
    destruct (tick_session_tables bot now s t) as (_ & _ & Hms & _).
    rewrite Hms in Hm. apply in_map_iff in Hm as (m0 & <- & _).
    rewrite marked_rows_with in *.
    destruct (Nat.eqb (List.length (rows_with (MessageSchedule.id m0)
                                      (query_personal now s))) 0) eqn:E;
      cbn [negb] in *; [| reflexivity].
    rewrite Hid, Hwith in E. discriminate.
Qed.

(** A tick on a store in which no entry with the key [i] is due. *)
Lemma tick_undue_entry (bot : Bot) (now i : Z) (s d : Store) (t : list Event)
    (e : MessageSchedule.t) :
  (forall m, In m (message_schedule s) -> personal_due now m = true ->
             MessageSchedule.id m <> i) ->
  MessageSchedule.id e = i ->
  In e (message_schedule s) -> In e (message_schedule d) ->
  recipients (Personal i) (tick_events bot now s t) = [] /\
  In e (message_schedule (tick_durable bot now s d t)).
Proof.
  intros Hundue Hid He Hd.
  assert (Hwith : rows_with i (query_personal now s) = []).
  { rewrite query_personal_flat. now apply rows_with_others. }
  split.
  - now rewrite tick_events_personal_recipients, Hwith.
  - destruct (tick_durable_cases bot now s d t) as [-> | ->]; [exact Hd |].
    destruct (tick_session_tables bot now s t) as (_ & _ & -> & _).
    apply in_map_iff. exists e. split; [| exact He].
    now rewrite marked_rows_with, Hid, Hwith.
Qed.

(** X9. An entry created by [add_message_schedule] for an existing contact
    waits for its time: a tick before the due time makes no attempt for it
    and leaves it stored with its sent flag false, and a tick at or after
    the due time makes exactly one attempt, addressed to the Telegram id of
    that contact, and commits the entry as sent: the stored row with its
    key, and every stored row with its key, has the sent flag true, its
    other columns being unchanged. *)
Theorem scheduled_entry_waits_for_its_time (bot : Bot) (db_now : list Event -> Z)
    (json_dumps : string -> string -> string -> string)
    (text : string) (due : Z) (file_id file_type : option string)
    (s : Store) (t : list Event) (u : User.t) :
  schedule_keys_ok s -> user_keys_ok s -> In u (user s) ->
  let r := add_message_schedule db_now json_dumps (User.id u) text due file_id file_type
             (mkWorld s s t None) in
  exists e,
    fst r = Ok e /\
    message_schedule (durable (snd r)) = message_schedule s ++ [e] /\
    MessageSchedule.send_time e = due /\ MessageSchedule.sent e = false /\
    forall now,
      let w2 := snd (send_scheduled_broadcasts bot now (snd r)) in
      (now < due ->
         recipients (Personal (MessageSchedule.id e)) (new_events (snd r) w2) = [] /\
         In e (message_schedule (durable w2))) /\
      (due <= now ->
         recipients (Personal (MessageSchedule.id e)) (new_events (snd r) w2)
         = [User.user_id u] /\
         (exists e',
            In e' (message_schedule (durable w2)) /\
            MessageSchedule.id e' = MessageSchedule.id e /\
            MessageSchedule.sent e' = true /\
            e' = MessageSchedule.set_sent true e) /\
         all_sent (MessageSchedule.id e) (durable w2)).
Proof.
  intros Hsk Huk Hu. cbv zeta.
  destruct (add_message_schedule_run db_now json_dumps (User.id u) text due
              file_id file_type s s t (owner_exists u (user s) Hu))
    as (e & -> & Hid & Huid & Hdue & Hunsent & _).
  exists e. cbn [fst snd durable message_schedule with_message_schedule].
  split; [reflexivity |]. split; [reflexivity |]. split; [exact Hdue |].
  split; [exact Hunsent |].
  set (s1 := with_message_schedule (message_schedule s ++ [e]) s).
  assert (Hfresh : ~ In (MessageSchedule.id e) (map MessageSchedule.id (message_schedule s))).
  { rewrite Hid. apply next_id_fresh. }
  assert (Hsk1 : schedule_keys_ok s1).
  { unfold schedule_keys_ok, s1. cbn [message_schedule with_message_schedule].
    rewrite map_app. cbn [map]. apply NoDup_app; [exact Hsk | repeat constructor; intros [] |].
    intros a Ha [<- | []]. contradiction. }
  assert (He1 : In e (message_schedule s1)).
  { unfold s1. cbn [message_schedule with_message_schedule]. apply in_or_app. right. now left. }
  intros now. rewrite tick_run_pure. cbn [snd durable].
  rewrite (new_events_app _ _ (t ++ [EvCommit s1])) by reflexivity.
  split.
  - intros Hearly.
    apply (tick_undue_entry bot now (MessageSchedule.id e) s1 s1 _ e); auto.
    intros m Hm Hmdue Heq.
    unfold s1 in Hm. cbn [message_schedule with_message_schedule] in Hm.
    apply in_app_or in Hm as [Hm | [<- | []]].
    + apply Hfresh. rewrite <- Heq. now apply in_map.
    + unfold personal_due in Hmdue. apply andb_prop in Hmdue as [Hle _]. lia.
  - intros Hlate.
    destruct (tick_due_entry bot now s1 (t ++ [EvCommit s1]) e u)
      as (Hrec & Hdur & Hin & Hall); auto.
    + unfold personal_due. rewrite Hunsent, Hdue. cbn. rewrite andb_true_r. lia.
    + rewrite Hdur. split; [exact Hrec |]. split; [| exact Hall].
      exists (MessageSchedule.set_sent true e).
      split; [exact Hin |]. repeat split.
Qed.

Lemma scheduled_entry_waits_for_its_time_witness :
  exists e,
    fst (add_message_schedule db_now no_json (User.id clara) "hi" (t0 + Clock.hour)
           None None (mkWorld db_personal db_personal [] None)) = Ok e /\
    recipients (Personal (MessageSchedule.id e))
      (new_events
         (snd (add_message_schedule db_now no_json (User.id clara) "hi" (t0 + Clock.hour)
                 None None (mkWorld db_personal db_personal [] None)))
         (snd (send_scheduled_broadcasts bot (t0 + Clock.hour)
                 (snd (add_message_schedule db_now no_json (User.id clara) "hi"
                         (t0 + Clock.hour) None None
                         (mkWorld db_personal db_personal [] None))))))
    = [User.user_id clara] /\
    all_sent (MessageSchedule.id e)
      (durable
         (snd (send_scheduled_broadcasts bot (t0 + Clock.hour)
                 (snd (add_message_schedule db_now no_json (User.id clara) "hi"
                         (t0 + Clock.hour) None None
                         (mkWorld db_personal db_personal [] None)))))).
Proof.
  pose proof (scheduled_entry_waits_for_its_time bot db_now no_json "hi" (t0 + Clock.hour)
                None None db_personal [] clara) as H.
  assert (H1 : schedule_keys_ok db_personal).
  { unfold schedule_keys_ok. cbn. repeat constructor. intros []. }
  assert (H2 : user_keys_ok db_personal).
  { unfold user_keys_ok. cbn. repeat constructor; cbn; intuition discriminate. }
  assert (H3 : In clara (user db_personal)).
  { right. right. left. reflexivity. }
  destruct (H H1 H2 H3) as (e & He & _ & _ & _ & Hticks).
  exists e. split; [exact He |].
  assert (Hle : t0 + Clock.hour <= t0 + Clock.hour) by lia.
  destruct (proj2 (Hticks (t0 + Clock.hour)) Hle) as (Hrec & _ & Hall).
  split; [exact Hrec | exact Hall].
Defined.

(** The run of an UPDATE or DELETE followed by a commit, on a database
    that does not fail. *)
Lemma execute_dml_commit_run (f : Store -> Store) (s d : Store) (t : list Event) :
  (execute_dml f ;; commit) (mkWorld s d t None)
  = (Ok tt, mkWorld (f s) (f s) (t ++ [EvCommit (f s)]) None).
Proof. reflexivity. Qed.

Lemma insert_by_send_time_perm (m : MessageSchedule.t) (l : list MessageSchedule.t) :
  Permutation (insert_by_send_time m l) (m :: l).
Proof.
  induction l as [| x l IH]; cbn; [reflexivity |].
  destruct (MessageSchedule.send_time m <? MessageSchedule.send_time x); [reflexivity |].
  rewrite IH. apply perm_swap.
Qed.

Lemma insert_by_send_time_sorted (m : MessageSchedule.t) (l : list MessageSchedule.t) :
  Sorted (fun a b => MessageSchedule.send_time a <= MessageSchedule.send_time b) l ->
  Sorted (fun a b => MessageSchedule.send_time a <= MessageSchedule.send_time b)
         (insert_by_send_time m l).
Proof.
  intros Hs. induction Hs as [| x l Hs IH Hhd]; cbn.
  - repeat constructor.
  - destruct (Z.ltb_spec (MessageSchedule.send_time m) (MessageSchedule.send_time x)).
    + constructor; [now constructor |]. constructor. lia.
    + constructor; [exact IH |].
      destruct l as [| y l]; cbn.
      * constructor. lia.
      * destruct (Z.ltb_spec (MessageSchedule.send_time m) (MessageSchedule.send_time y)).
        -- constructor. lia.
        -- constructor. now inversion Hhd.
Qed.

Lemma order_by_send_time_spec (rows : list MessageSchedule.t) :
  Permutation (order_by_send_time rows) rows /\
  Sorted (fun a b => MessageSchedule.send_time a <= MessageSchedule.send_time b)
         (order_by_send_time rows).
Proof.
  unfold order_by_send_time.
  assert (H : forall acc,
    Sorted (fun a b => MessageSchedule.send_time a <= MessageSchedule.send_time b) acc ->
    Permutation (fold_left (fun acc m => insert_by_send_time m acc) rows acc) (acc ++ rows) /\
    Sorted (fun a b => MessageSchedule.send_time a <= MessageSchedule.send_time b)
           (fold_left (fun acc m => insert_by_send_time m acc) rows acc)).
  { induction rows as [| m rows IH]; intros acc Hacc; cbn [fold_left].
    - rewrite app_nil_r. now split.
    - destruct (IH (insert_by_send_time m acc) (insert_by_send_time_sorted m acc Hacc))
        as [Hp Hs].
      split; [| exact Hs].
      rewrite Hp, insert_by_send_time_perm. apply Permutation_middle. }
  destruct (H [] (Sorted_nil _)) as [Hp Hs]. now split.
Qed.

(** The run of [get_pending_messages] on a database that does not
    fail. *)
Lemma get_pending_messages_run (s d : Store) (t : list Event) :
  exists pending,
    get_pending_messages (mkWorld s d t None) = (Ok pending, mkWorld s d t None) /\
    Permutation pending
      (filter (fun m => negb (MessageSchedule.sent m)) (message_schedule s)) /\
    Sorted (fun a b => MessageSchedule.send_time a <= MessageSchedule.send_time b) pending.
Proof.
  eexists. split; [reflexivity |]. apply order_by_send_time_spec.
Qed.

(** X10. [get_pending_messages] reads without writing and returns the
    unsent entries, each exactly once, in the order of their due times,
    earliest first. *)
Theorem get_pending_messages_sorted (s d : Store) (t : list Event) :
  exists pending,
    get_pending_messages (mkWorld s d t None) = (Ok pending, mkWorld s d t None) /\
    Permutation pending
      (filter (fun m => negb (MessageSchedule.sent m)) (message_schedule s)) /\
    Sorted (fun a b => MessageSchedule.send_time a <= MessageSchedule.send_time b) pending.
Proof. exact (get_pending_messages_run s d t). Qed.

(** X11. After [mark_message_as_sent] the entry is out of the queue: every
    row with that key is committed as sent, the rows with other keys are
    what they were, [get_pending_messages] no longer lists the key, and no
    number of later ticks makes a delivery attempt for it. *)
Theorem marked_entry_is_never_sent (bot : Bot) (db_now : list Event -> Z) (i : Z)
    (nows : list Z) (s : Store) (t : list Event) :
  let r := mark_message_as_sent db_now i (mkWorld s s t None) in
  fst r = Ok tt /\
  all_sent i (durable (snd r)) /\
  (forall m, In m (message_schedule s) -> MessageSchedule.id m <> i ->
             In m (message_schedule (durable (snd r)))) /\
  (exists pending, fst (get_pending_messages (snd r)) = Ok pending /\
                   forall m, In m pending -> MessageSchedule.id m <> i) /\
  attempts (Personal i) (new_events (snd r) (snd (run_ticks bot nows (snd r)))) = O.
Proof.
  cbv zeta.
  set (f := fun m => MessageSchedule.mk (MessageSchedule.id m) (MessageSchedule.user_id m)
                       (MessageSchedule.message_text m) (MessageSchedule.send_time m)
                       true (MessageSchedule.created m) (db_now t)).
  set (s1 := with_message_schedule
               (update_where (fun m => MessageSchedule.id m =? i) f (message_schedule s)) s).
  assert (Hrun : mark_message_as_sent db_now i (mkWorld s s t None)
                 = (Ok tt, mkWorld s1 s1 (t ++ [EvCommit s1]) None)) by reflexivity.
  rewrite Hrun. cbn [fst snd durable].
  assert (Hall : all_sent i s1).
  { intros m Hm Hid. unfold s1 in Hm. cbn [message_schedule with_message_schedule] in Hm.
    unfold update_where in Hm. apply in_map_iff in Hm as (m0 & <- & _).
    destruct (MessageSchedule.id m0 =? i) eqn:E; [reflexivity |].
    apply Z.eqb_neq in E. contradiction. }
  split; [reflexivity |]. split; [exact Hall |]. split; [| split].
  - intros m Hm Hne. unfold s1. cbn [message_schedule with_message_schedule].
    unfold update_where. apply in_map_iff. exists m. split; [| exact Hm].
    now replace (MessageSchedule.id m =? i) with false by (symmetry; now apply Z.eqb_neq).
  - destruct (get_pending_messages_run s1 s1 (t ++ [EvCommit s1]))
      as (pending & -> & Hperm & _).
    exists pending. split; [reflexivity |].
    intros m Hm Hid. apply (Permutation_in _ Hperm) in Hm.
    apply filter_In in Hm as [Hm Hunsent].
    rewrite (Hall m Hm Hid) in Hunsent. discriminate.
  - now destruct (run_ticks_never_again bot i nows s1 s1 (t ++ [EvCommit s1]) Hall Hall)
      as (-> & _).
Qed.

(** X12. After [delete_message_schedule] no row with that key is left,
    the other rows are kept in their order, and no number of later ticks
    makes a delivery attempt for the deleted entry. *)
Theorem deleted_entry_is_never_sent (bot : Bot) (i : Z) (nows : list Z) (s : Store)
    (t : list Event) :
  let r := delete_message_schedule i (mkWorld s s t None) in
  fst r = Ok tt /\
  message_schedule (durable (snd r))
  = filter (fun m => negb (MessageSchedule.id m =? i)) (message_schedule s) /\
  (forall m, In m (message_schedule (durable (snd r))) -> MessageSchedule.id m <> i) /\
  attempts (Personal i) (new_events (snd r) (snd (run_ticks bot nows (snd r)))) = O.
Proof.
  cbv zeta. unfold delete_message_schedule. rewrite execute_dml_commit_run.
  cbn [fst snd durable message_schedule with_message_schedule].
  set (s1 := with_message_schedule _ s).
  assert (Hgone : forall m, In m (message_schedule s1) -> MessageSchedule.id m <> i).
  { intros m Hm. unfold s1 in Hm. cbn [message_schedule with_message_schedule] in Hm.
    apply filter_In in Hm as [_ Hne]. apply negb_true_iff in Hne. now apply Z.eqb_neq. }
  assert (Hall : all_sent i s1).
  { intros m Hm Hid. now apply Hgone in Hm. }
  split; [reflexivity |]. split; [reflexivity |]. split; [exact Hgone |].
  now destruct (run_ticks_never_again bot i nows s1 s1 (t ++ [EvCommit s1]) Hall Hall)
    as (-> & _).
Qed.

(* ================================================================== *)
(** * Broadcast jobs: creation and the immediate path                   *)
(* ================================================================== *)

(** A text that fits a column is stored as it is. *)
Lemma utf8_fits (s : string) (n : nat) :
  (utf8_length s <= n)%nat -> utf8_drop n s = EmptyString /\ utf8_take n s = s.
Proof.
  revert n. induction s as [| c rest IH]; intros n Hn; [now split |].
  unfold utf8_length in *. cbn [list_ascii_of_string filter utf8_drop utf8_take] in *.
  fold (is_continuation c) in *.
  destruct (is_continuation c); cbn [negb List.length] in Hn.
  - destruct (IH n Hn) as [-> ->]. now split.
  - destruct n as [| m]; [lia |].
    destruct (IH m) as [-> ->]; [lia | now split].
Qed.

Lemma fits_column_text (n : nat) (s : string) :
  fits n s = true -> column_text n s = Some s.
Proof.
  intros Hfits. unfold fits in Hfits. apply Nat.leb_le in Hfits.
  unfold column_text. destruct (utf8_fits s n Hfits) as [-> ->]. reflexivity.
Qed.

Lemma add_broadcast_run (db_now : list Event -> Z) (created_at : Z)
    (title content : string) (file_id file_type : option string)
    (scheduled_at lead : option Z) (s d : Store) (t : list Event) :
  fits 100 title = true -> lead_exists lead s = true ->
  let b := Broadcast.mk (next_id (map Broadcast.id (broadcast s))) title content None
             file_type created_at scheduled_at false (Some "pending"%string) file_id 0
             lead (db_now t) (db_now t) in
  let s1 := with_broadcast (broadcast s ++ [b]) s in
  add_broadcast db_now created_at title content file_id file_type scheduled_at lead
    (mkWorld s d t None)
  = (Ok b, mkWorld s1 s1 (t ++ [EvCommit s1]) None).
Proof.
  intros Hfits Hlead. cbv zeta. unfold add_broadcast. cbn [session trace].
  rewrite (fits_column_text 100 title Hfits), Hlead. reflexivity.
Qed.

Lemma filter_absent_key (k : Z) (rows : list Broadcast.t) :
  ~ In k (map Broadcast.id rows) ->
  filter (fun x => Broadcast.id x =? k) rows = [].
Proof.
  induction rows as [| x rows IH]; intros Hfresh; [reflexivity |].
  cbn [filter]. cbn [map] in Hfresh.
  replace (Broadcast.id x =? k) with false.
  - apply IH. intros Hin. apply Hfresh. now right.
  - symmetry. apply Z.eqb_neq. intros Heq. apply Hfresh. now left.
Qed.

Lemma rows_of_fresh (s : Store) (b : Broadcast.t) :
  Broadcast.id b = next_id (map Broadcast.id (broadcast s)) ->
  rows_of (Broadcast.id b) (with_broadcast (broadcast s ++ [b]) s) = [b].
Proof.
  intros Hid. unfold rows_of. cbn [broadcast with_broadcast].
  rewrite filter_app. cbn [filter]. rewrite Z.eqb_refl.
  rewrite filter_absent_key; [reflexivity |].
  rewrite Hid. apply next_id_fresh.
Qed.

Lemma find_after_undue {A} (p : A -> bool) (l : list A) (b : A) :
  Forall (fun x => p x = false) l -> p b = true -> find p (l ++ [b]) = Some b.
Proof.
  intros Hl Hb. induction Hl as [| x l Hx Hl IH]; cbn.
  - now rewrite Hb.
  - now rewrite Hx.
Qed.

(** An UPDATE by key, seen through the rows of that key. *)
Lemma filter_update_where_same (k : Z) (f : Broadcast.t -> Broadcast.t)
    (rows : list Broadcast.t) :
  (forall x, Broadcast.id (f x) = Broadcast.id x) ->
  filter (fun x => Broadcast.id x =? k)
         (update_where (fun x => Broadcast.id x =? k) f rows)
  = map f (filter (fun x => Broadcast.id x =? k) rows).
Proof.
  intros Hf. unfold update_where. induction rows as [| x rows IH]; [reflexivity |].
  cbn [map filter]. destruct (Broadcast.id x =? k) eqn:E.
  - rewrite Hf, E. cbn [map]. now rewrite IH.
  - now rewrite E, IH.
Qed.

(** X13. A broadcast created by [add_broadcast] without a scheduled time
    (its title within the 100 characters of the column, its target a
    stored lead source or none) is committed as 'pending' with a zero
    counter and is invisible to the dispatcher: through any number of
    ticks no delivery is attempted for it and its row stays as created.
    Only [send_broadcast_now] sends it. *)
Theorem unscheduled_broadcast_is_invisible_to_dispatcher (bot : Bot)
    (db_now : list Event -> Z) (created_at : Z) (title content : string)
    (file_id file_type : option string) (lead : option Z)
    (nows : list Z) (s : Store) (t : list Event) :
  fits 100 title = true -> lead_exists lead s = true ->
  let r := add_broadcast db_now created_at title content file_id file_type None lead
             (mkWorld s s t None) in
  exists b,
    fst r = Ok b /\
    broadcast (durable (snd r)) = broadcast s ++ [b] /\
    (Broadcast.status b = Some "pending"%string /\ Broadcast.is_sent b = false /\
     Broadcast.sent_count b = 0 /\ Broadcast.target_lead_id b = lead) /\
    let w' := snd (run_ticks bot nows (snd r)) in
    attempts (Mass (Broadcast.id b)) (new_events (snd r) w') = O /\
    rows_of (Broadcast.id b) (durable w') = [b].
Proof.
  intros Hfits Hlead. cbv zeta. rewrite add_broadcast_run by assumption. cbv zeta.
  set (b := Broadcast.mk _ _ _ _ _ _ _ _ _ _ _ _ _ _).
  set (s1 := with_broadcast (broadcast s ++ [b]) s).
  exists b. cbn [fst snd durable].
  split; [reflexivity |]. split; [reflexivity |]. split; [now repeat split |].
  assert (Hrows : rows_of (Broadcast.id b) s1 = [b]) by now apply rows_of_fresh.
  destruct (run_ticks_spares_settled bot (Broadcast.id b) nows s1 (t ++ [EvCommit s1]))
    as (_ & _ & Hd & Hnone).
  - rewrite Hrows. constructor; [| constructor]. right. left. reflexivity.
  - split; [exact Hnone |]. now rewrite Hd.
Qed.

Lemma unscheduled_broadcast_is_invisible_to_dispatcher_witness :
  exists b,
    fst (add_broadcast db_now 0 "title" "content" None (Some "text"%string) None
           (Some 1) (mkWorld db_personal db_personal [] None)) = Ok b /\
    Broadcast.id b = 1 /\ Broadcast.status b = Some "pending"%string.
Proof.
  destruct (unscheduled_broadcast_is_invisible_to_dispatcher bot db_now 0 "title"
              "content" None (Some "text"%string) (Some 1) [t0] db_personal []
              eq_refl eq_refl) as (b & Hb & _ & (Hst & _) & _).
  exists b. split; [exact Hb |]. split; [| exact Hst].
  cbn in Hb. inversion Hb. reflexivity.
Defined.

(** X14. A broadcast created by [add_broadcast] with a scheduled time
    (its title within the 100 characters of the column, its target a
    stored lead source or none) waits for that time: a tick before it
    attempts nothing for the job, and a
    tick at or after that time, when no other job is due, attempts a
    delivery to every contact of the user table, whatever the segment the
    job was created for, and commits the job as sent. *)
Theorem scheduled_broadcast_waits_for_its_time (bot : Bot)
    (db_now : list Event -> Z) (created_at : Z) (title content : string)
    (file_id file_type : option string) (due : Z) (lead : option Z)
    (s : Store) (t : list Event) :
  fits 100 title = true -> lead_exists lead s = true ->
  let r := add_broadcast db_now created_at title content file_id file_type (Some due) lead
             (mkWorld s s t None) in
  exists b,
    fst r = Ok b /\
    forall now,
      let w2 := snd (send_scheduled_broadcasts bot now (snd r)) in
      (now < due ->
         attempts (Mass (Broadcast.id b)) (new_events (snd r) w2) = O /\
         rows_of (Broadcast.id b) (durable w2) = [b]) /\
      (due <= now -> query_broadcast now s = None ->
         recipients (Mass (Broadcast.id b)) (new_events (snd r) w2)
         = map User.user_id (user s) /\
         exists total,
           rows_of (Broadcast.id b) (durable w2) = [Broadcast.finalize total now b]).
Proof.
  intros Hfits Hlead. cbv zeta. rewrite add_broadcast_run by assumption. cbv zeta.
  set (b := Broadcast.mk _ _ _ _ _ _ _ _ _ _ _ _ _ _).
  set (s1 := with_broadcast (broadcast s ++ [b]) s).
  exists b. cbn [fst snd]. split; [reflexivity |].
  assert (Hrows : rows_of (Broadcast.id b) s1 = [b]) by now apply rows_of_fresh.
  intros now. rewrite tick_run_pure. cbn [snd durable].
  rewrite (new_events_app _ _ (t ++ [EvCommit s1])) by reflexivity.
  split.
  - intros Hearly.
    assert (Hundue : Forall (fun x => broadcast_due now x = false)
                       (rows_of (Broadcast.id b) s1)).
    { rewrite Hrows. constructor; [| constructor].
      unfold broadcast_due. cbn [Broadcast.scheduled_at b].
      replace (due <=? now) with false by (symmetry; apply Z.leb_gt; lia).
      reflexivity. }
    destruct (tick_spares_undue bot (Broadcast.id b) now s1 (t ++ [EvCommit s1]) Hundue)
      as [Hr Ha].
    split; [exact Ha |].
    destruct (tick_durable_cases bot now s1 s1 (t ++ [EvCommit s1])) as [-> | ->];
      [exact Hrows | now rewrite Hr].
  - intros Hlate Hnone.
    assert (Hq : query_broadcast now s1 = Some (BroadcastRow.of_broadcast b)).
    { unfold query_broadcast, s1. cbn [broadcast with_broadcast].
      rewrite find_after_undue; [reflexivity | now apply query_broadcast_none |].
      unfold broadcast_due. cbn [Broadcast.scheduled_at Broadcast.status
                                   Broadcast.is_sent b].
      replace (due <=? now) with true by (symmetry; apply Z.leb_le; lia).
      reflexivity. }
    destruct (tick_events_mass bot now s1 (t ++ [EvCommit s1]) _ Hq) as (Hrec & _).
    cbn [BroadcastRow.id BroadcastRow.of_broadcast] in Hrec.
    split; [exact Hrec |].
    exists (tick_total bot now s1 (t ++ [EvCommit s1]) (BroadcastRow.of_broadcast b)).
    assert (Hdur : tick_durable bot now s1 s1 (t ++ [EvCommit s1])
                   = tick_session bot now s1 (t ++ [EvCommit s1])).
    { unfold tick_durable. now rewrite Hq. }
    rewrite Hdur. unfold rows_of at 1.
    destruct (tick_session_tables bot now s1 (t ++ [EvCommit s1])) as (_ & _ & _ & ->).
    rewrite Hq. cbn [BroadcastRow.id BroadcastRow.of_broadcast].
    rewrite filter_update_where_same by reflexivity.
    unfold rows_of in Hrows. now rewrite Hrows.
Qed.

Lemma scheduled_broadcast_waits_for_its_time_witness :
  exists b,
    fst (add_broadcast db_now 0 "title" "content" None (Some "text"%string) (Some t0)
           (Some 1) (mkWorld db_personal db_personal [] None)) = Ok b /\
    recipients (Mass (Broadcast.id b))
      (new_events
         (snd (add_broadcast db_now 0 "title" "content" None (Some "text"%string) (Some t0)
                 (Some 1) (mkWorld db_personal db_personal [] None)))
         (snd (send_scheduled_broadcasts bot t0
                 (snd (add_broadcast db_now 0 "title" "content" None (Some "text"%string)
                         (Some t0) (Some 1) (mkWorld db_personal db_personal [] None))))))
    = map User.user_id (user db_personal).
Proof.
  destruct (scheduled_broadcast_waits_for_its_time bot db_now 0 "title" "content" None
              (Some "text"%string) t0 (Some 1) db_personal [] eq_refl eq_refl)
    as (b & Hb & Hticks).
  exists b. split; [exact Hb |].
  assert (Hle : t0 <= t0) by lia.
  destruct (proj2 (Hticks t0) Hle eq_refl) as [Hrec _].
  exact Hrec.
Defined.

Lemma failures_app (o : Origin) (l1 l2 : list Event) :
  failures o (l1 ++ l2) = (failures o l1 + failures o l2)%nat.
Proof. unfold failures. rewrite unreachable_app, other_failures_app. lia. Qed.

(** One iteration of the loop of [send_broadcast_now], with its count. *)
Lemma immediate_attempt_count (bot : Bot) (b : Broadcast.t) (c : Z) (u : User.t)
    (w : World) :
  exists c' evs,
    immediate_attempt bot b c u w
    = (Ok c', mkWorld (session w) (durable w) (trace w ++ evs) (db_budget w)) /\
    c' = c + 1 - Z.of_nat (failures (Mass (Broadcast.id b)) evs) /\
    attempts (Mass (Broadcast.id b)) evs = (if known_kind b then 1 else 0)%nat.
Proof.
  unfold immediate_attempt, known_kind, try_except, bind, log, emit, ret, failures.
  destruct (Broadcast.file_type b) as [ft |].
  - repeat match goal with
           | |- context [String.eqb ft ?k] => destruct (String.eqb ft k)
           end;
      cbn [orb];
      unfold bot_call;
      try match goal with
          | |- context [bot (trace w) ?call] =>
              destruct (bot (trace w) call) as [| msg];
              [| destruct (blocked (TelegramError msg)) eqn:Eblocked]
          end;
      cbn [session durable trace db_budget];
      eexists _, _; rewrite <- ?app_assoc;
      (split; [reflexivity |]);
      cbn [app attempts unreachable other_failures origin_eqb];
      rewrite ?Z.eqb_refl, ?Eblocked; cbn [andb negb]; split; (reflexivity || lia).
  - eexists _, _. cbn [session durable trace db_budget].
    split; [reflexivity |]. cbn. split; (reflexivity || lia).
Qed.

Lemma immediate_loop_count (bot : Bot) (b : Broadcast.t) (users : list User.t) (c : Z)
    (w : World) :
  exists c' evs,
    for_fold users c (immediate_attempt bot b) w
    = (Ok c', mkWorld (session w) (durable w) (trace w ++ evs) (db_budget w)) /\
    c' = c + Z.of_nat (List.length users) - Z.of_nat (failures (Mass (Broadcast.id b)) evs) /\
    attempts (Mass (Broadcast.id b)) evs
    = (if known_kind b then List.length users else 0)%nat.
Proof.
  revert c w. induction users as [| u rest IH]; intros c w.
  - exists c, []. cbn. unfold ret. rewrite app_nil_r. destruct w.
    split; [reflexivity |]. split; [lia | now destruct (known_kind b)].
  - cbn [for_fold]. unfold bind.
    destruct (immediate_attempt_count bot b c u w) as (c1 & evs1 & -> & Hc1 & Ha1).
    destruct (IH c1 (mkWorld (session w) (durable w) (trace w ++ evs1) (db_budget w)))
      as (c2 & evs2 & -> & Hc2 & Ha2).
    exists c2, (evs1 ++ evs2). cbn [session durable trace db_budget].
    rewrite app_assoc. split; [reflexivity |].
    rewrite failures_app, attempts_app, Ha1, Ha2. cbn [List.length].
    split; [lia | now destruct (known_kind b)].
Qed.

Lemma find_some_key (i : Z) (rows : list Broadcast.t) (b : Broadcast.t) :
  find (fun x => Broadcast.id x =? i) rows = Some b -> Broadcast.id b = i.
Proof.
  intros H. apply find_some in H as [_ H]. now apply Z.eqb_eq.
Qed.

(** The run of [send_broadcast_now] on a stored job, on a database that
    does not fail. *)
Lemma send_broadcast_now_run (bot : Bot) (db_now : list Event -> Z) (i : Z)
    (s d : Store) (t : list Event) (b : Broadcast.t) :
  get_broadcast i s = Some b ->
  exists c evs s1 s2,
    send_broadcast_now bot db_now i (mkWorld s d t None)
    = (Ok tt, mkWorld s2 s2 (t ++ evs ++ [EvCommit s1; EvCommit s2; EvLog Info]) None) /\
    c = Z.of_nat (List.length (immediate_audience b s))
        - Z.of_nat (failures (Mass (Broadcast.id b)) evs) /\
    attempts (Mass (Broadcast.id b)) evs
    = (if known_kind b then List.length (immediate_audience b s) else 0)%nat /\
    (exists now1,
       broadcast s1 = update_where (fun x => Broadcast.id x =? i)
                        (Broadcast.finalize c now1) (broadcast s)) /\
    (exists now2,
       broadcast s2 = update_where (fun x => Broadcast.id x =? i)
                        (Broadcast.finalize c now2) (broadcast s1)).
Proof.
  intros Hget.
  unfold send_broadcast_now.
  unfold bind at 1. unfold execute_query at 1, bind at 1, round_trip at 1.
  cbn [db_budget session durable trace]. rewrite Hget.
  assert (Husers :
    (match Broadcast.target_lead_id b with
     | Some lead => if lead =? 0
                    then execute_query get_all_users
                    else execute_query (get_users_by_lead_source lead)
     | None => execute_query get_all_users
     end) (mkWorld s d t None)
    = (Ok (immediate_audience b s), mkWorld s d t None)).
  { unfold immediate_audience.
    destruct (Broadcast.target_lead_id b) as [lead |]; [destruct (lead =? 0) |];
      reflexivity. }
  unfold bind at 1. rewrite Husers.
  unfold bind at 1.
  destruct (immediate_loop_count bot b (immediate_audience b s) 0 (mkWorld s d t None))
    as (c & evs & -> & Hc & Ha).
  cbn [db_budget session durable trace].
  unfold bind, orm_mark_sent, session_update, commit, bind, round_trip, log, emit.
  cbn [db_budget session durable trace].
  eexists c, evs, _, _. rewrite <- !app_assoc. cbn [app].
  split; [reflexivity |]. split; [lia |]. split; [exact Ha |].
  split; eexists; reflexivity.
Qed.

(** X15. [send_broadcast_now] on a key that is not in the table does
    nothing.  On a stored job it always ends with the job committed as
    sent, with [sent_count] the number of contacts of its audience (the
    segment when one is set, everybody otherwise) minus the number of
    failed attempts.  For a content kind other than text, image, file or
    video it calls Telegram for nobody and still counts every contact as
    sent.  Afterwards no tick of the dispatcher attempts the job again. *)
Theorem send_broadcast_now_accounting (bot : Bot) (db_now : list Event -> Z) (i : Z) :
  (forall s d t,
     get_broadcast i s = None ->
     send_broadcast_now bot db_now i (mkWorld s d t None) = (Ok tt, mkWorld s d t None)) /\
  (forall s t b,
     get_broadcast i s = Some b ->
     let w := mkWorld s s t None in
     let r := send_broadcast_now bot db_now i w in
     let n := List.length (immediate_audience b s) in
     fst r = Ok tt /\
     attempts (Mass i) (new_events w (snd r)) = (if known_kind b then n else 0)%nat /\
     (exists b',
        get_broadcast i (durable (snd r)) = Some b' /\
        Broadcast.status b' = Some "sent"%string /\
        Broadcast.is_sent b' = true /\
        Broadcast.sent_count b'
        = Z.of_nat n - Z.of_nat (failures (Mass i) (new_events w (snd r)))) /\
     forall nows,
       attempts (Mass i) (new_events (snd r) (snd (run_ticks bot nows (snd r)))) = O).
Proof.
  split.
  - intros s d t Hnone. unfold send_broadcast_now, bind, execute_query, bind, round_trip.
    cbn [db_budget session]. now rewrite Hnone.
  - intros s t b Hget. cbv zeta.
    pose proof (find_some_key i (broadcast s) b Hget) as Hid.
    destruct (send_broadcast_now_run bot db_now i s s t b Hget)
      as (c & evs & s1 & s2 & -> & Hc & Ha & (now1 & Hs1) & (now2 & Hs2)).
    cbn [fst snd durable]. rewrite (new_events_app _ _ t) by reflexivity.
    rewrite attempts_app, failures_app. cbn [attempts failures unreachable other_failures].
    rewrite !Nat.add_0_r. rewrite Hid in Ha, Hc.
    split; [reflexivity |]. split; [exact Ha |]. split.
    + exists (Broadcast.finalize c now2 (Broadcast.finalize c now1 b)).
      split; [| cbn; repeat split; lia].
      unfold get_broadcast. rewrite Hs2, Hs1.
      rewrite !find_update_where by reflexivity. rewrite Z.eqb_refl.
      unfold get_broadcast in Hget. now rewrite Hget.
    + intros nows.
      destruct (run_ticks_spares_settled bot i nows s2
                  (t ++ evs ++ [EvCommit s1; EvCommit s2; EvLog Info]))
        as (_ & _ & _ & Hnone); [| exact Hnone].
      unfold rows_of. rewrite Hs2.
      rewrite filter_update_where_same by reflexivity.
      apply Forall_forall. intros x Hx.
      apply in_map_iff in Hx as (y & <- & _). left. reflexivity.
Qed.

Lemma send_broadcast_now_accounting_witness :
  exists b',
    get_broadcast 1
      (durable (snd (send_broadcast_now bot db_now 1 (mkWorld db_job db_job [] None))))
    = Some b' /\
    Broadcast.sent_count b'
    = Z.of_nat (List.length (immediate_audience job db_job))
      - Z.of_nat (failures (Mass 1)
                    (new_events (mkWorld db_job db_job [] None)
                       (snd (send_broadcast_now bot db_now 1
                               (mkWorld db_job db_job [] None))))).
Proof.
  destruct (proj2 (send_broadcast_now_accounting bot db_now 1) db_job [] job eq_refl)
    as (_ & _ & (b' & Hget & _ & _ & Hcount) & _).
  exists b'. split; [exact Hget | exact Hcount].
Defined.

(* ================================================================== *)
(** * The scheduler loop when the database fails                        *)
(* ================================================================== *)

Lemma bind_ok {A B} (m : M A) (k : A -> M B) (w w' : World) (a : A) :
  m w = (Ok a, w') -> bind m k w = k a w'.
Proof. intros H. unfold bind. now rewrite H. Qed.

Lemma bind_raise {A B} (m : M A) (k : A -> M B) (w w' : World) (e : Exn) :
  m w = (Raise e, w') -> bind m k w = (Raise e, w').
Proof. intros H. unfold bind. now rewrite H. Qed.

(** The personal loop makes one round trip per row. *)
Lemma personal_sweep_run_budget (bot : Bot) (rows : list PersonalRow.t) (s d : Store)
    (t : list Event) (k : nat) :
  personal_sweep bot rows (mkWorld s d t (Some (List.length rows + k)%nat))
  = (Ok tt, mkWorld (sweep_store rows s) d (t ++ personal_events bot rows t) (Some k)).
Proof.
  revert s t. induction rows as [| row rest IH]; intros s t.
  - cbn. unfold ret. now rewrite app_nil_r.
  - cbn [personal_sweep for_each personal_events sweep_store fold_left List.length Nat.add].
    fold (personal_sweep bot rest).
    unfold bind at 1. unfold bind at 1. unfold try_except, bind at 1.
    unfold bot_call; cbn [trace session durable db_budget].
    unfold personal_group. fold (personal_call row).
    destruct (bot t (personal_call row)) as [| msg]; cbn;
      [| destruct (contains "blocked" (lower msg)); cbn ];
      rewrite IH; unfold sweep_store; cbn;
      rewrite <- !app_assoc; reflexivity.
Qed.

(** The first part of a tick up to the broadcast query, on a database that
    still answers [k] more round trips after it. *)
Lemma tick_prefix_budget (bot : Bot) (now : Z) (s d : Store) (t : list Event) (k : nat)
    (rest : option BroadcastRow.t -> list PersonalRow.t -> M unit) :
  (log Info ;;
   rows <- execute_query (query_personal now) ;;
   personal_sweep bot rows ;;
   broadcast <- execute_query (query_broadcast now) ;;
   rest broadcast rows)
    (mkWorld s d t (Some (2 + List.length (query_personal now s) + k)%nat))
  = rest (query_broadcast now s) (query_personal now s)
         (mkWorld (sweep_store (query_personal now s) s) d
                  (t ++ tick_personal bot now s t) (Some k)).
Proof.
  unfold bind at 1. unfold log at 1, emit at 1.
  unfold bind at 1. unfold execute_query at 1, bind at 1, round_trip at 1.
  cbn [db_budget session durable trace Nat.add].
  replace (S (List.length (query_personal now s) + k))
    with (List.length (query_personal now s) + S k)%nat by lia.
  unfold bind at 1. rewrite personal_sweep_run_budget.
  unfold bind at 1. unfold execute_query at 1, bind at 1, round_trip at 1.
  cbn [db_budget session durable trace].
  rewrite query_broadcast_sweep. unfold tick_personal.
  rewrite <- app_assoc. reflexivity.
Qed.

(** One iteration of the loop on a database that does not fail. *)
Lemma iteration_run (bot : Bot) (now : Z) (s d : Store) (t : list Event) :
  scheduled_broadcast_iteration bot now (mkWorld s d t None)
  = (Ok tt, mkWorld (tick_durable bot now d d t) (tick_durable bot now d d t)
                    (t ++ tick_events bot now d t) None).
Proof.
  unfold scheduled_broadcast_iteration, try_except, with_session, bind, open_session.
  cbn [session durable trace db_budget]. rewrite tick_run_pure. reflexivity.
Qed.

(** One iteration whose closing commit is the first round trip to fail. *)
Lemma iteration_run_commit_failure (bot : Bot) (now : Z) (s d : Store) (t : list Event) :
  query_broadcast now d = None ->
  query_personal now d <> [] ->
  scheduled_broadcast_iteration bot now
    (mkWorld s d t (Some (2 + List.length (query_personal now d))%nat))
  = (Ok tt, mkWorld d d (t ++ tick_personal bot now d t ++ [EvLog Error]) (Some O)).
Proof.
  intros Hb Hp.
  unfold scheduled_broadcast_iteration, try_except, with_session.
  unfold bind at 1. unfold open_session at 1. cbn [session durable trace db_budget].
  replace (2 + List.length (query_personal now d))%nat
    with (2 + List.length (query_personal now d) + 0)%nat by lia.
  unfold send_scheduled_broadcasts. rewrite tick_prefix_budget. rewrite Hb.
  destruct (query_personal now d) as [| row rows] eqn:Er; [congruence |].
  unfold bind, ret, commit, bind, round_trip, log, emit.
  cbn [session durable trace db_budget orb].
  rewrite <- app_assoc. reflexivity.
Qed.

(** An entry that is due stays due. *)
Lemma rows_with_query_personal_mono (i now now2 : Z) (s : Store) :
  now <= now2 ->
  (List.length (rows_with i (query_personal now s))
   <= List.length (rows_with i (query_personal now2 s)))%nat.
Proof.
  intros Hle. rewrite !query_personal_flat.
  induction (message_schedule s) as [| m ms IH]; [reflexivity |].
  cbn [flat_map]. rewrite !rows_with_app, !length_app.
  destruct (personal_due now m) eqn:Ed.
  - replace (personal_due now2 m) with true; [lia |].
    symmetry. unfold personal_due in *. apply andb_prop in Ed as [Ht ->].
    apply Z.leb_le in Ht. rewrite andb_true_r. apply Z.leb_le. lia.
  - cbn [rows_with filter List.length]. lia.
Qed.

(** X16. Personal entries are delivered at least once, not exactly once.
    When a tick finds due personal entries and no due broadcast, and its
    closing commit is the first database round trip to fail, the loop
    carries on (the failure is logged), every due entry has had its
    delivery attempts, and the committed database is unchanged: no entry
    is marked sent.  The next tick, with the database back, attempts all
    of these entries again. *)
Theorem failed_commit_repeats_personal_entries (bot : Bot) (now now2 : Z) (s : Store)
    (t : list Event) :
  query_broadcast now s = None ->
  query_personal now s <> [] ->
  now <= now2 ->
  let rows := query_personal now s in
  let w := mkWorld s s t (Some (2 + List.length rows)%nat) in
  let r := scheduled_broadcast_iteration bot now w in
  let w2 := mkWorld (session (snd r)) (durable (snd r)) (trace (snd r)) None in
  let r2 := scheduled_broadcast_iteration bot now2 w2 in
  fst r = Ok tt /\ durable (snd r) = s /\
  fst r2 = Ok tt /\
  forall i,
    attempts (Personal i) (new_events w (snd r)) = List.length (rows_with i rows) /\
    (List.length (rows_with i rows)
     <= attempts (Personal i) (new_events w2 (snd r2)))%nat.
Proof.
  intros Hb Hp Hle. cbv zeta.
  rewrite (iteration_run_commit_failure bot now s s t Hb Hp).
  cbn [fst snd session durable trace]. rewrite iteration_run. cbn [fst snd].
  repeat split.
  - rewrite (new_events_app _ _ t) by reflexivity.
    rewrite attempts_app. unfold tick_personal. cbn [attempts].
    rewrite personal_events_attempts. lia.
  - rewrite (new_events_app _ _ (t ++ tick_personal bot now s t ++ [EvLog Error]))
      by reflexivity.
    rewrite tick_events_personal. now apply rows_with_query_personal_mono.
Qed.

Lemma failed_commit_repeats_personal_entries_witness :
  let w := mkWorld db_personal db_personal [] (Some 3%nat) in
  let r := scheduled_broadcast_iteration bot (t0 + Clock.hour) w in
  let w2 := mkWorld (session (snd r)) (durable (snd r)) (trace (snd r)) None in
  let r2 := scheduled_broadcast_iteration bot (t0 + 2 * Clock.hour) w2 in
  durable (snd r) = db_personal /\
  attempts (Personal 1) (new_events w (snd r)) = 1%nat /\
  (1 <= attempts (Personal 1) (new_events w2 (snd r2)))%nat.
Proof.
  pose proof (failed_commit_repeats_personal_entries bot (t0 + Clock.hour)
                (t0 + 2 * Clock.hour) db_personal []) as H.
  assert (H1 : query_broadcast (t0 + Clock.hour) db_personal = None) by reflexivity.
  assert (H2 : query_personal (t0 + Clock.hour) db_personal <> []) by discriminate.
  assert (H3 : t0 + Clock.hour <= t0 + 2 * Clock.hour) by (vm_compute; discriminate).
  destruct (H H1 H2 H3) as (_ & Hd & _ & Hi).
  destruct (Hi 1) as [Ha Hb].
  split; [exact Hd |]. split; [exact Ha | exact Hb].
Defined.

(** A tick that has selected a job, on a database whose first failing
    round trip comes after the commit of 'sending': the query of the
    contacts ([k = 0]), the final UPDATE ([k = 1]) or the closing commit
    ([k = 2]). *)
Lemma tick_run_interrupted (bot : Bot) (now : Z) (s d : Store) (t : list Event)
    (b : BroadcastRow.t) (k : nat) :
  query_broadcast now s = Some b -> (k <= 2)%nat ->
  exists s' evs,
    send_scheduled_broadcasts bot now
      (mkWorld s d t (Some (4 + List.length (query_personal now s) + k)%nat))
    = (Raise StoreError,
       mkWorld s' (sending_store now s b) (t ++ tick_head bot now s t b ++ evs) (Some O)) /\
    attempts (Mass (BroadcastRow.id b)) evs
    = (if Nat.eqb k 0 then O else List.length (users_query s)).
Proof.
  intros Hb Hk.
  replace (4 + List.length (query_personal now s) + k)%nat
    with (2 + List.length (query_personal now s) + (2 + k))%nat by lia.
  unfold send_scheduled_broadcasts. rewrite tick_prefix_budget. rewrite Hb.
  assert (Hmass : forall t', attempts (Mass (BroadcastRow.id b))
                    (mass_events bot b (users_query s) t')
                  = List.length (users_query s)).
  { intros t'. rewrite attempts_recipients.
    now destruct (mass_events_recipients bot b (users_query s) t') as (-> & _). }
  assert (Husers : users_query (sending_store now s b) = users_query s).
  { unfold users_query, sending_store. cbn [apply_stmt with_broadcast user].
    now destruct (sweep_store_tables (query_personal now s) s) as (_ & -> & _). }
  unfold broadcast_sweep.
  unfold bind at 1. unfold bind at 1. unfold log at 1, emit at 1.
  unfold bind at 1. unfold execute_update at 1, bind at 1, round_trip at 1.
  cbn [db_budget session durable trace Nat.add].
  unfold bind at 1, emit at 1. cbn [db_budget session durable trace].
  unfold bind at 1. unfold commit at 1, bind at 1, round_trip at 1.
  cbn [db_budget session durable trace].
  fold (sending_store now s b).
  unfold bind at 1. unfold execute_query at 1, bind at 1, round_trip at 1.
  cbn [db_budget session durable trace].
  destruct k as [| [| [| k]]]; [| | | lia].
  - exists (sending_store now s b), []. rewrite app_nil_r. unfold tick_head.
    rewrite <- !app_assoc. cbn [app]. split; reflexivity.
  - unfold bind at 1. rewrite for_fold_mass_run.
    cbn [db_budget session durable trace].
    unfold bind at 1. unfold execute_update at 1, bind at 1, round_trip at 1.
    cbn [db_budget session durable trace].
    rewrite Husers.
    exists (sending_store now s b), (tick_mass bot now s t b).
    unfold tick_mass, tick_head. rewrite <- !app_assoc. cbn [app].
    split; [reflexivity |]. cbn [Nat.eqb]. apply Hmass.
  - unfold bind at 1. rewrite for_fold_mass_run.
    cbn [db_budget session durable trace].
    unfold bind at 1. unfold execute_update at 1, bind at 1, round_trip at 1.
    cbn [db_budget session durable trace].
    unfold bind at 1, emit at 1. cbn [db_budget session durable trace].
    unfold log at 1, emit at 1. cbn [db_budget session durable trace].
    rewrite orb_true_r. unfold commit, bind, round_trip.
    cbn [db_budget session durable trace].
    rewrite Husers. rewrite Z.add_0_l.
    exists (sent_store bot now s t b),
           (tick_mass bot now s t b
              ++ [EvExec (MarkBroadcastSent (BroadcastRow.id b)
                            (tick_total bot now s t b) now); EvLog Info]).
    unfold sent_store, tick_total, tick_mass, tick_head.
    rewrite <- !app_assoc. cbn [app].
    split; [reflexivity |]. cbn [Nat.eqb].
    rewrite attempts_app. cbn [attempts]. rewrite Hmass. lia.
Qed.

Lemma sending_store_rows_of (now : Z) (s : Store) (b : BroadcastRow.t) :
  rows_of (BroadcastRow.id b) (sending_store now s b)
  = map (Broadcast.set_status (Some "sending"%string)) (rows_of (BroadcastRow.id b) s).
Proof.
  unfold rows_of, sending_store. cbn [apply_stmt with_broadcast broadcast].
  destruct (sweep_store_tables (query_personal now s) s) as (_ & _ & -> & _).
  now apply filter_update_where_same.
Qed.

(** X17. A broadcast whose sweep is interrupted is stranded.  When the
    first database round trip to fail comes after the commit of status
    'sending' (at the query of the contacts, at the final UPDATE or at the
    closing commit), the loop logs the failure and carries on, and the
    committed rows of the job are left in status 'sending'.  The contacts
    have then had no attempt at all (first case) or one attempt each
    (other cases), and in every later tick, with the database back, the
    job gets no further attempt and is never finalised. *)
Theorem interrupted_broadcast_is_stranded (bot : Bot) (now : Z) (s : Store)
    (t : list Event) (b : BroadcastRow.t) (k : nat) :
  query_broadcast now s = Some b -> (k <= 2)%nat ->
  let i := BroadcastRow.id b in
  let w := mkWorld s s t (Some (4 + List.length (query_personal now s) + k)%nat) in
  let r := scheduled_broadcast_iteration bot now w in
  let w2 := mkWorld (session (snd r)) (durable (snd r)) (trace (snd r)) None in
  fst r = Ok tt /\
  rows_of i (durable (snd r))
  = map (Broadcast.set_status (Some "sending"%string)) (rows_of i s) /\
  attempts (Mass i) (new_events w (snd r))
  = (if Nat.eqb k 0 then O else List.length (users_query s)) /\
  forall nows,
    fst (run_ticks bot nows w2) = Ok tt /\
    attempts (Mass i) (new_events w2 (snd (run_ticks bot nows w2))) = O /\
    rows_of i (durable (snd (run_ticks bot nows w2))) = rows_of i (durable (snd r)).
Proof.
  intros Hb Hk. cbv zeta.
  destruct (tick_run_interrupted bot now s s t b k Hb Hk) as (s' & evs & Hrun & Hevs).
  assert (Hiter :
    scheduled_broadcast_iteration bot now
      (mkWorld s s t (Some (4 + List.length (query_personal now s) + k)%nat))
    = (Ok tt, mkWorld (sending_store now s b) (sending_store now s b)
                (t ++ tick_head bot now s t b ++ evs ++ [EvLog Error]) (Some O))).
  { unfold scheduled_broadcast_iteration, try_except, with_session.
    unfold bind at 1. unfold open_session at 1. cbn [session durable trace db_budget].
    rewrite Hrun. unfold log, emit. cbn [session durable trace db_budget].
    rewrite <- !app_assoc. reflexivity. }
  rewrite Hiter. cbn [fst snd session durable trace].
  split; [reflexivity |]. split; [apply sending_store_rows_of |]. split.
  - rewrite (new_events_app _ _ t) by reflexivity.
    rewrite !attempts_app, Hevs. unfold tick_head, tick_personal.
    rewrite attempts_app. cbn [attempts].
    destruct (personal_events_mass bot (BroadcastRow.id b) (query_personal now s)
                (t ++ [EvLog Info])) as [-> _].
    lia.
  - intros nows.
    destruct (run_ticks_spares_settled bot (BroadcastRow.id b) nows
                (sending_store now s b)
                (t ++ tick_head bot now s t b ++ evs ++ [EvLog Error]))
      as (Hok & _ & Hd & Hnone).
    + rewrite sending_store_rows_of. apply Forall_forall. intros x Hx.
      apply in_map_iff in Hx as (y & <- & _).
      right. right. exists "sending"%string. split; [reflexivity | discriminate].
    + auto.
Qed.

Lemma interrupted_broadcast_is_stranded_witness :
  let i := BroadcastRow.id (BroadcastRow.of_broadcast job) in
  let w := mkWorld db_job db_job []
             (Some (4 + List.length (query_personal t0 db_job) + 1)%nat) in
  let r := scheduled_broadcast_iteration bot t0 w in
  let w2 := mkWorld (session (snd r)) (durable (snd r)) (trace (snd r)) None in
  fst r = Ok tt /\
  rows_of i (durable (snd r)) = [stuck_job] /\
  attempts (Mass i) (new_events w (snd r)) = 3%nat /\
  attempts (Mass i)
    (new_events w2 (snd (run_ticks bot [t0 + Clock.minute; t0 + Clock.hour] w2))) = O.
Proof.
  pose proof (interrupted_broadcast_is_stranded bot t0 db_job []
                (BroadcastRow.of_broadcast job) 1) as H.
  assert (H1 : query_broadcast t0 db_job = Some (BroadcastRow.of_broadcast job))
    by reflexivity.
  assert (H2 : (1 <= 2)%nat) by lia.
  destruct (H H1 H2) as (Hok & Hrows & Hatt & Hlater).
  destruct (Hlater [t0 + Clock.minute; t0 + Clock.hour]) as (_ & Hnone & _).
  split; [exact Hok |]. split; [exact Hrows |]. split; [exact Hatt | exact Hnone].
Defined.

(** X18. Whatever the database and Telegram do, one iteration of the loop
    of [scheduled_broadcast] raises nothing, so the loop goes on to its
    next iteration; and the session it opened is gone, so no uncommitted
    change is carried over: what the next iteration sees is the committed
    database. *)
Theorem scheduler_iteration_never_raises (bot : Bot) (now : Z) (w : World) :
  let r := scheduled_broadcast_iteration bot now w in
  fst r = Ok tt /\ session (snd r) = durable (snd r).
Proof.
  cbv zeta.
  assert (H : exists w', scheduled_broadcast_iteration bot now w = (Ok tt, w') /\
                         session w' = durable w').
  { unfold scheduled_broadcast_iteration, try_except, with_session, bind, open_session.
    destruct (send_scheduled_broadcasts bot now _) as [[[] | e] w'];
      eexists; split; reflexivity. }
  destruct H as (w' & -> & H). split; [reflexivity | exact H].
Qed.

(* ================================================================== *)
(** * Broadcast rows: flagging and deleting                             *)
(* ================================================================== *)

(** X19. After [mark_broadcast_as_sent], and likewise after
    [delete_broadcast], the dispatcher leaves the job alone: whatever its
    scheduled time and status, no tick makes a delivery attempt for it.
    The flag alone does it: [mark_broadcast_as_sent] keeps the status and
    the counter of the row. *)
Theorem flagged_or_deleted_broadcast_is_never_sent (bot : Bot)
    (db_now : list Event -> Z) (i : Z) (nows : list Z) (s : Store) (t : list Event) :
  (let w1 := snd (mark_broadcast_as_sent db_now i (mkWorld s s t None)) in
   rows_of i (durable w1)
   = map (fun b => Broadcast.mk (Broadcast.id b) (Broadcast.title b) (Broadcast.content b)
                     (Broadcast.file_path b) (Broadcast.file_type b)
                     (Broadcast.created_at b) (Broadcast.scheduled_at b) true
                     (Broadcast.status b) (Broadcast.file_id b) (Broadcast.sent_count b)
                     (Broadcast.target_lead_id b) (Broadcast.created b) (db_now t))
         (rows_of i s) /\
   attempts (Mass i) (new_events w1 (snd (run_ticks bot nows w1))) = O) /\
  (let w1 := snd (delete_broadcast i (mkWorld s s t None)) in
   rows_of i (durable w1) = [] /\
   attempts (Mass i) (new_events w1 (snd (run_ticks bot nows w1))) = O).
Proof.
  split; cbv zeta.
  - unfold mark_broadcast_as_sent. unfold bind at 1.
    unfold execute_dml, bind, round_trip, session_update, commit, bind, round_trip.
    cbn [fst snd session durable trace db_budget].
    assert (Hrows :
      rows_of i
        (with_broadcast
           (update_where (fun b => Broadcast.id b =? i)
              (fun b => Broadcast.mk (Broadcast.id b) (Broadcast.title b)
                          (Broadcast.content b) (Broadcast.file_path b)
                          (Broadcast.file_type b) (Broadcast.created_at b)
                          (Broadcast.scheduled_at b) true (Broadcast.status b)
                          (Broadcast.file_id b) (Broadcast.sent_count b)
                          (Broadcast.target_lead_id b) (Broadcast.created b) (db_now t))
              (broadcast s)) s)
      = map (fun b => Broadcast.mk (Broadcast.id b) (Broadcast.title b)
                        (Broadcast.content b) (Broadcast.file_path b)
                        (Broadcast.file_type b) (Broadcast.created_at b)
                        (Broadcast.scheduled_at b) true (Broadcast.status b)
                        (Broadcast.file_id b) (Broadcast.sent_count b)
                        (Broadcast.target_lead_id b) (Broadcast.created b) (db_now t))
            (rows_of i s)).
    { unfold rows_of. cbn [broadcast with_broadcast].
      now apply filter_update_where_same. }
    split; [exact Hrows |].
    match goal with
    | |- attempts _ (new_events ?w (snd (run_ticks bot nows ?w))) = O =>
        destruct (run_ticks_spares_settled bot i nows (session w) (trace w))
          as (_ & _ & _ & Hnone); [| exact Hnone]
    end.
    cbn [session]. rewrite Hrows. apply Forall_forall. intros x Hx.
    apply in_map_iff in Hx as (y & <- & _). left. reflexivity.
  - unfold delete_broadcast. unfold bind at 1.
    unfold execute_dml, bind, round_trip, session_update, commit, bind, round_trip.
    cbn [fst snd session durable trace db_budget].
    assert (Hrows :
      rows_of i (with_broadcast
                   (filter (fun b => negb (Broadcast.id b =? i)) (broadcast s)) s) = []).
    { unfold rows_of. cbn [broadcast with_broadcast].
      induction (broadcast s) as [| x rows IH]; [reflexivity |].
      cbn [filter]. destruct (Broadcast.id x =? i) eqn:E; cbn [negb]; [exact IH |].
      cbn [filter]. now rewrite E. }
    split; [exact Hrows |].
    match goal with
    | |- attempts _ (new_events ?w (snd (run_ticks bot nows ?w))) = O =>
        destruct (run_ticks_spares_settled bot i nows (session w) (trace w))
          as (_ & _ & _ & Hnone); [| exact Hnone]
    end.
    cbn [session]. rewrite Hrows. constructor.
Qed.

(* ================================================================== *)
(** * Lead sources and contacts                                         *)
(* ================================================================== *)

Lemma find_lead_by_id (l : LeadSource.t) (rows : list LeadSource.t) :
  In l rows ->
  exists l', find (fun x => LeadSource.id x =? LeadSource.id l) rows = Some l' /\
             LeadSource.id l' = LeadSource.id l.
Proof.
  intros Hin.
  destruct (find (fun x => LeadSource.id x =? LeadSource.id l) rows) as [l' |] eqn:E.
  - exists l'. split; [reflexivity |].
    apply find_some in E as [_ E]. now apply Z.eqb_eq.
  - exfalso. apply (find_none _ _ E) in Hin. rewrite Z.eqb_refl in Hin. discriminate.
Qed.

(** The run of [assign_user_to_lead_source] when one lead source carries
    the name, on a database that does not fail. *)
Lemma assign_user_run (db_now : list Event -> Z) (user_id : Z) (name : string)
    (s d : Store) (t : list Event) (l : LeadSource.t) :
  select_lead_source name s = [l] ->
  let s1 := with_user (update_where (fun u => User.user_id u =? user_id)
                         (set_user_lead (LeadSource.id l) (db_now t)) (user s)) s in
  let found := (0 <? List.length (filter (fun u => (User.user_id u =? user_id)%Z) (user s)))%nat in
  assign_user_to_lead_source db_now user_id name (mkWorld s d t None)
  = (Ok found,
     mkWorld s1 s1 (t ++ [EvCommit s1; EvLog (if found then Info else Error)]) None).
Proof.
  intros Hsel. cbv zeta.
  assert (Hin : In l (lead_source s)).
  { assert (H : In l (select_lead_source name s)) by (rewrite Hsel; now left).
    unfold select_lead_source in H. now apply filter_In in H. }
  destruct (find_lead_by_id l (lead_source s) Hin) as (l' & Hfind & Hid).
  unfold assign_user_to_lead_source, get_lead_source_id_by_name.
  unfold bind at 1. unfold bind at 1. unfold execute_query at 1, bind at 1, round_trip at 1.
  cbn [db_budget session durable trace]. rewrite Hsel.
  cbn [map scalar_one_or_none]. unfold ret at 1.
  unfold bind at 1. unfold execute_query at 1, bind at 1, round_trip at 1.
  cbn [db_budget session durable trace get_lead_source]. rewrite Hfind.
  unfold bind at 1. unfold bind at 1.
  unfold execute_dml, bind, round_trip, session_update, ret.
  cbn [db_budget session durable trace]. rewrite Hid.
  unfold commit, bind, round_trip. cbn [db_budget session durable trace].
  destruct (0 <? List.length (filter (fun u => (User.user_id u =? user_id)%Z) (user s)))%nat;
    unfold log, emit; cbn [db_budget session durable trace];
    rewrite <- app_assoc; reflexivity.
Qed.

(** X20. [assign_user_to_lead_source] when no lead source has the name:
    it answers False and writes nothing.  When one lead source has the
    name, for a Telegram id within BIGINT: it answers whether a contact
    with the Telegram id exists, and
    commits a table of contacts that holds, whatever the order of its
    rows, as many rows as before (an update, never an insert): the
    contacts with that Telegram id with their [lead_source_id] set to the
    key of the lead source and their [updated] refreshed, every other
    column and every other contact being left as they were.  The other
    tables are not written. *)
Theorem assign_user_to_lead_source_spec (db_now : list Event -> Z) (user_id : Z)
    (name : string) (s d : Store) (t : list Event) :
  let w := mkWorld s d t None in
  let r := assign_user_to_lead_source db_now user_id name w in
  (select_lead_source name s = [] ->
   fst r = Ok false /\ session (snd r) = s /\ durable (snd r) = d) /\
  (forall l, select_lead_source name s = [l] -> in_bigint user_id ->
   fst r = Ok (existsb (fun u => User.user_id u =? user_id) (user s)) /\
   session (snd r) = durable (snd r) /\
   lead_source (durable (snd r)) = lead_source s /\
   message_schedule (durable (snd r)) = message_schedule s /\
   broadcast (durable (snd r)) = broadcast s /\
   List.length (user (durable (snd r))) = List.length (user s) /\
   Permutation
     (user (durable (snd r)))
     (map (fun u => if User.user_id u =? user_id
                    then set_user_lead (LeadSource.id l) (db_now t) u
                    else u) (user s)) /\
   (forall u', In u' (user (durable (snd r))) -> User.user_id u' = user_id ->
               User.lead_source_id u' = Some (LeadSource.id l))).
Proof.
  cbv zeta. split.
  - intros Hsel.
    assert (Hrun : assign_user_to_lead_source db_now user_id name (mkWorld s d t None)
                   = (Ok false, mkWorld s d (t ++ [EvLog Error]) None)).
    { unfold assign_user_to_lead_source, get_lead_source_id_by_name, bind, execute_query,
        bind, round_trip.
      cbn [db_budget session durable trace]. rewrite Hsel. reflexivity. }
    rewrite Hrun. repeat split.
  - intros l Hsel _. rewrite (assign_user_run db_now user_id name s d t l Hsel).
    cbn [fst snd session durable lead_source message_schedule broadcast user with_user].
    split.
    { f_equal. induction (user s) as [| u us IH]; [reflexivity |].
      cbn [filter existsb]. destruct (User.user_id u =? user_id); [reflexivity | exact IH]. }
    split; [reflexivity |]. split; [reflexivity |]. split; [reflexivity |].
    split; [reflexivity |]. unfold update_where.
    split; [apply length_map |]. split; [apply Permutation_refl |].
    intros u' Hin Htg. apply in_map_iff in Hin as (u & <- & _).
    destruct (User.user_id u =? user_id) eqn:E; [reflexivity |].
    apply Z.eqb_neq in E. contradiction.
Qed.

Lemma assign_user_to_lead_source_spec_witness :
  let r := assign_user_to_lead_source db_now 1003 "challenge"
             (mkWorld db_job db_job [] None) in
  fst r = Ok true /\
  List.length (user (durable (snd r))) = 3%nat /\
  forall u', In u' (user (durable (snd r))) -> User.user_id u' = 1003 ->
             User.lead_source_id u' = Some 1.
Proof.
  assert (Hrange : in_bigint 1003) by (unfold in_bigint; lia).
  destruct (proj2 (assign_user_to_lead_source_spec db_now 1003 "challenge"
                     db_job db_job []) challenge eq_refl Hrange)
    as (Hr & _ & _ & _ & _ & Hlen & _ & Hlead).
  split; [exact Hr |]. split; [exact Hlen | exact Hlead].
Defined.

(** Membership in the result of the join of crud_admin.py. *)
Lemma get_users_by_lead_source_in (lead : Z) (db : Store) (u : User.t) :
  In u (get_users_by_lead_source lead db) <->
  In u (user db) /\ User.lead_source_id u = Some lead /\
  exists l, In l (lead_source db) /\ LeadSource.id l = lead.
Proof.
  unfold get_users_by_lead_source. split.
  - intros H. apply in_flat_map in H as (x & Hx & H).
    apply in_flat_map in H as (l & Hl & H).
    destruct (User.lead_source_id x) as [i |] eqn:Ei; cbn in H; [| contradiction].
    destruct (i =? LeadSource.id l) eqn:E1; cbn in H; [| contradiction].
    destruct (LeadSource.id l =? lead) eqn:E2; [| contradiction].
    destruct H as [<- | []]. apply Z.eqb_eq in E1, E2.
    split; [exact Hx |]. split; [congruence | now exists l].
  - intros (Hu & Href & l & Hl & Hid).
    apply in_flat_map. exists u. split; [exact Hu |].
    apply in_flat_map. exists l. split; [exact Hl |].
    rewrite Href, Hid, Z.eqb_refl. now left.
Qed.

(** X21. Assigning a contact to a lead source puts it into the segment.
    After [assign_user_to_lead_source] for a name that one lead source
    carries, every contact with the Telegram id is listed by
    [get_users_by_lead_source] for that lead source and belongs to the
    audience of every immediate broadcast that targets it; for the
    contacts with another Telegram id the segments are what they were. *)
Theorem assigned_contact_joins_segment (db_now : list Event -> Z) (user_id : Z)
    (name : string) (s d : Store) (t : list Event) (l : LeadSource.t) :
  select_lead_source name s = [l] ->
  let r := assign_user_to_lead_source db_now user_id name (mkWorld s d t None) in
  let s' := durable (snd r) in
  forall u, In u (user s') ->
    (User.user_id u = user_id ->
     In u (get_users_by_lead_source (LeadSource.id l) s') /\
     forall b, Broadcast.target_lead_id b = Some (LeadSource.id l) ->
               In u (immediate_audience b s')) /\
    (User.user_id u <> user_id ->
     forall lead, In u (get_users_by_lead_source lead s') <->
                  In u (get_users_by_lead_source lead s)).
Proof.
  intros Hsel. cbv zeta. rewrite (assign_user_run db_now user_id name s d t l Hsel).
  cbn [snd durable].
  set (s1 := with_user _ s).
  assert (Hl : In l (lead_source s)).
  { assert (H : In l (select_lead_source name s)) by (rewrite Hsel; now left).
    unfold select_lead_source in H. now apply filter_In in H. }
  assert (Hrow : forall u, In u (user s1) ->
            exists u0, In u0 (user s) /\
              u = (if User.user_id u0 =? user_id
                   then set_user_lead (LeadSource.id l) (db_now t) u0 else u0)).
  { intros u Hu. unfold s1 in Hu. cbn [user with_user] in Hu.
    unfold update_where in Hu. apply in_map_iff in Hu as (u0 & <- & Hu0).
    now exists u0. }
  intros u Hu. split.
  - intros Htg.
    assert (Hmember : In u (get_users_by_lead_source (LeadSource.id l) s1)).
    { apply get_users_by_lead_source_in. split; [exact Hu |]. split; [| now exists l].
      destruct (Hrow u Hu) as (u0 & _ & ->).
      destruct (User.user_id u0 =? user_id) eqn:E; [reflexivity |].
      apply Z.eqb_neq in E. contradiction. }
    split; [exact Hmember |].
    intros b Hb. unfold immediate_audience. rewrite Hb.
    destruct (LeadSource.id l =? 0); [exact Hu | exact Hmember].
  - intros Hne lead.
    assert (Hsame : In u (user s1) <-> In u (user s)).
    { split.
      - intros Hin. destruct (Hrow u Hin) as (u0 & Hu0 & Heq).
        destruct (User.user_id u0 =? user_id) eqn:E; [| now subst u].
        subst u. cbn [set_user_lead User.user_id] in Hne.
        apply Z.eqb_eq in E. contradiction.
      - intros Hin. unfold s1. cbn [user with_user]. unfold update_where.
        apply in_map_iff. exists u. split; [| exact Hin].
        replace (User.user_id u =? user_id) with false; [reflexivity |].
        symmetry. now apply Z.eqb_neq. }
    rewrite !get_users_by_lead_source_in. rewrite Hsame. reflexivity.
Qed.

Lemma assigned_contact_joins_segment_witness :
  In (set_user_lead 1 (db_now []) clara)
     (get_users_by_lead_source 1
        (durable (snd (assign_user_to_lead_source db_now 1003 "challenge"
                         (mkWorld db_job db_job [] None))))).
Proof.
  pose proof (assigned_contact_joins_segment db_now 1003 "challenge" db_job db_job []
                challenge eq_refl (set_user_lead 1 (db_now []) clara)) as H.
  assert (Hin : In (set_user_lead 1 (db_now []) clara)
                   (user (durable (snd (assign_user_to_lead_source db_now 1003
                            "challenge" (mkWorld db_job db_job [] None))))))
    by (cbn; auto).
  destruct (H Hin) as [Hjoin _].
  destruct (Hjoin eq_refl) as [Hmember _].
  exact Hmember.
Defined.

(** [delete_lead_source] on a database that does not fail. *)
Lemma delete_lead_source_run (lead_id : Z) (s d : Store) (t : list Event) :
  delete_lead_source lead_id (mkWorld s d t None)
  = (Ok tt, mkWorld (delete_lead_rows lead_id s) (delete_lead_rows lead_id s)
                    (t ++ [EvCommit (delete_lead_rows lead_id s)]) None).
Proof. reflexivity. Qed.

Lemma existsb_lead_false (lead_id : Z) (rows : list LeadSource.t) (l : LeadSource.t) :
  existsb (fun x => LeadSource.id x =? lead_id) rows = false ->
  In l rows -> LeadSource.id l <> lead_id.
Proof.
  intros Hnone Hin Heq.
  assert (H : existsb (fun x => LeadSource.id x =? lead_id) rows = true).
  { apply existsb_exists. exists l. split; [exact Hin | now apply Z.eqb_eq]. }
  congruence.
Qed.

(** X22. Deleting a lead source keeps the references sound.  After
    [delete_lead_source] no lead source has the key; no contact and no
    broadcast is deleted with it, and no personal entry is touched; and
    when every reference pointed to a lead source before, every reference
    still does: the contacts and the broadcasts that pointed to the deleted
    one now have no lead source at all. *)
Theorem delete_lead_source_keeps_references (lead_id : Z) (s d : Store)
    (t : list Event) :
  lead_refs_ok s ->
  let r := delete_lead_source lead_id (mkWorld s d t None) in
  let s' := durable (snd r) in
  fst r = Ok tt /\ session (snd r) = s' /\
  (forall l, In l (lead_source s') -> LeadSource.id l <> lead_id) /\
  map User.id (user s') = map User.id (user s) /\
  map Broadcast.id (broadcast s') = map Broadcast.id (broadcast s) /\
  message_schedule s' = message_schedule s /\
  lead_refs_ok s' /\
  (forall u, In u (user s') -> User.lead_source_id u <> Some lead_id) /\
  (forall b, In b (broadcast s') -> Broadcast.target_lead_id b <> Some lead_id).
Proof.
  intros [Hu Hb]. cbv zeta. rewrite delete_lead_source_run.
  cbn [fst snd session durable]. split; [reflexivity |]. split; [reflexivity |].
  unfold delete_lead_rows.
  destruct (existsb (fun l => LeadSource.id l =? lead_id) (lead_source s)) eqn:Ex.
  - cbn [lead_source user broadcast message_schedule].
    assert (Husers : forall u', In u' (update_where
                       (fun u => references lead_id (User.lead_source_id u))
                       clear_user_lead (user s)) ->
              (User.lead_source_id u' = None \/
               In u' (user s) /\ references lead_id (User.lead_source_id u') = false)).
    { intros u' Hin. unfold update_where in Hin.
      apply in_map_iff in Hin as (u & <- & Hin).
      destruct (references lead_id (User.lead_source_id u)) eqn:E;
        [left; reflexivity | right; now split]. }
    assert (Hjobs : forall b', In b' (update_where
                       (fun b => references lead_id (Broadcast.target_lead_id b))
                       clear_broadcast_target (broadcast s)) ->
              (Broadcast.target_lead_id b' = None \/
               In b' (broadcast s) /\
               references lead_id (Broadcast.target_lead_id b') = false)).
    { intros b' Hin. unfold update_where in Hin.
      apply in_map_iff in Hin as (b & <- & Hin).
      destruct (references lead_id (Broadcast.target_lead_id b)) eqn:E;
        [left; reflexivity | right; now split]. }
    repeat split.
    + intros l Hl. apply filter_In in Hl as [_ Hl].
      apply negb_true_iff, Z.eqb_neq in Hl. exact Hl.
    + unfold update_where. rewrite map_map. apply map_ext. intros u.
      now destruct (references lead_id (User.lead_source_id u)).
    + unfold update_where. rewrite map_map. apply map_ext. intros b.
      now destruct (references lead_id (Broadcast.target_lead_id b)).
    + intros u i Hin Href.
      destruct (Husers u Hin) as [Hnone | [Hin' Hne]]; [congruence |].
      destruct (Hu u i Hin' Href) as (l & Hl & Hid).
      exists l. split; [| exact Hid]. apply filter_In. split; [exact Hl |].
      rewrite Href in Hne. cbn [references] in Hne.
      apply negb_true_iff. rewrite Hid, Z.eqb_sym. now rewrite Z.eqb_sym in Hne.
    + intros b i Hin Href.
      destruct (Hjobs b Hin) as [Hnone | [Hin' Hne]]; [congruence |].
      destruct (Hb b i Hin' Href) as (l & Hl & Hid).
      exists l. split; [| exact Hid]. apply filter_In. split; [exact Hl |].
      rewrite Href in Hne. cbn [references] in Hne.
      apply negb_true_iff. rewrite Hid, Z.eqb_sym. now rewrite Z.eqb_sym in Hne.
    + intros u Hin Href.
      destruct (Husers u Hin) as [Hnone | [_ Hne]]; [congruence |].
      rewrite Href in Hne. cbn [references] in Hne. rewrite Z.eqb_refl in Hne.
      discriminate.
    + intros b Hin Href.
      destruct (Hjobs b Hin) as [Hnone | [_ Hne]]; [congruence |].
      rewrite Href in Hne. cbn [references] in Hne. rewrite Z.eqb_refl in Hne.
      discriminate.
  - repeat split; try assumption.
    + intros l Hl. now apply (existsb_lead_false lead_id (lead_source s)).
    + intros u Hin Href. destruct (Hu u lead_id Hin Href) as (l & Hl & Hid).
      now apply (existsb_lead_false lead_id (lead_source s) l).
    + intros b Hin Href. destruct (Hb b lead_id Hin Href) as (l & Hl & Hid).
      now apply (existsb_lead_false lead_id (lead_source s) l).
Qed.

Lemma lead_refs_ok_db_job : lead_refs_ok db_job.
Proof.
  split.
  - intros u i Hin Href. cbn in Hin.
    destruct Hin as [<- | [<- | [<- | []]]]; inversion Href; subst i;
      [exists challenge | exists challenge | exists webinar];
      (split; [cbn; auto | reflexivity]).
  - intros b i Hin Href. cbn in Hin.
    destruct Hin as [<- | []]. inversion Href; subst i.
    exists challenge. split; [cbn; auto | reflexivity].
Qed.

Lemma delete_lead_source_keeps_references_witness :
  let r := delete_lead_source 1 (mkWorld db_job db_job [] None) in
  lead_refs_ok db_job /\
  lead_refs_ok (durable (snd r)) /\
  map User.lead_source_id (user (durable (snd r))) = [None; None; Some 2] /\
  map Broadcast.target_lead_id (broadcast (durable (snd r))) = [None].
Proof.
  destruct (delete_lead_source_keeps_references 1 db_job db_job [] lead_refs_ok_db_job)
    as (_ & _ & _ & _ & _ & _ & Hok & _).
  split; [exact lead_refs_ok_db_job |]. split; [exact Hok |]. split; reflexivity.
Defined.

Lemma find_map_key (g : Broadcast.t -> Broadcast.t) (i : Z) (rows : list Broadcast.t) :
  (forall x, Broadcast.id (g x) = Broadcast.id x) ->
  find (fun x => Broadcast.id x =? i) (map g rows)
  = option_map g (find (fun x => Broadcast.id x =? i) rows).
Proof.
  intros Hg. induction rows as [| x rows IH]; [reflexivity |].
  cbn [map find]. rewrite Hg. now destruct (Broadcast.id x =? i).
Qed.

(** X23. Deleting a segment widens the broadcasts that targeted it.  The
    foreign key of [broadcast.target_lead_id] is ON DELETE SET NULL, and
    [send_broadcast_now] takes a job without a target for a job for
    everybody: once the lead source of a stored job is deleted, sending
    the job makes a delivery attempt for every contact of the database (for
    the four known content kinds), not for the contacts of the former
    segment. *)
Theorem deleted_segment_widens_broadcast (bot : Bot) (db_now : list Event -> Z)
    (i lead : Z) (s : Store) (t : list Event) (b : Broadcast.t) :
  get_broadcast i s = Some b ->
  Broadcast.target_lead_id b = Some lead ->
  (exists l, In l (lead_source s) /\ LeadSource.id l = lead) ->
  let w1 := snd (delete_lead_source lead (mkWorld s s t None)) in
  let r := send_broadcast_now bot db_now i w1 in
  fst r = Ok tt /\
  attempts (Mass i) (new_events w1 (snd r))
  = (if known_kind b then List.length (user s) else O).
Proof.
  intros Hget Htarget (l & Hl & Hid). cbv zeta.
  rewrite delete_lead_source_run. cbn [snd].
  pose proof (find_some_key i (broadcast s) b Hget) as Hkey.
  assert (Hex : existsb (fun x => LeadSource.id x =? lead) (lead_source s) = true).
  { apply existsb_exists. exists l. split; [exact Hl | now apply Z.eqb_eq]. }
  assert (Hget1 : get_broadcast i (delete_lead_rows lead s)
                  = Some (clear_broadcast_target b)).
  { unfold get_broadcast, delete_lead_rows. rewrite Hex. cbn [broadcast].
    unfold update_where. rewrite find_map_key.
    - unfold get_broadcast in Hget. rewrite Hget. cbn [option_map].
      rewrite Htarget. cbn [references]. now rewrite Z.eqb_refl.
    - intros x. now destruct (references lead (Broadcast.target_lead_id x)). }
  assert (Husers : List.length (user (delete_lead_rows lead s)) = List.length (user s)).
  { unfold delete_lead_rows. rewrite Hex. cbn [user]. unfold update_where.
    apply length_map. }
  destruct (send_broadcast_now_run bot db_now i (delete_lead_rows lead s)
              (delete_lead_rows lead s)
              (t ++ [EvCommit (delete_lead_rows lead s)])
              (clear_broadcast_target b) Hget1)
    as (c & evs & s1 & s2 & -> & _ & Ha & _).
  cbn [fst snd]. split; [reflexivity |].
  rewrite (new_events_app _ _ (t ++ [EvCommit (delete_lead_rows lead s)]))
    by reflexivity.
  rewrite attempts_app. cbn [attempts]. rewrite !Nat.add_0_r.
  cbn [clear_broadcast_target Broadcast.id] in Ha. rewrite Hkey in Ha. rewrite Ha.
  unfold known_kind, immediate_audience, get_all_users.
  cbn [clear_broadcast_target Broadcast.file_type Broadcast.target_lead_id].
  now rewrite Husers.
Qed.

Lemma deleted_segment_widens_broadcast_witness :
  let w1 := snd (delete_lead_source 1 (mkWorld db_job db_job [] None)) in
  let r := send_broadcast_now bot db_now 1 w1 in
  fst r = Ok tt /\ attempts (Mass 1) (new_events w1 (snd r)) = 3%nat.
Proof.
  pose proof (deleted_segment_widens_broadcast bot db_now 1 1 db_job [] job) as H.
  assert (H1 : get_broadcast 1 db_job = Some job) by reflexivity.
  assert (H2 : Broadcast.target_lead_id job = Some 1) by reflexivity.
  assert (H3 : exists l, In l (lead_source db_job) /\ LeadSource.id l = 1).
  { exists challenge. split; [cbn; auto | reflexivity]. }
  destruct (H H1 H2 H3) as [Hok Ha].
  split; [exact Hok | exact Ha].
Defined.

(* ================================================================== *)
(** * Whom the dispatcher writes to                                     *)
(* ================================================================== *)

Lemma sends_within_app (chats : list Z) (l1 l2 : list Event) :
  sends_within chats l1 -> sends_within chats l2 -> sends_within chats (l1 ++ l2).
Proof. intros H1 H2. apply Forall_app. now split. Qed.

Lemma sends_within_recipients (chats : list Z) (evs : list Event) (o : Origin) (c : Z) :
  sends_within chats evs -> In c (recipients o evs) -> In c chats.
Proof.
  intros H. induction H as [| e evs He Hevs IH]; cbn [recipients]; [contradiction |].
  destruct e as [o' call r | | | |]; try exact IH.
  destruct (origin_eqb o o'); [| exact IH].
  intros [<- | Hin]; [exact He | now apply IH].
Qed.

Lemma query_personal_tg (now : Z) (s : Store) (row : PersonalRow.t) :
  In row (query_personal now s) -> In (PersonalRow.tg_id row) (users_query s).
Proof.
  rewrite query_personal_flat. intros Hin.
  apply in_flat_map in Hin as (m & _ & Hin).
  destruct (personal_due now m); [| contradiction].
  unfold joined in Hin. apply in_flat_map in Hin as (u & Hu & Hin).
  destruct (User.id u =? MessageSchedule.user_id m); [| contradiction].
  destruct Hin as [<- | []]. cbn [PersonalRow.tg_id].
  unfold users_query. now apply in_map.
Qed.

Lemma personal_events_within (bot : Bot) (chats : list Z) (rows : list PersonalRow.t)
    (t : list Event) :
  (forall row, In row rows -> In (PersonalRow.tg_id row) chats) ->
  sends_within chats (personal_events bot rows t).
Proof.
  revert t. induction rows as [| row rows IH]; intros t Hrows; [constructor |].
  cbn [personal_events]. apply sends_within_app.
  - unfold personal_group, personal_call. repeat constructor.
    cbn [chat_of]. apply Hrows. now left.
  - apply IH. intros r Hr. apply Hrows. now right.
Qed.

Lemma mass_events_within (bot : Bot) (b : BroadcastRow.t) (chats users : list Z)
    (t : list Event) :
  (forall u, In u users -> In u chats) ->
  sends_within chats (mass_events bot b users t).
Proof.
  revert t. induction users as [| u users IH]; intros t Husers; [constructor |].
  cbn [mass_events]. apply sends_within_app.
  - unfold mass_group.
    assert (Hc : chat_of (mass_call b u) = u)
      by (unfold mass_call; now destruct (truthy _ && truthy _)).
    constructor; [rewrite Hc; apply Husers; now left |].
    destruct (bot t (mass_call b u)) as [| msg]; [constructor |].
    destruct (negb (blocked (TelegramError msg))); repeat constructor.
  - apply IH. intros x Hx. apply Husers. now right.
Qed.

Lemma tick_events_within (bot : Bot) (now : Z) (s : Store) (t : list Event) :
  sends_within (users_query s) (tick_events bot now s t).
Proof.
  assert (Hp : sends_within (users_query s) (tick_personal bot now s t)).
  { unfold tick_personal. constructor; [exact I |].
    apply personal_events_within. intros row. apply query_personal_tg. }
  unfold tick_events. destruct (query_broadcast now s) as [b |].
  - unfold tick_head, tick_mass, tick_tail.
    repeat apply sends_within_app; try exact Hp; try (repeat constructor).
    apply mass_events_within. auto.
  - destruct (query_personal now s) eqn:Er; [exact Hp |].
    apply sends_within_app; [exact Hp | repeat constructor].
Qed.

(** Through any number of ticks the table of contacts is what it was and
    every delivery attempt goes to one of its Telegram ids. *)
Lemma run_ticks_within (bot : Bot) (nows : list Z) (s : Store) (t : list Event) :
  let w := mkWorld s s t None in
  let w' := snd (run_ticks bot nows w) in
  fst (run_ticks bot nows w) = Ok tt /\
  user (durable w') = user s /\
  sends_within (users_query s) (new_events w w').
Proof.
  cbv zeta.
  destruct (run_ticks_invariant bot
              (fun st => user st = user s)
              (fun evs => sends_within (users_query s) evs)) with
    (nows := nows) (s := s) (d := s) (t := t)
    as (s' & d' & evs & -> & _ & Hd' & Hevs); auto.
  - intros now s0 t0 H0.
    destruct (tick_session_tables bot now s0 t0) as (_ & -> & _). exact H0.
  - intros now s0 t0 H0.
    replace (users_query s) with (users_query s0)
      by (unfold users_query; now rewrite H0).
    apply tick_events_within.
  - constructor.
  - intros a b. apply sends_within_app.
  - cbn [fst snd durable]. rewrite (new_events_app _ _ t) by reflexivity. auto.
Qed.

(** X24. The dispatcher writes to stored contacts only.  Through any
    number of ticks, every delivery attempt, for a personal entry or for a
    broadcast, goes to the Telegram id of a row of the table of contacts;
    the dispatcher never changes that table. *)
Theorem dispatcher_writes_to_contacts_only (bot : Bot) (nows : list Z) (s : Store)
    (t : list Event) :
  let w := mkWorld s s t None in
  let w' := snd (run_ticks bot nows w) in
  user (durable w') = user s /\
  forall o c, In c (recipients o (new_events w w')) ->
              exists u, In u (user s) /\ User.user_id u = c.
Proof.
  cbv zeta. destruct (run_ticks_within bot nows s t) as (_ & Hu & Hw).
  split; [exact Hu |]. intros o c Hin.
  apply (sends_within_recipients _ _ _ _ Hw) in Hin.
  unfold users_query in Hin. apply in_map_iff in Hin as (u & Hid & Hu').
  now exists u.
Qed.

Lemma delete_user_run (tg : Z) (s d : Store) (t : list Event) :
  delete_user tg (mkWorld s d t None)
  = (Ok tt, mkWorld (delete_user_rows tg s) (delete_user_rows tg s)
                    (t ++ [EvCommit (delete_user_rows tg s)]) None).
Proof. reflexivity. Qed.

(** The entries that the cascade of a deletion removes. *)
Lemma cascade_spec (tg : Z) (s : Store) (m : MessageSchedule.t) :
  existsb (fun i => MessageSchedule.user_id m =? i)
          (map User.id (filter (fun u => User.user_id u =? tg) (user s))) = true
  <-> exists u, In u (user s) /\ User.user_id u = tg /\
                User.id u = MessageSchedule.user_id m.
Proof.
  rewrite existsb_exists. split.
  - intros (i & Hin & Heq). apply in_map_iff in Hin as (u & <- & Hu).
    apply filter_In in Hu as [Hu Htg]. exists u.
    apply Z.eqb_eq in Htg, Heq. auto.
  - intros (u & Hu & Htg & Hid). exists (User.id u). split.
    + apply in_map. apply filter_In. split; [exact Hu | now apply Z.eqb_eq].
    + apply Z.eqb_eq. auto.
Qed.

(** X25. [delete_user] removes the contacts with the Telegram id and, by
    the cascade of the foreign key, exactly their personal entries; every
    other row of every table stays.  Entries keep having an owner if they
    all had one.  And in any number of later ticks the dispatcher makes no
    delivery attempt to that Telegram id, neither for a personal entry nor
    for a broadcast. *)
Theorem deleted_contact_is_never_written_to (bot : Bot) (tg : Z) (nows : list Z)
    (s : Store) (t : list Event) :
  let w1 := snd (delete_user tg (mkWorld s s t None)) in
  let w' := snd (run_ticks bot nows w1) in
  (forall u, In u (user (durable w1)) <-> In u (user s) /\ User.user_id u <> tg) /\
  (forall m, In m (message_schedule (durable w1)) <->
             In m (message_schedule s) /\
             ~ exists u, In u (user s) /\ User.user_id u = tg /\
                         User.id u = MessageSchedule.user_id m) /\
  lead_source (durable w1) = lead_source s /\
  broadcast (durable w1) = broadcast s /\
  (schedule_refs_ok s -> schedule_refs_ok (durable w1)) /\
  forall o, ~ In tg (recipients o (new_events w1 w')).
Proof.
  cbv zeta. rewrite delete_user_run. cbn [snd durable].
  assert (Husers : forall u, In u (user (delete_user_rows tg s)) <->
                             In u (user s) /\ User.user_id u <> tg).
  { intros u. unfold delete_user_rows. cbn [user]. rewrite filter_In.
    rewrite negb_true_iff, Z.eqb_neq. reflexivity. }
  assert (Hentries : forall m, In m (message_schedule (delete_user_rows tg s)) <->
             In m (message_schedule s) /\
             ~ exists u, In u (user s) /\ User.user_id u = tg /\
                         User.id u = MessageSchedule.user_id m).
  { intros m. unfold delete_user_rows. cbn [message_schedule]. rewrite filter_In.
    rewrite negb_true_iff, <- not_true_iff_false, cascade_spec. reflexivity. }
  split; [exact Husers |]. split; [exact Hentries |].
  split; [reflexivity |]. split; [reflexivity |]. split.
  - intros Hrefs m Hm. apply Hentries in Hm as [Hm Hkept].
    destruct (Hrefs m Hm) as (u & Hu & Hid).
    exists u. split; [| exact Hid]. apply Husers. split; [exact Hu |].
    intros Htg. apply Hkept. now exists u.
  - intros o Hin.
    destruct (run_ticks_within bot nows (delete_user_rows tg s)
                (t ++ [EvCommit (delete_user_rows tg s)])) as (_ & _ & Hw).
    apply (sends_within_recipients _ _ _ _ Hw) in Hin.
    unfold users_query in Hin. apply in_map_iff in Hin as (u & Hid & Hu).
    apply Husers in Hu as [_ Hne]. contradiction.
Qed.

(** The join of one contact with the lead sources, for distinct keys. *)
Lemma join_one_lead (u : User.t) (lead : Z) (leads : list LeadSource.t) :
  NoDup (map LeadSource.id leads) ->
  flat_map (fun l =>
    if match User.lead_source_id u with
       | Some i => i =? LeadSource.id l
       | None => false
       end && (LeadSource.id l =? lead)
    then [u] else []) leads
  = if match User.lead_source_id u with
       | Some i => i =? lead
       | None => false
       end && existsb (fun l => LeadSource.id l =? lead) leads
    then [u] else [].
Proof.
  destruct (User.lead_source_id u) as [i |].
  2: { intros _. induction leads as [| l leads IH]; [reflexivity | exact IH]. }
  induction leads as [| l leads IH]; intros Hk.
  - cbn. now rewrite andb_false_r.
  - cbn [map] in Hk. apply NoDup_cons_iff in Hk as [Hnotin Hrest].
    cbn [flat_map existsb]. rewrite (IH Hrest).
    destruct (LeadSource.id l =? lead) eqn:El.
    + apply Z.eqb_eq in El.
      assert (Hnone : existsb (fun l0 => LeadSource.id l0 =? lead) leads = false).
      { apply not_true_iff_false. intros Hex. apply existsb_exists in Hex as (l0 & Hin & E0).
        apply Z.eqb_eq in E0. apply Hnotin. rewrite El, <- E0. now apply in_map. }
      rewrite Hnone, andb_false_r, app_nil_r, orb_true_l, !andb_true_r.
      now rewrite El.
    + rewrite andb_false_r, orb_false_l. reflexivity.
Qed.

(** X26. The two functions named [get_users_by_lead_source], the join of
    crud_admin.py and the plain filter of crud_user.py, return the same
    contacts in the same order, provided the keys of the lead sources are
    distinct and every contact's reference points to a stored lead
    source. *)
Theorem get_users_by_lead_source_agree (lead : Z) (db : Store) :
  NoDup (map LeadSource.id (lead_source db)) ->
  lead_refs_ok db ->
  get_users_by_lead_source lead db = CrudUser.get_users_by_lead_source lead db.
Proof.
  intros Hk [Hrefs _].
  unfold get_users_by_lead_source, CrudUser.get_users_by_lead_source.
  induction (user db) as [| u us IH]; [reflexivity |].
  cbn [flat_map filter]. rewrite IH by (intros x i Hx; apply Hrefs; now right).
  rewrite (join_one_lead u lead (lead_source db) Hk).
  destruct (User.lead_source_id u) as [i |] eqn:Ei; [| reflexivity].
  destruct (i =? lead) eqn:E; [| reflexivity].
  apply Z.eqb_eq in E. subst i.
  destruct (Hrefs u lead (or_introl eq_refl) Ei) as (l & Hl & Hid).
  replace (existsb (fun l0 => LeadSource.id l0 =? lead) (lead_source db)) with true;
    [reflexivity |].
  symmetry. apply existsb_exists. exists l. split; [exact Hl | now apply Z.eqb_eq].
Qed.

Lemma get_users_by_lead_source_agree_witness :
  get_users_by_lead_source 1 db_job = CrudUser.get_users_by_lead_source 1 db_job /\
  CrudUser.get_users_by_lead_source 1 db_job = [alice; boris].
Proof.
  split; [| reflexivity].
  apply (get_users_by_lead_source_agree 1 db_job).
  - cbn. repeat constructor; cbn; intuition discriminate.
  - exact lead_refs_ok_db_job.
Defined.

Lemma select_lead_source_fresh (name : string) (s : Store) (lead : LeadSource.t) :
  existsb (fun l => String.eqb (LeadSource.name l) name) (lead_source s) = false ->
  LeadSource.name lead = name ->
  select_lead_source name (with_lead_source (lead_source s ++ [lead]) s) = [lead].
Proof.
  intros Hfree Hname. unfold select_lead_source. cbn [lead_source with_lead_source].
  rewrite filter_app. cbn [filter]. rewrite Hname, String.eqb_refl.
  induction (lead_source s) as [| l ls IH]; [reflexivity |].
  cbn [existsb] in Hfree. apply orb_false_iff in Hfree as [Hl Hls].
  cbn [filter]. rewrite Hl. now apply IH.
Qed.

(** X27. [create_empty_lead_source] fails with a database error and
    commits nothing when the column does not take the name (a character
    other than a blank after the 50th), and when the name the column would
    store is in use.  Otherwise it commits one new row, with the stored
    name (the name itself when it has at most 50 characters, its first 50
    characters when only blanks follow them), no description and a key
    that no row had, and leaves every other table alone; a lookup by the
    stored name, [get_lead_source_by_name] or [get_lead_source_id_by_name],
    then finds this row and its key. *)
Theorem create_empty_lead_source_spec (db_now : list Event -> Z) (name : string)
    (s d : Store) (t : list Event) :
  let w := mkWorld s d t None in
  let r := create_empty_lead_source db_now name w in
  (fits 50 name = true -> column_text 50 name = Some name) /\
  (column_text 50 name = None ->
   fst r = Raise StoreError /\ durable (snd r) = d /\ trace (snd r) = t) /\
  (forall stored, column_text 50 name = Some stored ->
   (existsb (fun l => String.eqb (LeadSource.name l) stored) (lead_source s) = true ->
    fst r = Raise StoreError /\ durable (snd r) = d /\ trace (snd r) = t) /\
   (existsb (fun l => String.eqb (LeadSource.name l) stored) (lead_source s) = false ->
    exists lead,
      fst r = Ok lead /\
      LeadSource.name lead = stored /\ LeadSource.description lead = None /\
      ~ In (LeadSource.id lead) (map LeadSource.id (lead_source s)) /\
      lead_source (durable (snd r)) = lead_source s ++ [lead] /\
      user (durable (snd r)) = user s /\
      message_schedule (durable (snd r)) = message_schedule s /\
      broadcast (durable (snd r)) = broadcast s /\
      fst (get_lead_source_by_name stored (snd r)) = Ok (Some lead) /\
      fst (get_lead_source_id_by_name stored (snd r)) = Ok (Some (LeadSource.id lead)))).
Proof.
  cbv zeta. split; [apply fits_column_text |]. split.
  - intros Hnone.
    assert (Hrun : exists s', create_empty_lead_source db_now name (mkWorld s d t None)
                              = (Raise StoreError, mkWorld s' d t None)).
    { unfold create_empty_lead_source. cbn [session trace]. rewrite Hnone.
      eexists. reflexivity. }
    destruct Hrun as (s' & ->). repeat split.
  - intros stored Hstored. split; intros Hname.
    + assert (Hrun : exists s', create_empty_lead_source db_now name (mkWorld s d t None)
                                = (Raise StoreError, mkWorld s' d t None)).
      { unfold create_empty_lead_source. cbn [session trace LeadSource.name].
        rewrite Hstored, Hname. eexists. reflexivity. }
      destruct Hrun as (s' & ->). repeat split.
    + set (lead := LeadSource.mk (next_id (map LeadSource.id (lead_source s)))
                     stored None (db_now t) (db_now t)).
      set (s1 := with_lead_source (lead_source s ++ [lead]) s).
      assert (Hrun : create_empty_lead_source db_now name (mkWorld s d t None)
                     = (Ok lead, mkWorld s1 s1 (t ++ [EvCommit s1]) None)).
      { unfold create_empty_lead_source. cbn [session trace LeadSource.name].
        rewrite Hstored, Hname. reflexivity. }
      rewrite Hrun. cbn [fst snd durable].
      exists lead. split; [reflexivity |]. split; [reflexivity |].
      split; [reflexivity |]. split; [apply next_id_fresh |].
      split; [reflexivity |]. split; [reflexivity |].
      split; [reflexivity |]. split; [reflexivity |].
      unfold get_lead_source_by_name, get_lead_source_id_by_name, bind, execute_query,
        bind, round_trip.
      cbn [db_budget session durable trace].
      unfold s1. rewrite (select_lead_source_fresh stored s lead Hname eq_refl).
      split; reflexivity.
Qed.

Lemma create_empty_lead_source_spec_witness :
  let fresh_db := mkWorld db_job db_job [] None in
  fst (create_empty_lead_source db_now (fifty ++ "a") fresh_db) = Raise StoreError /\
  fst (create_empty_lead_source db_now "webinar" fresh_db) = Raise StoreError /\
  (exists lead,
     fst (create_empty_lead_source db_now (fifty ++ " ") fresh_db) = Ok lead /\
     LeadSource.name lead = fifty /\
     lead_source (durable (snd (create_empty_lead_source db_now (fifty ++ " ") fresh_db)))
     = lead_source db_job ++ [lead]) /\
  (exists lead,
     fst (create_empty_lead_source db_now "marathon" fresh_db) = Ok lead /\
     LeadSource.name lead = "marathon"%string).
Proof.
  cbv zeta.
  destruct (create_empty_lead_source_spec db_now (fifty ++ "a") db_job db_job [])
    as (_ & Hlong & _).
  destruct (create_empty_lead_source_spec db_now "webinar" db_job db_job [])
    as (_ & _ & Hdup).
  destruct (create_empty_lead_source_spec db_now (fifty ++ " ") db_job db_job [])
    as (_ & _ & Hblank).
  destruct (create_empty_lead_source_spec db_now "marathon" db_job db_job [])
    as (_ & _ & Hnew).
  split; [apply (Hlong eq_refl) |].
  split; [apply (proj1 (Hdup "webinar"%string eq_refl) eq_refl) |].
  split.
  - destruct (proj2 (Hblank fifty eq_refl) eq_refl)
      as (lead & Hr & Hn & _ & _ & Hls & _).
    exists lead. split; [exact Hr |]. split; [exact Hn | exact Hls].
  - destruct (proj2 (Hnew "marathon"%string eq_refl) eq_refl) as (lead & Hr & Hn & _).
    exists lead. split; [exact Hr | exact Hn].
Defined.

(* ================================================================== *)
(** * Creating a broadcast and sending it at once (handlers/admin.py)   *)
(* ================================================================== *)

(** X28. The path of [create_broadcast_time] for a job without a time:
    [add_broadcast] and then [send_broadcast_now] on the key of the new
    row.  The job makes one delivery attempt for every contact of its
    audience (every contact, or the contacts of the target lead source)
    when its content kind is one of the four known ones, and none
    otherwise; it ends as one committed row with status 'sent', flagged
    sent, whose counter is the size of the audience less the failed
    attempts (so an unknown content kind counts everybody, though nothing
    was sent). *)
Theorem created_broadcast_is_sent_at_once (bot : Bot) (db_now : list Event -> Z)
    (created_at : Z) (title content : string) (file_id file_type : option string)
    (lead : option Z) (s : Store) (t : list Event) :
  fits 100 title = true -> lead_exists lead s = true ->
  let r1 := add_broadcast db_now created_at title content file_id file_type None lead
              (mkWorld s s t None) in
  exists b,
    fst r1 = Ok b /\
    let r2 := send_broadcast_now bot db_now (Broadcast.id b) (snd r1) in
    let n := List.length (immediate_audience b s) in
    let evs := new_events (snd r1) (snd r2) in
    fst r2 = Ok tt /\
    attempts (Mass (Broadcast.id b)) evs = (if known_kind b then n else O) /\
    exists b',
      rows_of (Broadcast.id b) (durable (snd r2)) = [b'] /\
      Broadcast.status b' = Some "sent"%string /\
      Broadcast.is_sent b' = true /\
      Broadcast.sent_count b'
      = Z.of_nat n - Z.of_nat (failures (Mass (Broadcast.id b)) evs).
Proof.
  intros Hfits Hlead. cbv zeta. rewrite add_broadcast_run by assumption. cbv zeta.
  set (b := Broadcast.mk _ _ _ _ _ _ _ _ _ _ _ _ _ _).
  set (s1 := with_broadcast (broadcast s ++ [b]) s).
  exists b. cbn [fst snd]. split; [reflexivity |].
  assert (Hrows : rows_of (Broadcast.id b) s1 = [b]) by now apply rows_of_fresh.
  assert (Hget : get_broadcast (Broadcast.id b) s1 = Some b)
    by (rewrite get_broadcast_rows_of, Hrows; reflexivity).
  destruct (send_broadcast_now_run bot db_now (Broadcast.id b) s1 s1
              (t ++ [EvCommit s1]) b Hget)
    as (c & evs & s2 & s3 & -> & Hc & Ha & (now1 & Hs2) & (now2 & Hs3)).
  cbn [fst snd durable].
  rewrite (new_events_app _ _ (t ++ [EvCommit s1])) by reflexivity.
  rewrite attempts_app, failures_app.
  cbn [attempts failures unreachable other_failures]. rewrite !Nat.add_0_r.
  replace (immediate_audience b s1) with (immediate_audience b s) in Hc, Ha
    by reflexivity.
  split; [reflexivity |]. split; [exact Ha |].
  exists (Broadcast.finalize c now2 (Broadcast.finalize c now1 b)).
  split.
  - unfold rows_of. rewrite Hs3, Hs2.
    rewrite !filter_update_where_same by reflexivity.
    unfold rows_of in Hrows. now rewrite Hrows.
  - split; [reflexivity |]. split; [reflexivity |].
    rewrite <- Hc. reflexivity.
Qed.

Lemma created_broadcast_is_sent_at_once_witness :
  exists b,
    fst (add_broadcast db_now 0 "title" "content" None (Some "text"%string) None
           (Some 1) (mkWorld db_personal db_personal [] None)) = Ok b /\
    attempts (Mass (Broadcast.id b))
      (new_events
         (snd (add_broadcast db_now 0 "title" "content" None (Some "text"%string) None
                 (Some 1) (mkWorld db_personal db_personal [] None)))
         (snd (send_broadcast_now bot db_now (Broadcast.id b)
                 (snd (add_broadcast db_now 0 "title" "content" None
                         (Some "text"%string) None (Some 1)
                         (mkWorld db_personal db_personal [] None))))))
    = (if known_kind b then List.length (immediate_audience b db_personal) else O).
Proof.
  destruct (created_broadcast_is_sent_at_once bot db_now 0 "title" "content" None
              (Some "text"%string) (Some 1) db_personal [] eq_refl eq_refl)
    as (b & Hb & _ & Ha & _).
  exists b. split; [exact Hb | exact Ha].
Defined.

(* ================================================================== *)
(** * Lookups of crud_user.py                                           *)
(* ================================================================== *)

(** X29. [get_message_text] expects at most one entry per contact, and an
    enrolment in the lead-magnet funnel creates two: once
    [schedule_lead_magnet_messages] has run for a contact of the user
    table, on a database that does not fail, the lookup of the text for
    the key of that contact raises MultipleResultsFound instead of
    returning a text. *)
Theorem get_message_text_fails_after_enrolment (db_now : list Event -> Z)
    (json_dumps : string -> string -> string -> string)
    (welcome_text reminder_text feedback_thanks_text : string)
    (now : Z) (u : User.t) (s d : Store) (t : list Event) :
  In u (user s) ->
  let w1 := snd (schedule_lead_magnet_messages db_now json_dumps welcome_text
                   reminder_text feedback_thanks_text now u (mkWorld s d t None)) in
  fst (CrudUser.get_message_text (User.id u) w1) = Raise MultipleResultsFound.
Proof.
  intros Hu. cbv zeta. rewrite enrol_run by exact Hu. cbv zeta. cbn [snd].
  unfold CrudUser.get_message_text, bind, execute_query, bind, round_trip.
  cbn [db_budget session durable trace message_schedule with_message_schedule].
  rewrite !filter_app, !map_app. cbn [filter MessageSchedule.user_id].
  rewrite Z.eqb_refl. cbn [map MessageSchedule.message_text].
  destruct (map MessageSchedule.message_text
              (filter (fun m => MessageSchedule.user_id m =? User.id u)
                      (message_schedule s))) as [| a [| b l]]; reflexivity.
Qed.

Lemma get_message_text_fails_after_enrolment_witness :
  fst (CrudUser.get_message_text (User.id alice)
         (snd (schedule_lead_magnet_messages db_now no_json "W" "R" "F" t0 alice
                 (mkWorld db_job db_job [] None))))
  = Raise MultipleResultsFound.
Proof.
  assert (Hin : In alice (user db_job)) by (left; reflexivity).
  exact (get_message_text_fails_after_enrolment db_now no_json "W" "R" "F" t0 alice
           db_job db_job [] Hin).
Defined.
